(** * turrero: graph construction and integrity check

    Shallow embedding of [scripts/create_graph.py] ([read_json],
    [parse_stat], [process_threads]) and of the set comparison done by
    [scripts/integrity_check.py] ([main]), followed by the properties
    proved about them.

    The embedding starts from the decoded JSON document (the value that
    [json.load] returns) and stops before serialisation: opening files,
    decoding and [json.dump] are left out.

    Scope of the data model.
    - Decoded documents are built from [None], booleans, integers,
      strings, lists and objects with string keys.  JSON numbers with a
      fraction or an exponent (Python floats) are not part of the value
      type; floats only occur inside [parse_stat], as binary64 numbers.
    - A Python string is a Rocq [string], the bytes of its UTF-8 text.
      The builtins [int] and [float] are modelled as Python defines them
      on ASCII text; in a text with non-ASCII characters Python also
      accepts Unicode digits and spaces, so the model rejects some texts
      that Python converts, and converts none that Python rejects.
    - The interpreter limits the number of decimal digits that [int]
      reads and [str] writes (4300 unless configured otherwise) and
      raises [ValueError] beyond it.  The limit is modelled in [int] and
      in [str] as [parse_stat] calls them: a stat may be a text of any
      length.  [json.load] is subject to the same limit, so a decoded
      document holds no integer beyond it; the URL of a node is
      formatted from a thread identifier of a decoded document, and is
      modelled without the limit.
    - In a comprehension the key expression is evaluated before the value
      expression, and a dictionary keeps insertion order (Python 3.8 or
      later). *)

From Stdlib Require Import ZArith String Ascii List Bool Lia Permutation.
From Stdlib Require Import DecimalString DecimalPos.
From Stdlib Require Import Floats.SpecFloat.
From stdpp Require Import base gmap sets strings list.

Set Warnings "-register-all".

Local Open Scope string_scope.
Local Open Scope Z_scope.

(** ** Exceptions and results *)

Inductive exn : Type :=
| IndexError
| KeyError
| TypeError
| ValueError
| AttributeError
| OverflowError.

Inductive result (A : Type) : Type :=
| Ok (a : A)
| Raise (e : exn).

Arguments Ok {A} a.
Arguments Raise {A} e.

#[global] Instance result_ret : MRet result := fun _ a => Ok a.

#[global] Instance result_bind : MBind result := fun _ _ k r =>
  match r with
  | Ok a => k a
  | Raise e => Raise e
  end.

Definition is_ok {A : Type} (r : result A) : bool :=
  match r with Ok _ => true | Raise _ => false end.

(** A [for] loop that threads an accumulator and stops at the first
    exception. *)
Fixpoint for_each {A S : Type} (body : S -> A -> result S) (xs : list A) (s : S)
  : result S :=
  match xs with
  | [] => Ok s
  | x :: xs' => s' ← body s x; for_each body xs' s'
  end.

(** ** Decoded JSON values *)

Inductive value : Type :=
| VNone
| VBool (b : bool)
| VInt (n : Z)
| VStr (s : string)
| VList (l : list value)
| VDict (d : list (string * value)).

(** Hashable values, the keys of the dictionaries the scripts build. *)
Inductive key : Type :=
| KNone
| KBool (b : bool)
| KInt (n : Z)
| KStr (s : string).

(** Hashing a key: lists and dictionaries are unhashable. *)
Definition to_key (v : value) : result key :=
  match v with
  | VNone => Ok KNone
  | VBool b => Ok (KBool b)
  | VInt n => Ok (KInt n)
  | VStr s => Ok (KStr s)
  | VList _ | VDict _ => Raise TypeError
  end.

Definition of_key (k : key) : value :=
  match k with
  | KNone => VNone
  | KBool b => VBool b
  | KInt n => VInt n
  | KStr s => VStr s
  end.

(** Python's [==] on hashable values: [bool] is a subtype of [int], so
    [True == 1] and [False == 0]. *)
Definition key_num (k : key) : option Z :=
  match k with
  | KBool b => Some (if b then 1 else 0)
  | KInt n => Some n
  | _ => None
  end.

Definition key_eqb (a b : key) : bool :=
  match a, b with
  | KNone, KNone => true
  | KStr s, KStr t => String.eqb s t
  | _, _ =>
      match key_num a, key_num b with
      | Some x, Some y => Z.eqb x y
      | _, _ => false
      end
  end.

(** [v == k] for an arbitrary value against a hashable one: a list or a
    dictionary never equals a hashable value. *)
Definition value_eq_key (v : value) (k : key) : bool :=
  match to_key v with
  | Ok k' => key_eqb k' k
  | Raise _ => false
  end.

(** ** Insertion-ordered dictionaries

    A [dict] keeps its keys in insertion order; assigning to a key that is
    already present (up to [==]) replaces the value and keeps the stored
    key and its position. *)

Definition pydict (V : Type) : Type := list (key * V).

Fixpoint dict_get {V : Type} (d : pydict V) (k : key) : option V :=
  match d with
  | [] => None
  | (k', v) :: d' => if key_eqb k' k then Some v else dict_get d' k
  end.

Definition dict_get_default {V : Type} (d : pydict V) (k : key) (dflt : V) : V :=
  match dict_get d k with
  | Some v => v
  | None => dflt
  end.

Fixpoint dict_set {V : Type} (d : pydict V) (k : key) (v : V) : pydict V :=
  match d with
  | [] => [(k, v)]
  | (k', v') :: d' =>
      if key_eqb k' k then (k', v) :: d' else (k', v') :: dict_set d' k v
  end.

Definition dict_values {V : Type} (d : pydict V) : list V := map snd d.

(** Lookup in a decoded JSON object (string keys). *)
Fixpoint obj_get (d : list (string * value)) (k : string) : option value :=
  match d with
  | [] => None
  | (k', v) :: d' => if String.eqb k' k then Some v else obj_get d' k
  end.

(** ** Strings *)

Definition chars (s : string) : list ascii := list_ascii_of_string s.
Definition text (l : list ascii) : string := string_of_list_ascii l.

(** [c in s] for a one-character needle. *)
Definition has_char (c : ascii) (s : string) : bool :=
  existsb (Ascii.eqb c) (chars s).

(** [s.replace(c, '')] for a one-character [c]. *)
Definition remove_char (c : ascii) (s : string) : string :=
  text (List.filter (fun x => negb (Ascii.eqb c x)) (chars s)).

(** [needle in s]: substring test. *)
Fixpoint has_substring (needle s : string) : bool :=
  if String.prefix needle s then true
  else match s with
       | EmptyString => false
       | String _ s' => has_substring needle s'
       end.

(** [s.split(sep)] for a one-character separator: the pieces between the
    separators, so the empty string gives one empty piece. *)
Fixpoint split_on (sep : ascii) (s : string) : list string :=
  match s with
  | EmptyString => [EmptyString]
  | String c s' =>
      if Ascii.eqb c sep then EmptyString :: split_on sep s'
      else match split_on sep s' with
           | [] => [String c EmptyString]
           | piece :: pieces => String c piece :: pieces
           end
  end.

(** [s.strip()]: the characters Python calls white space, both ends. *)
Definition is_space (c : ascii) : bool :=
  let n := nat_of_ascii c in
  (Nat.eqb n 32 || (Nat.leb 9 n && Nat.leb n 13))%bool.

Fixpoint lstrip (l : list ascii) : list ascii :=
  match l with
  | c :: l' => if is_space c then lstrip l' else l
  | [] => []
  end.

Definition strip (l : list ascii) : list ascii :=
  rev (lstrip (rev (lstrip l))).

Definition is_digit (c : ascii) : bool :=
  let n := nat_of_ascii c in (Nat.leb 48 n && Nat.leb n 57)%bool.

Definition digit_val (c : ascii) : Z := Z.of_nat (nat_of_ascii c) - 48.

(** Value of a run of decimal digits, most significant first. *)
Definition digits_val (ds : list ascii) : Z :=
  fold_left (fun acc c => 10 * acc + digit_val c) ds 0.

(** Underscores in numeric text: allowed only between two digits.  Returns
    the text without them, or [None] when one is misplaced. *)
Fixpoint drop_underscores (prev : option ascii) (l : list ascii)
  : option (list ascii) :=
  match l with
  | [] =>
      match prev with
      | Some "_"%char => None
      | _ => Some []
      end
  | c :: l' =>
      if Ascii.eqb c "_" then
        match prev with
        | Some p => if is_digit p then drop_underscores (Some c) l' else None
        | None => None
        end
      else
        match prev with
        | Some "_"%char =>
            if is_digit c then option_map (cons c) (drop_underscores (Some c) l')
            else None
        | _ => option_map (cons c) (drop_underscores (Some c) l')
        end
  end.

(** An optional sign; [true] is minus. *)
Definition take_sign (l : list ascii) : bool * list ascii :=
  match l with
  | "-"%char :: l' => (true, l')
  | "+"%char :: l' => (false, l')
  | _ => (false, l)
  end.

(** The interpreter's limit on the number of decimal digits of an integer
    that [int] reads from a text and [str] writes: its default value. *)
Definition int_max_str_digits : nat := 4300.

(** [int(s)] on a string, base ten: surrounding white space, an optional
    sign, then at least one digit, single underscores between digits.  The
    digits are counted, leading zeros included; more than the limit raise
    [ValueError]. *)
Definition py_int (s : string) : result Z :=
  let '(neg, body) := take_sign (strip (chars s)) in
  match drop_underscores None body with
  | Some (d :: ds) =>
      if forallb is_digit (d :: ds) then
        if Nat.leb (length (d :: ds)) int_max_str_digits
        then Ok (if neg then - digits_val (d :: ds) else digits_val (d :: ds))
        else Raise ValueError
      else Raise ValueError
  | _ => Raise ValueError
  end.

(** ** Binary64 floats

    [float(s)] rounds the decimal number written in [s] to the nearest
    binary64 number (ties to even); products are rounded the same way.
    The operations are those of the standard library's specification of
    IEEE 754 arithmetic, at precision 53 and maximal exponent 1024. *)

Definition prec : Z := 53.
Definition emax : Z := 1024.

(** The binary64 number nearest to [m * 10 ^ e], for [m >= 0], with the
    sign [neg]. *)
Definition float_of_decimal (neg : bool) (m e : Z) : spec_float :=
  match m with
  | Z0 => S754_zero neg
  | Zpos p =>
      if 0 <=? e then
        match Zpos p * 10 ^ e with
        | Zpos q => binary_round prec emax neg q 0
        | _ => S754_nan
        end
      else
        let '(q, e', loc) := SFdiv_core_binary prec emax (Zpos p) 0 (10 ^ (- e)) 0 in
        binary_round_aux prec emax neg q e' loc
  | Zneg _ => S754_nan
  end.

Definition float_of_Z (n : Z) : spec_float := binary_normalize prec emax n 0 false.

(** [int(x)] for a float: truncation towards zero. *)
Definition int_of_float (x : spec_float) : result Z :=
  match x with
  | S754_zero _ => Ok 0
  | S754_infinity _ => Raise OverflowError
  | S754_nan => Raise ValueError
  | S754_finite neg m e =>
      let n := Z.shiftl (Zpos m) e in Ok (if neg then - n else n)
  end.

Fixpoint span_digits (l : list ascii) : list ascii * list ascii :=
  match l with
  | c :: l' =>
      if is_digit c then let '(ds, r) := span_digits l' in (c :: ds, r)
      else ([], l)
  | [] => ([], [])
  end.

Definition lower (c : ascii) : ascii :=
  let n := nat_of_ascii c in
  if (Nat.leb 65 n && Nat.leb n 90)%bool then ascii_of_nat (n + 32) else c.

(** [inf], [infinity] and [nan], in any letter case. *)
Definition parse_inf_or_nan (neg : bool) (body : list ascii) : option spec_float :=
  let w := text (map lower body) in
  if (String.eqb w "inf" || String.eqb w "infinity")%bool then Some (S754_infinity neg)
  else if String.eqb w "nan" then Some S754_nan
  else None.

(** A decimal numeral: digits, an optional point and fraction digits (at
    least one digit in all), an optional exponent.  Gives the digits as an
    integer and the power of ten that scales it. *)
Definition parse_decimal (body : list ascii) : option (Z * Z) :=
  let '(ip, r1) := span_digits body in
  let '(fp, r2) :=
    match r1 with
    | "."%char :: r => span_digits r
    | _ => ([], r1)
    end in
  let m := digits_val (ip ++ fp)%list in
  let scale := - Z.of_nat (length fp) in
  match (ip ++ fp)%list with
  | [] => None
  | _ :: _ =>
      match r2 with
      | [] => Some (m, scale)
      | c :: r3 =>
          if Ascii.eqb (lower c) "e" then
            let '(eneg, ds) := take_sign r3 in
            match ds with
            | [] => None
            | _ :: _ =>
                if forallb is_digit ds
                then Some (m, (if eneg then - digits_val ds else digits_val ds) + scale)
                else None
            end
          else None
      end
  end.

(** [float(s)] on a string. *)
Definition py_float (s : string) : result spec_float :=
  match drop_underscores None (strip (chars s)) with
  | None => Raise ValueError
  | Some l =>
      let '(neg, body) := take_sign l in
      match parse_inf_or_nan neg body with
      | Some x => Ok x
      | None =>
          match parse_decimal body with
          | Some (m, e) => Ok (float_of_decimal neg m e)
          | None => Raise ValueError
          end
      end
  end.

(** [x * n] for a float [x] and an integer [n]: [n] is converted first. *)
Definition float_mul_int (x : spec_float) (n : Z) : spec_float :=
  SFmul prec emax x (float_of_Z n).

(** ** [str] and [repr] *)

Definition dquote : ascii := ascii_of_nat 34.
Definition squote : ascii := ascii_of_nat 39.
Definition backslash : ascii := ascii_of_nat 92.

Definition hex_digit (n : nat) : ascii :=
  nth n (chars "0123456789abcdef") "0"%char.

Definition repr_char (quote c : ascii) : list ascii :=
  let n := nat_of_ascii c in
  if (Ascii.eqb c quote || Ascii.eqb c backslash)%bool then [backslash; c]
  else if Nat.eqb n 9 then [backslash; "t"%char]
  else if Nat.eqb n 10 then [backslash; "n"%char]
  else if Nat.eqb n 13 then [backslash; "r"%char]
  else if (Nat.ltb n 32 || Nat.eqb n 127)%bool
       then [backslash; "x"%char; hex_digit (Nat.div n 16); hex_digit (Nat.modulo n 16)]
  else [c].

(** [repr] of a string: single quotes, unless the text has a single quote
    and no double quote. *)
Definition repr_str (s : string) : string :=
  let q := if (has_char squote s && negb (has_char dquote s))%bool
           then dquote else squote in
  text (q :: flat_map (repr_char q) (chars s) ++ [q])%list.

Definition str_of_Z (n : Z) : string := NilZero.string_of_int (Z.to_int n).

Fixpoint join (sep : string) (l : list string) : string :=
  match l with
  | [] => EmptyString
  | [s] => s
  | s :: l' => s ++ sep ++ join sep l'
  end.

Fixpoint repr (v : value) : string :=
  match v with
  | VNone => "None"
  | VBool true => "True"
  | VBool false => "False"
  | VInt n => str_of_Z n
  | VStr s => repr_str s
  | VList l => "[" ++ join ", " (map repr l) ++ "]"
  | VDict d =>
      "{" ++ join ", " (map (fun kv => repr_str (fst kv) ++ ": " ++ repr (snd kv)) d) ++ "}"
  end.

(** The text that [str(v)] returns. *)
Definition py_str (v : value) : string :=
  match v with
  | VStr s => s
  | _ => repr v
  end.

(** The number of decimal digits of [n]. *)
Definition int_digits (n : Z) : nat := String.length (str_of_Z (Z.abs n)).

(** Every integer that [str(v)] has to write is within the limit. *)
Fixpoint str_converts (v : value) : bool :=
  match v with
  | VInt n => Nat.leb (int_digits n) int_max_str_digits
  | VList l => forallb str_converts l
  | VDict d => forallb (fun kv => str_converts (snd kv)) d
  | VNone | VBool _ | VStr _ => true
  end.

(** [str(v)]: the text, or [ValueError] for an integer beyond the limit. *)
Definition str (v : value) : result string :=
  if str_converts v then Ok (py_str v) else Raise ValueError.

(** ** The Stat Parser: [parse_stat] *)

Definition parse_stat (v : value) : result Z :=
  s ← str v;
  let value := remove_char "," s in
  if has_char "K" value then
    x ← py_float (remove_char "K" value);
    int_of_float (float_mul_int x 1000)
  else if has_char "M" value then
    x ← py_float (remove_char "M" value);
    int_of_float (float_mul_int x 1000000)
  else if String.eqb value "" then Ok 0
  else py_int value.

(** ** Operations on decoded values *)

(** Truth value of [v] in a condition. *)
Definition truthy (v : value) : bool :=
  match v with
  | VNone => false
  | VBool b => b
  | VInt n => negb (n =? 0)
  | VStr s => negb (String.eqb s "")
  | VList l => match l with [] => false | _ => true end
  | VDict d => match d with [] => false | _ => true end
  end.

(** [v[0]] *)
Definition getitem_0 (v : value) : result value :=
  match v with
  | VList (x :: _) => Ok x
  | VList [] => Raise IndexError
  | VStr (String c _) => Ok (VStr (String c EmptyString))
  | VStr EmptyString => Raise IndexError
  | VDict _ => Raise KeyError
  | VNone | VBool _ | VInt _ => Raise TypeError
  end.

(** [v[name]] for a string subscript. *)
Definition getitem (v : value) (name : string) : result value :=
  match v with
  | VDict d =>
      match obj_get d name with
      | Some x => Ok x
      | None => Raise KeyError
      end
  | _ => Raise TypeError
  end.

Definition is_str (name : string) (v : value) : bool :=
  match v with
  | VStr s => String.eqb s name
  | _ => false
  end.

(** [name in v]: a key of an object, an element of a list, a substring of
    a string. *)
Definition contains (name : string) (v : value) : result bool :=
  match v with
  | VDict d => Ok (match obj_get d name with Some _ => true | None => false end)
  | VList l => Ok (existsb (is_str name) l)
  | VStr s => Ok (has_substring name s)
  | VNone | VBool _ | VInt _ => Raise TypeError
  end.

(** [v.get(name, dflt)]: only objects have the method. *)
Definition get (v : value) (name : string) (dflt : value) : result value :=
  match v with
  | VDict d => Ok (default dflt (obj_get d name))
  | _ => Raise AttributeError
  end.

(** The elements a [for] loop over [v] visits. *)
Definition iter (v : value) : result (list value) :=
  match v with
  | VList l => Ok l
  | VDict d => Ok (map (fun kv => VStr (fst kv)) d)
  | VStr s => Ok (map (fun c => VStr (String c EmptyString)) (chars s))
  | VNone | VBool _ | VInt _ => Raise TypeError
  end.

(** ** The Source Loader: [read_json] *)

(** [c.split(',') if isinstance(c, str) else c] *)
Definition split_categories (c : value) : value :=
  match c with
  | VStr s => VList (map VStr (split_on "," s))
  | _ => c
  end.

(** A dictionary comprehension [{key: value for x in data if cond}]:
    [entry x] evaluates the condition, then the key and the value, and is
    [None] when the condition filters [x] out; the key is hashed when the
    pair is stored. *)
Definition dict_comprehension {A V : Type} (entry : A -> result (option (key * V)))
    (data : list A) : result (pydict V) :=
  for_each (fun (d : pydict V) (x : A) =>
              e ← entry x;
              Ok (match e with
                  | Some (k, v) => dict_set d k v
                  | None => d
                  end))
           data [].

(** [item['id']: c.split(',') if isinstance(c, str) else c], with [c]
    standing for [item['categories']]. *)
Definition category_entry (item : value) : result (option (key * value)) :=
  id ← getitem item "id";
  c ← getitem item "categories";
  k ← to_key id;
  Ok (Some (k, split_categories c)).

(** [item['id']: item['summary']] *)
Definition summary_entry (item : value) : result (option (key * value)) :=
  id ← getitem item "id";
  s ← getitem item "summary";
  k ← to_key id;
  Ok (Some (k, s)).

(** [sublist[0]['id']: sublist ... if sublist] *)
Definition thread_entry (sublist : value) : result (option (key * value)) :=
  if truthy sublist then
    first ← getitem_0 sublist;
    id ← getitem first "id";
    k ← to_key id;
    Ok (Some (k, sublist))
  else Ok None.

Definition read_categories (data : list value) : result (pydict value) :=
  dict_comprehension category_entry data.

Definition read_summaries (data : list value) : result (pydict value) :=
  dict_comprehension summary_entry data.

Definition read_threads (data : list value) : result (pydict value) :=
  dict_comprehension thread_entry data.

Definition read_json (data : value) : result (pydict value) :=
  match data with
  | VList l =>
      first ← getitem_0 data;
      is_cat ← contains "categories" first;
      if (is_cat : bool) then read_categories l
      else
        is_sum ← contains "summary" first;
        if (is_sum : bool) then read_summaries l
        else read_threads l
  | _ => Raise ValueError
  end.

(** ** The graph: [process_threads] *)

(** [related_threads.setdefault(k, []).append(x)] *)
Fixpoint setdefault_append (d : pydict (list value)) (k : key) (x : value)
  : pydict (list value) :=
  match d with
  | [] => [(k, [x])]
  | (k', xs) :: d' =>
      if key_eqb k' k then (k', (xs ++ [x])%list) :: d'
      else (k', xs) :: setdefault_append d' k x
  end.

(** The body of the first loop, for one tweet of [thread]. *)
Definition record_embed (thread : value) (related_threads : pydict (list value))
    (tweet : value) : result (pydict (list value)) :=
  metadata ← get tweet "metadata" (VDict []);
  embed ← get metadata "embed" (VDict []);
  ty ← get embed "type" VNone;
  if is_str "embed" ty then
    first ← getitem_0 thread;
    parent_id ← getitem first "id";
    target ← getitem embed "id";
    k ← to_key target;
    Ok (setdefault_append related_threads k parent_id)
  else Ok related_threads.

Definition record_thread (related_threads : pydict (list value)) (thread : value)
  : result (pydict (list value)) :=
  tweets ← iter thread;
  for_each (record_embed thread) tweets related_threads.

(** The first loop: the relation map. *)
Definition resolve_relations (threads_data : pydict value)
  : result (pydict (list value)) :=
  for_each record_thread (dict_values threads_data) [].

Record stats : Type := Stats {
  replies : Z;
  likes : Z;
  bookmarks : Z;
  views : Z
}.

Inductive stat_key : Type := Replies | Likes | Bookmarks | Views.

Definition stat_name (k : stat_key) : string :=
  match k with
  | Replies => "replies"
  | Likes => "likes"
  | Bookmarks => "bookmarks"
  | Views => "views"
  end.

(** The keys of [stats_total], in the order the literal lists them. *)
Definition stat_keys : list stat_key := [Replies; Likes; Bookmarks; Views].

Definition stats_zero : stats := Stats 0 0 0 0.

(** [stats_total[k] += n] *)
Definition stat_add (k : stat_key) (n : Z) (t : stats) : stats :=
  match k with
  | Replies => Stats (replies t + n) (likes t) (bookmarks t) (views t)
  | Likes => Stats (replies t) (likes t + n) (bookmarks t) (views t)
  | Bookmarks => Stats (replies t) (likes t) (bookmarks t + n) (views t)
  | Views => Stats (replies t) (likes t) (bookmarks t) (views t + n)
  end.

(** The body of the aggregation loop, for one tweet. *)
Definition add_tweet_stats (stats_total : stats) (tweet : value) : result stats :=
  st ← get tweet "stats" (VDict []);
  for_each (fun (total : stats) (k : stat_key) =>
              raw ← get st (stat_name k) (VInt 0);
              n ← parse_stat raw;
              Ok (stat_add k n total))
           stat_keys stats_total.

Definition aggregate (thread : value) : result stats :=
  tweets ← iter thread;
  for_each add_tweet_stats tweets stats_zero.

Record graph_node : Type := GraphNode {
  node_id : key;
  node_url : string;
  node_replies : Z;
  node_likes : Z;
  node_bookmarks : Z;
  node_views : Z;
  node_summary : value;
  node_categories : value;
  node_related_threads : list value
}.

(** [[rid for rid in related_threads.get(thread_id, []) if rid != thread_id]] *)
Definition related_ids (related_threads : pydict (list value)) (thread_id : key)
  : list value :=
  List.filter (fun rid => negb (value_eq_key rid thread_id))
         (dict_get_default related_threads thread_id []).

(** The body of the second loop, for one entry of [threads_data].  (The
    URL is written for an identifier whose text [str] returns: see the
    note on the digit limit at the head of the file.) *)
Definition make_node (summaries categories : pydict value)
    (related_threads : pydict (list value)) (entry : key * value)
  : result graph_node :=
  let '(thread_id, thread) := entry in
  stats_total ← aggregate thread;
  let summary := dict_get_default summaries thread_id (VStr "") in
  let cat_list := split_categories (dict_get_default categories thread_id (VList [])) in
  Ok {| node_id := thread_id;
        node_url := "https://twitter.com/Recuenco/status/" ++ py_str (of_key thread_id);
        node_replies := replies stats_total;
        node_likes := likes stats_total;
        node_bookmarks := bookmarks stats_total;
        node_views := views stats_total;
        node_summary := summary;
        node_categories := cat_list;
        node_related_threads := related_ids related_threads thread_id |}.

Definition process_threads (threads_data summaries categories : pydict value)
  : result (list graph_node) :=
  related_threads ← resolve_relations threads_data;
  for_each (fun (graph_data : list graph_node) (entry : key * value) =>
              node ← make_node summaries categories related_threads entry;
              Ok (graph_data ++ [node])%list)
           threads_data [].

(** ** The Integrity Verifier: [integrity_check.main]

    The identifier sets are Python sets; their element type only needs
    decidable equality and hashing, so the embedding is generic in it.
    [main] prints; the embedding returns the printed lines, with the
    missing identifiers kept as a set. *)

Section IntegrityCheck.
Context `{Countable K}.

Inductive report_line : Type :=
| AllPresent
| MissingHeader
| MissingIn (filename : string) (missing : gset K).

(** [set.union] applied to the unpacked list of sets: a call on the
    first set; with no set at all it is a [TypeError]. *)
Definition set_union (sets : list (gset K)) : result (gset K) :=
  match sets with
  | [] => Raise TypeError
  | s :: rest => Ok (foldl (∪) s rest)
  end.

(** [set.intersection] applied to the unpacked list of sets. *)
Definition set_intersection (sets : list (gset K)) : result (gset K) :=
  match sets with
  | [] => Raise TypeError
  | s :: rest => Ok (foldl (∩) s rest)
  end.

(** The lines of the [else] branch, one per file with something missing. *)
Definition missing_lines (all_ids_union : gset K) (files : list (string * gset K))
  : list report_line :=
  flat_map (fun '(filename, ids) =>
              let missing := all_ids_union ∖ ids in
              if bool_decide (missing = ∅) then []
              else [MissingIn filename missing])
           files.

(** The body of [main] once [files] is built. *)
Definition check_files (files : list (string * gset K)) : result (list report_line) :=
  let all_ids_sets := map snd files in
  all_ids_union ← set_union all_ids_sets;
  intersection_ids ← set_intersection all_ids_sets;
  if Nat.eqb (size intersection_ids) (size all_ids_union)
  then Ok [AllPresent]
  else Ok (MissingHeader :: missing_lines all_ids_union files).

(** [main], given the identifier sets read from the four files. *)
Definition main (turras tweets_exam tweets_map tweets_summary : gset K)
  : result (list report_line) :=
  check_files [("turras.csv", turras);
               ("tweets_exam.json", tweets_exam);
               ("tweets_map.json", tweets_map);
               ("tweets_summary.json", tweets_summary)].
End IntegrityCheck.

(** ** The contract of the Stat Parser as the specification words it

    Separators are stripped; a text that ends with [K] or [M] has its
    prefix parsed as a float, scaled and truncated; the empty text is 0;
    any other text is parsed as an integer. *)

(** The text before the last character, when that character is [c]. *)
Definition ends_with (c : ascii) (s : string) : option string :=
  match rev (chars s) with
  | x :: p => if Ascii.eqb c x then Some (text (rev p)) else None
  | [] => None
  end.

Definition parse_stat_spec (v : value) : result Z :=
  let value := remove_char "," (py_str v) in
  match ends_with "K" value, ends_with "M" value with
  | Some p, _ => x ← py_float p; int_of_float (float_mul_int x 1000)
  | None, Some p => x ← py_float p; int_of_float (float_mul_int x 1000000)
  | None, None => if String.eqb value "" then Ok 0 else py_int value
  end.

(** [K] and [M] occur nowhere but, possibly, as the last character. *)
Definition magnitude_only_last (s : string) : bool :=
  forallb (fun c => negb (Ascii.eqb "K" c || Ascii.eqb "M" c)) (removelast (chars s)).

(** Characters that may occur in a text [int] accepts, or that
    [parse_stat] removes before parsing: digits, white space, a sign, an
    underscore, the separator.  The bytes of non-ASCII characters and the
    control characters 28 to 31 are counted in: Python reads some of them
    as digits or spaces. *)
Definition numeric_char (c : ascii) : bool :=
  let n := nat_of_ascii c in
  (is_digit c || is_space c || Ascii.eqb c "+" || Ascii.eqb c "-"
   || Ascii.eqb c "_" || Ascii.eqb c ","
   || (Nat.leb 28 n && Nat.leb n 31) || Nat.leb 128 n)%bool.

(** Characters that may occur in a text [float] accepts, or that
    [parse_stat] looks for or removes before parsing: those of
    [numeric_char], the point, the letters of an exponent and of [inf],
    [infinity] and [nan] in either case, and the magnitude letters. *)
Definition float_char (c : ascii) : bool :=
  (numeric_char c || Ascii.eqb c "." || existsb (Ascii.eqb (lower c)) (chars "einfaty")
   || Ascii.eqb c "K" || Ascii.eqb c "M")%bool.

(** ** Auxiliary notions for the statements *)

(** What [parse_stat] does with the text [s] of its argument. *)
Definition parse_text (s : string) : result Z :=
  let value := remove_char "," s in
  if has_char "K" value then
    x ← py_float (remove_char "K" value);
    int_of_float (float_mul_int x 1000)
  else if has_char "M" value then
    x ← py_float (remove_char "M" value);
    int_of_float (float_mul_int x 1000000)
  else if String.eqb value "" then Ok 0
  else py_int value.

(** The representative of a key up to [==]: a boolean is the integer it
    equals. *)
Definition key_norm (k : key) : key :=
  match k with
  | KBool b => KInt (if b then 1 else 0)
  | _ => k
  end.

(** The exceptions the Source Loader raises on an array. *)
Definition loader_exn (e : exn) : bool :=
  match e with
  | IndexError | KeyError | TypeError => true
  | ValueError | AttributeError | OverflowError => false
  end.

Definition is_dict (v : value) : bool :=
  match v with VDict _ => true | _ => false end.

(** An object with a hashable [id] field. *)
Definition has_hashable_id (item : value) : bool :=
  match getitem item "id" with
  | Ok id => is_ok (to_key id)
  | Raise _ => false
  end.

(** Well-formed elements of the three kinds of source. *)
Definition category_item (item : value) : bool :=
  (has_hashable_id item && is_ok (getitem item "categories"))%bool.

Definition summary_item (item : value) : bool :=
  (has_hashable_id item && is_ok (getitem item "summary")
   && negb (is_ok (getitem item "categories")))%bool.

Definition thread_item (sublist : value) : bool :=
  match sublist with
  | VList tweets =>
      (forallb is_dict tweets &&
       match tweets with
       | [] => true
       | first :: _ => has_hashable_id first
       end)%bool
  | _ => false
  end.

(** The identifier of a thread: [thread[0]['id']]. *)
Definition thread_root (thread : value) : result value :=
  first ← getitem_0 thread;
  getitem first "id".

(** The identifier a tweet embeds, when its embed descriptor has the type
    [embed]. *)
Definition embed_target (tweet : value) : result (option value) :=
  metadata ← get tweet "metadata" (VDict []);
  embed ← get metadata "embed" (VDict []);
  ty ← get embed "type" VNone;
  if is_str "embed" ty then t ← getitem embed "id"; Ok (Some t) else Ok None.

(** The edge a tweet of [thread] contributes: from the embedded identifier
    to the identifier of the thread. *)
Definition edge_of (thread tweet : value) : list (value * value) :=
  match embed_target tweet, thread_root thread with
  | Ok (Some target), Ok parent_id => [(target, parent_id)]
  | _, _ => []
  end.

Definition edges_of_thread (thread : value) : list (value * value) :=
  match iter thread with
  | Ok tweets => flat_map (edge_of thread) tweets
  | Raise _ => []
  end.

(** All edges, in the order the first loop meets them. *)
Definition edges (threads_data : pydict value) : list (value * value) :=
  flat_map edges_of_thread (dict_values threads_data).

(** The sources of the edges that point to [k], in order, repeated as
    often as they occur. *)
Definition referencing (k : key) (es : list (value * value)) : list value :=
  map snd (List.filter (fun e => value_eq_key (fst e) k) es).

(** The parsed stat [k] of one tweet, as the aggregation loop computes it:
    [parse_stat(tweet.get("stats", {}).get(k, 0))]. *)
Definition tweet_stat (k : stat_key) (tweet : value) : result Z :=
  st ← get tweet "stats" (VDict []);
  raw ← get st (stat_name k) (VInt 0);
  parse_stat raw.

Definition stat_value (k : stat_key) (tweet : value) : Z :=
  match tweet_stat k tweet with
  | Ok n => n
  | Raise _ => 0
  end.

(** All four stats of the tweet parse. *)
Definition tweet_parses (tweet : value) : bool :=
  forallb (fun k => is_ok (tweet_stat k tweet)) stat_keys.

(** The sum, from [start], of the parsed stat [k] over the tweets. *)
Definition stat_sum_from (start : Z) (k : stat_key) (tweets : list value) : Z :=
  fold_left Z.add (map (stat_value k) tweets) start.

Definition stat_sum (k : stat_key) (tweets : list value) : Z :=
  stat_sum_from 0 k tweets.

Definition stats_sum_from (start : stats) (tweets : list value) : stats :=
  Stats (stat_sum_from (replies start) Replies tweets)
        (stat_sum_from (likes start) Likes tweets)
        (stat_sum_from (bookmarks start) Bookmarks tweets)
        (stat_sum_from (views start) Views tweets).

(** The embed descriptor of the tweet, if it has the type [embed], names
    a hashable identifier, and the thread has an identifier. *)
Definition tweet_embed_ok (thread tweet : value) : bool :=
  match embed_target tweet with
  | Ok None => true
  | Ok (Some target) => (is_ok (to_key target) && is_ok (thread_root thread))%bool
  | Raise _ => false
  end.

(** A well-formed thread: a list of tweets whose embed descriptors can be
    recorded and whose stats parse. *)
Definition thread_ok (thread : value) : bool :=
  match thread with
  | VList tweets =>
      (forallb (tweet_embed_ok thread) tweets && forallb tweet_parses tweets)%bool
  | _ => false
  end.

(** ** Sample inputs *)

(** A tweet object: an identifier, raw stats and, possibly, an embedded
    reference to [target]. *)
Definition tweet_of (id : string) (raw_stats : list (string * value))
    (target : option string) : value :=
  VDict ([("id", VStr id); ("stats", VDict raw_stats)] ++
         match target with
         | Some t =>
             [("metadata", VDict [("embed", VDict [("type", VStr "embed"); ("id", VStr t)])])]
         | None => []
         end)%list.

(** One thread whose only tweet has a like count that is no number. *)
Definition noisy_threads : pydict value :=
  [(KStr "1", VList [tweet_of "1" [("replies", VStr "7"); ("likes", VStr "abc")] None])].

(** A category file with one comma-joined entry and one split entry. *)
Definition sample_categories : list value :=
  [VDict [("id", VStr "1"); ("categories", VStr "a, b")];
   VDict [("id", VStr "2"); ("categories", VList [VStr "a"; VStr "b"])]].

Definition sample_summaries : list value :=
  [VDict [("id", VStr "1"); ("summary", VStr "first thread")]].

(** A thread file: a thread of three tweets, the first embedding its own
    thread and the other two embedding thread 9; an empty inner list; the
    one-tweet thread 9. *)
Definition sample_threads : list value :=
  [VList [tweet_of "1" [("replies", VInt 1); ("likes", VStr "1.5K")] (Some "1");
          tweet_of "2" [("replies", VStr "2")] (Some "9");
          tweet_of "3" [("replies", VStr "3")] (Some "9")];
   VList [];
   VList [tweet_of "9" [] None]].

(** A category file whose only element has no identifier. *)
Definition sample_without_id : list value :=
  [VDict [("categories", VStr "a")]].

(** The thread mapping loaded from [sample_threads] and its relation map. *)
Definition sample_threads_data : pydict value :=
  match read_json (VList sample_threads) with
  | Ok d => d
  | Raise _ => []
  end.

Definition sample_relations : pydict (list value) :=
  match resolve_relations sample_threads_data with
  | Ok r => r
  | Raise _ => []
  end.

(** Three tweets with the reply counts 1, 2 and 3. *)
Definition reply_1 : value := tweet_of "1" [("replies", VInt 1)] None.
Definition reply_2 : value := tweet_of "2" [("replies", VStr "2")] None.
Definition reply_3 : value := tweet_of "3" [("replies", VStr "3")] None.

(** Identifier sets for the Integrity Verifier. *)
Definition ids_123 : gset string := {[ "1"; "2"; "3" ]}.
Definition ids_13 : gset string := {[ "1"; "3" ]}.
Definition ids_2 : gset string := {[ "2" ]}.

(** ** The rest of the scripts *)

(** [create_graph.main] between the three [json.load] and [json.dump]:
    the three documents are loaded in this order and joined.  (The name
    [main] is taken by the main function of [integrity_check.py].) *)
Definition create_graph_main (tweets tweets_summary tweets_map : value)
  : result (list graph_node) :=
  threads_data ← read_json tweets;
  summaries ← read_json tweets_summary;
  categories ← read_json tweets_map;
  process_threads threads_data summaries categories.

(** *** [add_author.py]: [add_author_to_tweets]

    The function mutates the decoded document in place and writes it
    back; the embedding returns the document after the mutation.  The
    decoded document is a tree (no object occurs twice in it), so a
    mutated object is seen at its own place only. *)

(** Assignment to a field of a decoded object: the value of a field that
    exists is replaced where it is, a new field goes last. *)
Fixpoint obj_set (d : list (string * value)) (name : string) (x : value)
  : list (string * value) :=
  match d with
  | [] => [(name, x)]
  | (k, v) :: d' =>
      if String.eqb k name then (k, x) :: d' else (k, v) :: obj_set d' name x
  end.

(** [v[name] = x] for a string subscript: only objects accept it. *)
Definition setitem (v : value) (name : string) (x : value) : result value :=
  match v with
  | VDict d => Ok (VDict (obj_set d name x))
  | _ => Raise TypeError
  end.

Definition default_author : value := VStr "https://x.com/Recuenco".

(** The body of the inner loop:
    [if 'author' not in tweet: tweet['author'] = 'https://x.com/Recuenco']. *)
Definition add_author_tweet (tweet : value) : result value :=
  has_author ← contains "author" tweet;
  if (has_author : bool) then Ok tweet
  else setitem tweet "author" default_author.

(** The results of [body] on the elements, in order; the first exception
    ends the loop. *)
Definition collect {A B : Type} (body : A -> result B) (l : list A) : result (list B) :=
  for_each (fun (acc : list B) (x : A) => body x ≫= fun y => Ok (acc ++ [y])%list) l [].

(** A [for] loop over [v] whose body may mutate the element it visits.  A
    list holds the mutated elements afterwards.  The keys of an object and
    the characters of a string are strings, which nothing mutates: the
    loop leaves such a [v] as it is. *)
Definition visit (body : value -> result value) (v : value) : result value :=
  elements ← iter v;
  elements' ← collect body elements;
  Ok (match v with
      | VList _ => VList elements'
      | _ => v
      end).

Definition add_author_thread (thread : value) : result value :=
  visit add_author_tweet thread.

Definition add_author_to_tweets (tweets : value) : result value :=
  visit add_author_thread tweets.

(** The tweet with the default author appended when it is an object
    without an [author] field. *)
Definition with_author (tweet : value) : value :=
  match tweet with
  | VDict d =>
      match obj_get d "author" with
      | Some _ => tweet
      | None => VDict (d ++ [("author", default_author)])
      end
  | _ => tweet
  end.

(** [f] applied to every tweet of every thread of a thread file; what is
    no list is left as it is. *)
Definition map_tweets (f : value -> value) (tweets : value) : value :=
  match tweets with
  | VList threads =>
      VList (map (fun thread =>
                    match thread with
                    | VList l => VList (map f l)
                    | _ => thread
                    end)
                 threads)
  | _ => tweets
  end.

(** A tweet and the same tweet with the default author appended. *)
Definition author_added (tweet tweet' : value) : Prop :=
  tweet' = tweet \/
  exists d, tweet = VDict d /\ obj_get d "author" = None /\
            tweet' = VDict (d ++ [("author", default_author)]).

(** Element-wise relation between a list value and its mutated form; any
    other value is left as it is. *)
Definition elementwise (R : value -> value -> Prop) (v v' : value) : Prop :=
  v' = v \/ exists l l', v = VList l /\ v' = VList l' /\ Forall2 R l l'.

(** Two thread mappings with the same keys, in the same order, whose
    threads differ by appended authors at most. *)
Definition same_threads (td td' : pydict value) : Prop :=
  Forall2 (fun e e' => fst e' = fst e /\ elementwise author_added (snd e) (snd e')) td td'.

(** Two loads that raise the same exception or return such mappings. *)
Definition same_loaded (r r' : result (pydict value)) : Prop :=
  match r, r' with
  | Ok td, Ok td' => same_threads td td'
  | Raise e, Raise e' => e = e'
  | _, _ => False
  end.

(** A thread file whose inner lists hold tweet objects only. *)
Definition tweets_are_objects (thread : value) : bool :=
  match thread with
  | VList tweets => forallb is_dict tweets
  | _ => false
  end.

(** *** [integrity_check.py]: the readers and [main]

    A Python set holds hashable values up to [==]; the embedding keeps
    the representative [key_norm] of each element, so that [True] and [1]
    are one element. *)

#[global] Instance key_eq_dec : EqDecision key.
Proof. solve_decision. Defined.

#[global] Instance key_countable : Countable key :=
  inj_countable'
    (fun k => match k with
              | KNone => inl tt
              | KBool b => inr (inl b)
              | KInt n => inr (inr (inl n))
              | KStr s => inr (inr (inr s))
              end)
    (fun x => match x with
              | inl _ => KNone
              | inr (inl b) => KBool b
              | inr (inr (inl n)) => KInt n
              | inr (inr (inr s)) => KStr s
              end)
    (fun k => match k with
              | KNone | KBool _ | KInt _ | KStr _ => eq_refl
              end).

(** [ids.add(entry['id'])] *)
Definition add_id (ids : gset key) (entry : value) : result (gset key) :=
  id ← getitem entry "id";
  k ← to_key id;
  Ok (ids ∪ {[ key_norm k ]}).

(** [read_json_ids], from the decoded document. *)
Definition read_json_ids (data : value) : result (gset key) :=
  entries ← iter data;
  for_each add_id entries ∅.

(** [read_csv_ids], from the rows [csv.DictReader] yields: each row is a
    dictionary, here with the fields that have a name. *)
Definition read_csv_ids (rows : list (list (string * value))) : result (gset key) :=
  for_each add_id (map VDict rows) ∅.

(** [integrity_check.main] from the rows of the CSV file and the three
    decoded documents: the four sets are read in the order of the
    dictionary display, then compared. *)
Definition integrity_check_main (turras : list (list (string * value)))
    (tweets_exam tweets_map tweets_summary : value) : result (list report_line) :=
  a ← read_csv_ids turras;
  b ← read_json_ids tweets_exam;
  c ← read_json_ids tweets_map;
  d ← read_json_ids tweets_summary;
  main a b c d.

(** The identifiers of the entries, as the readers store them. *)
Definition entry_id (entry : value) : result key :=
  id ← getitem entry "id";
  k ← to_key id;
  Ok (key_norm k).

(** A CSV file and a JSON file with the same identifier, a string in the
    first and a number in the second. *)
Definition csv_one : list (list (string * value)) := [[("id", VStr "1")]].
Definition json_one : value := VList [VDict [("id", VInt 1)]].
Definition json_one_str : value := VList [VDict [("id", VStr "1")]].

(** No two keys of the dictionary are equal. *)
Fixpoint keys_distinct {V : Type} (d : pydict V) : bool :=
  match d with
  | [] => true
  | (k, _) :: d' =>
      match dict_get d' k with
      | None => keys_distinct d'
      | Some _ => false
      end
  end.

(** A well-formed thread file entry: a list of tweet objects, with no
    integer beyond the digit limit (as in every document that [json.load]
    returns), that the loader and both loops of [process_threads]
    accept. *)
Definition thread_wf (sublist : value) : bool :=
  (thread_item sublist && thread_ok sublist && str_converts sublist)%bool.

(** A summary file in which the identifier 1 occurs twice. *)
Definition sample_duplicates : list value :=
  [VDict [("id", VStr "1"); ("summary", VStr "old")];
   VDict [("id", VStr "1"); ("summary", VStr "new")];
   VDict [("id", VStr "2"); ("summary", VStr "other")]].

(** * Properties *)

(** ** The result monad and loops *)

Ltac unfold_bind := unfold mbind, result_bind, mret, result_ret in *.

Lemma bind_ok_inv {A B : Type} (r : result A) (k : A -> result B) (b : B) :
  r ≫= k = Ok b -> exists a, r = Ok a /\ k a = Ok b.
Proof.
  unfold_bind. destruct r as [a|e]; intros Hk; [eauto | discriminate].
Qed.

Lemma bind_raise_inv {A B : Type} (r : result A) (k : A -> result B) (e : exn) :
  r ≫= k = Raise e -> r = Raise e \/ exists a, r = Ok a /\ k a = Raise e.
Proof.
  unfold_bind. destruct r as [a|e']; intros Hk; [right; eauto | left; congruence].
Qed.

Lemma for_each_app {A S : Type} (body : S -> A -> result S) (l1 l2 : list A) (s : S) :
  for_each body (l1 ++ l2)%list s = for_each body l1 s ≫= for_each body l2.
Proof.
  revert s. induction l1 as [|x l1 IH]; intros s; simpl; [reflexivity|].
  unfold_bind. destruct (body s x); [apply IH | reflexivity].
Qed.

(** A loop only raises what its body raised on some element. *)
Lemma for_each_raise {A S : Type} (body : S -> A -> result S) (l : list A) (s : S) (e : exn) :
  for_each body l s = Raise e -> exists s' x, In x l /\ body s' x = Raise e.
Proof.
  revert s. induction l as [|x l IH]; intros s; simpl; [discriminate|].
  intros Hr. apply bind_raise_inv in Hr as [Hr | (s1 & _ & Hr)].
  - exists s, x. auto.
  - destruct (IH _ Hr) as (s' & y & Hin & Hy). exists s', y. auto.
Qed.

(** A body that fails on some element whatever the accumulator makes the
    loop fail. *)
Lemma for_each_fails {A S : Type} (body : S -> A -> result S) (l : list A) (x : A) :
  In x l -> (forall s, is_ok (body s x) = false) ->
  forall s, is_ok (for_each body l s) = false.
Proof.
  intros Hin Hx. induction l as [|y l IH]; intros s; [destruct Hin|].
  simpl. destruct Hin as [-> | Hin].
  - specialize (Hx s). unfold_bind. destruct (body s x); [discriminate | reflexivity].
  - unfold_bind. destruct (body s y); [apply IH, Hin | reflexivity].
Qed.

(** ** Strings *)

Lemma chars_text (l : list ascii) : chars (text l) = l.
Proof. apply list_ascii_of_string_of_list_ascii. Qed.

Lemma text_chars (s : string) : text (chars s) = s.
Proof. apply string_of_list_ascii_of_string. Qed.

Lemma filter_keeps_all {A : Type} (f : A -> bool) (l : list A) :
  forallb f l = true -> List.filter f l = l.
Proof.
  induction l as [|x l IH]; simpl; [reflexivity|].
  intros Hf. apply andb_prop in Hf as [Hx Hl]. rewrite Hx, (IH Hl). reflexivity.
Qed.

Lemma existsb_none {A : Type} (f : A -> bool) (l : list A) :
  forallb (fun x => negb (f x)) l = true -> existsb f l = false.
Proof.
  induction l as [|x l IH]; simpl; [reflexivity|].
  intros Hf. apply andb_prop in Hf as [Hx Hl].
  apply negb_true_iff in Hx. rewrite Hx, (IH Hl). reflexivity.
Qed.

(** The three tests [parse_stat] makes on a text whose body [p] is free of
    the letter [m]: the letter is found exactly when it is the last
    character, and removing it leaves the body. *)
Lemma has_char_last (m c : ascii) (p : list ascii) :
  forallb (fun x => negb (Ascii.eqb m x)) p = true ->
  has_char m (text (p ++ [c])) = Ascii.eqb m c.
Proof.
  intros Hp. unfold has_char. rewrite chars_text, existsb_app, (existsb_none _ _ Hp).
  simpl. apply orb_false_r.
Qed.

Lemma remove_char_last (m : ascii) (p : list ascii) :
  forallb (fun x => negb (Ascii.eqb m x)) p = true ->
  remove_char m (text (p ++ [m])) = text p.
Proof.
  intros Hp. unfold remove_char.
  rewrite chars_text, List.filter_app, (filter_keeps_all _ _ Hp).
  simpl. rewrite Ascii.eqb_refl. simpl. rewrite app_nil_r. reflexivity.
Qed.

Lemma ends_with_last (m c : ascii) (p : list ascii) :
  ends_with m (text (p ++ [c])) = if Ascii.eqb m c then Some (text p) else None.
Proof.
  unfold ends_with. rewrite chars_text, rev_unit, rev_involutive. reflexivity.
Qed.

(** ** The Stat Parser *)

(** *** What [int] accepts *)

Lemma lstrip_In (c : ascii) (l : list ascii) :
  In c l -> is_space c = false -> In c (lstrip l).
Proof.
  intros Hin Hc. induction l as [|x l IH]; [destruct Hin|].
  simpl. destruct (is_space x) eqn:Hx; [|exact Hin].
  destruct Hin as [-> | Hin]; [congruence | auto].
Qed.

Lemma strip_In (c : ascii) (l : list ascii) :
  In c l -> is_space c = false -> In c (strip l).
Proof.
  intros Hin Hc. unfold strip.
  apply in_rev. rewrite rev_involutive.
  apply lstrip_In; [|exact Hc]. apply in_rev. rewrite rev_involutive.
  apply lstrip_In; assumption.
Qed.

Lemma take_sign_In (c : ascii) (l : list ascii) :
  In c l -> Ascii.eqb c "+" = false -> Ascii.eqb c "-" = false ->
  In c (snd (take_sign l)).
Proof.
  intros Hin Hp Hm. unfold take_sign.
  destruct l as [|x l]; [destruct Hin|].
  destruct (Ascii.eqb x "+") eqn:E1; [apply Ascii.eqb_eq in E1; subst x|];
    [|destruct (Ascii.eqb x "-") eqn:E2; [apply Ascii.eqb_eq in E2; subst x|]].
  - simpl. destruct Hin as [<- | Hin]; [discriminate | exact Hin].
  - simpl. destruct Hin as [<- | Hin]; [discriminate | exact Hin].
  - assert (Hx : snd (take_sign (x :: l)) = x :: l).
    { unfold take_sign.
      destruct x as [[] [] [] [] [] [] [] []]; try reflexivity; discriminate. }
    unfold take_sign in Hx. rewrite Hx. exact Hin.
Qed.

Lemma drop_underscores_In (c : ascii) (l l' : list ascii) (prev : option ascii) :
  drop_underscores prev l = Some l' -> In c l -> Ascii.eqb c "_" = false -> In c l'.
Proof.
  revert prev l'. induction l as [|x l IH]; intros prev l' Hd Hin Hc; [destruct Hin|].
  simpl in Hd. destruct (Ascii.eqb x "_") eqn:Hx.
  - destruct Hin as [-> | Hin]; [congruence|].
    destruct prev as [p|]; [|discriminate].
    destruct (is_digit p); [|discriminate]. eapply IH; eauto.
  - assert (Hd' : option_map (cons x) (drop_underscores (Some x) l) = Some l').
    { destruct prev as [p|]; [|exact Hd].
      destruct (Ascii.eqb p "_") eqn:Hp.
      - apply Ascii.eqb_eq in Hp. subst p. destruct (is_digit x); [exact Hd | discriminate].
      - destruct p as [[] [] [] [] [] [] [] []]; try exact Hd; discriminate. }
    destruct (drop_underscores (Some x) l) as [r|] eqn:Hr; [|discriminate].
    simpl in Hd'. injection Hd' as <-.
    destruct Hin as [-> | Hin]; [left; reflexivity | right; eapply IH; eauto].
Qed.

(** A text with a character that is neither a digit, white space, a sign
    nor an underscore is not an integer numeral. *)
Lemma py_int_rejects (s : string) (c : ascii) :
  In c (chars s) ->
  is_digit c = false -> is_space c = false -> Ascii.eqb c "+" = false ->
  Ascii.eqb c "-" = false -> Ascii.eqb c "_" = false ->
  py_int s = Raise ValueError.
Proof.
  intros Hin Hd Hs Hp Hm Hu. unfold py_int.
  pose proof (take_sign_In c _ (strip_In c _ Hin Hs) Hp Hm) as Hbody.
  destruct (take_sign (strip (chars s))) as [neg body]. simpl in Hbody.
  destruct (drop_underscores None body) as [l'|] eqn:Hl'; [|reflexivity].
  pose proof (drop_underscores_In c _ _ _ Hl' Hbody Hu) as Hc.
  destruct l' as [|d ds]; [reflexivity|].
  destruct (forallb is_digit (d :: ds)) eqn:Hall; [|reflexivity].
  rewrite forallb_forall in Hall. rewrite (Hall c Hc) in Hd. discriminate.
Qed.

(** *** What [float] accepts *)

Lemma span_digits_spec (l ds r : list ascii) :
  span_digits l = (ds, r) -> l = (ds ++ r)%list /\ forallb is_digit ds = true.
Proof.
  revert ds r. induction l as [|c l IH]; intros ds r; simpl.
  - intros Hs. injection Hs as <- <-. auto.
  - destruct (is_digit c) eqn:Hc.
    + destruct (span_digits l) as [ds' r'] eqn:Hs'. intros Hs. injection Hs as <- <-.
      destruct (IH _ _ eq_refl) as [-> Hd]. simpl. rewrite Hc. auto.
    + intros Hs. injection Hs as <- <-. auto.
Qed.

Lemma take_sign_spec (l body : list ascii) (neg : bool) :
  take_sign l = (neg, body) ->
  l = body \/ l = ("-"%char :: body)%list \/ l = ("+"%char :: body)%list.
Proof.
  unfold take_sign. destruct l as [|x l]; [intros Hs; injection Hs as <- <-; auto|].
  destruct x as [[] [] [] [] [] [] [] []]; intros Hs; injection Hs as <- <-; auto.
Qed.

Lemma digit_float_char (c : ascii) : is_digit c = true -> float_char c = true.
Proof. intros Hc. unfold float_char, numeric_char. cbv zeta. rewrite Hc. reflexivity. Qed.

Lemma sign_float_char (c : ascii) :
  (c = "+" \/ c = "-" \/ c = ".")%char -> float_char c = true.
Proof. intros [-> | [-> | ->]]; reflexivity. Qed.

Lemma letter_float_char (c : ascii) :
  existsb (Ascii.eqb (lower c)) (chars "einfaty") = true -> float_char c = true.
Proof.
  intros Hc. unfold float_char. rewrite Hc.
  rewrite orb_true_r. reflexivity.
Qed.

(** The characters of a decimal numeral. *)
Lemma parse_decimal_chars (body : list ascii) (m e : Z) (c : ascii) :
  parse_decimal body = Some (m, e) -> In c body -> float_char c = true.
Proof.
  unfold parse_decimal.
  destruct (span_digits body) as [ip r1] eqn:H1.
  apply span_digits_spec in H1 as [-> Hip].
  destruct (match r1 with
            | "."%char :: r => span_digits r
            | _ => ([], r1)
            end) as [fp r2] eqn:Hfr.
  assert (Hr1 : forallb is_digit fp = true /\
                (r1 = r2 \/ r1 = ("."%char :: fp ++ r2)%list)).
  { destruct r1 as [|x r]; [injection Hfr as <- <-; auto|].
    destruct (Ascii.eqb x ".") eqn:Hx.
    - apply Ascii.eqb_eq in Hx. subst x.
      apply span_digits_spec in Hfr as [-> Hfp]. auto.
    - destruct x as [[] [] [] [] [] [] [] []]; try discriminate Hx;
        injection Hfr as <- <-; auto. }
  clear Hfr. destruct Hr1 as [Hfp Hr1].
  destruct (ip ++ fp)%list as [|d0 ds0]; [discriminate|].
  assert (Hdigits : forall y l, forallb is_digit l = true -> In y l -> float_char y = true).
  { intros y l Hl Hy. apply digit_float_char. rewrite forallb_forall in Hl. auto. }
  assert (Htail : (forall x, In x r2 -> float_char x = true) -> In c (ip ++ r1) ->
                  float_char c = true).
  { intros Hr2 Hin. apply in_app_or in Hin as [Hin | Hin]; [eauto|].
    destruct Hr1 as [-> | ->]; [auto|].
    destruct Hin as [<- | Hin]; [reflexivity|].
    apply in_app_or in Hin as [Hin | Hin]; eauto. }
  destruct r2 as [|x r3].
  - intros _. apply Htail. intros x [].
  - destruct (Ascii.eqb (lower x) "e") eqn:Hx; [|discriminate].
    destruct (take_sign r3) as [eneg ds] eqn:Hts.
    destruct ds as [|d1 ds1]; [discriminate|].
    destruct (forallb is_digit (d1 :: ds1)) eqn:Hds; [|discriminate].
    intros _. apply Htail. intros y [<- | Hy].
    + apply letter_float_char. apply Ascii.eqb_eq in Hx. rewrite Hx. reflexivity.
    + apply take_sign_spec in Hts as [-> | [-> | ->]].
      * eauto.
      * destruct Hy as [<- | Hy]; [reflexivity | eauto].
      * destruct Hy as [<- | Hy]; [reflexivity | eauto].
Qed.

(** The characters of [inf], [infinity] and [nan]. *)
Lemma parse_inf_or_nan_chars (neg : bool) (body : list ascii) (x : spec_float) (c : ascii) :
  parse_inf_or_nan neg body = Some x -> In c body -> float_char c = true.
Proof.
  unfold parse_inf_or_nan. intros Hp Hin.
  assert (Hw : forall w : string,
             text (map lower body) = w ->
             forallb (fun y => existsb (Ascii.eqb y) (chars "einfaty")) (chars w) = true ->
             float_char c = true).
  { intros w Hw Hall. apply (f_equal chars) in Hw. rewrite chars_text in Hw.
    assert (Hl : In (lower c) (chars w)) by (rewrite <- Hw; apply in_map; exact Hin).
    rewrite forallb_forall in Hall. apply letter_float_char.
    pose proof (Hall _ Hl) as Hc. simpl in Hc. exact Hc. }
  destruct (String.eqb (text (map lower body)) "inf") eqn:H1.
  { apply String.eqb_eq in H1. apply (Hw _ H1). reflexivity. }
  destruct (String.eqb (text (map lower body)) "infinity") eqn:H2.
  { apply String.eqb_eq in H2. apply (Hw _ H2). reflexivity. }
  destruct (String.eqb (text (map lower body)) "nan") eqn:H3.
  { apply String.eqb_eq in H3. apply (Hw _ H3). reflexivity. }
  simpl in Hp. discriminate.
Qed.

(** A text with a character foreign to float numerals is no float. *)
Lemma py_float_rejects (s : string) (c : ascii) :
  In c (chars s) -> float_char c = false -> py_float s = Raise ValueError.
Proof.
  intros Hin Hc. unfold py_float.
  assert (Hparts : is_space c = false /\ Ascii.eqb c "_" = false /\
                   Ascii.eqb c "+" = false /\ Ascii.eqb c "-" = false).
  { unfold float_char, numeric_char in Hc. cbv zeta in Hc.
    repeat (apply orb_false_elim in Hc as [Hc ?]). auto. }
  destruct Hparts as (Hs & Hu & Hp & Hm).
  destruct (drop_underscores None (strip (chars s))) as [l|] eqn:Hl; [|reflexivity].
  pose proof (drop_underscores_In c _ _ _ Hl (strip_In c _ Hin Hs) Hu) as Hcl.
  pose proof (take_sign_In c _ Hcl Hp Hm) as Hbody.
  destruct (take_sign l) as [neg body]. simpl in Hbody.
  destruct (parse_inf_or_nan neg body) as [x|] eqn:Hinf.
  { rewrite (parse_inf_or_nan_chars _ _ _ _ Hinf Hbody) in Hc. discriminate. }
  destruct (parse_decimal body) as [[m e]|] eqn:Hdec; [|reflexivity].
  rewrite (parse_decimal_chars _ _ _ _ Hdec Hbody) in Hc. discriminate.
Qed.

(** *** Texts that are no numbers *)

Lemma has_char_remove (m c : ascii) (s : string) :
  has_char m s = false -> has_char m (remove_char c s) = false.
Proof.
  unfold has_char, remove_char. rewrite chars_text.
  induction (chars s) as [|x l IH]; simpl; [reflexivity|].
  intros Hx. apply orb_false_elim in Hx as [Hx Hl].
  destruct (negb (Ascii.eqb c x)); simpl; [rewrite Hx|]; auto.
Qed.

Lemma remove_char_In (c x : ascii) (s : string) :
  In x (chars s) -> Ascii.eqb x c = false -> In x (chars (remove_char c s)).
Proof.
  intros Hin Hx. unfold remove_char. rewrite chars_text.
  apply filter_In. split; [exact Hin|].
  rewrite Ascii.eqb_sym, Hx. reflexivity.
Qed.

(** A text that holds a character foreign to numerals, with or without a
    magnitude letter, is converted by neither [float] nor [int]. *)
Lemma parse_text_rejects (s : string) (c : ascii) :
  In c (chars s) -> float_char c = false -> parse_text s = Raise ValueError.
Proof.
  intros Hin Hc. pose proof Hc as Hparts.
  unfold float_char, numeric_char in Hparts. cbv zeta in Hparts.
  repeat (apply orb_false_elim in Hparts as [Hparts ?]).
  pose proof (remove_char_In "," c s Hin ltac:(assumption)) as Hin'.
  unfold parse_text. cbv zeta.
  destruct (has_char "K" (remove_char "," s)).
  { rewrite (py_float_rejects _ c); [reflexivity | | exact Hc].
    apply remove_char_In; assumption. }
  destruct (has_char "M" (remove_char "," s)).
  { rewrite (py_float_rejects _ c); [reflexivity | | exact Hc].
    apply remove_char_In; assumption. }
  destruct (String.eqb (remove_char "," s) "") eqn:He.
  - apply String.eqb_eq in He. rewrite He in Hin'. destruct Hin'.
  - apply (py_int_rejects _ c); assumption.
Qed.

(** *** Runs of digits *)

Ltac eval_digit :=
  unfold digit_val;
  match goal with
  | |- context [nat_of_ascii ?c] =>
      let v := eval vm_compute in (nat_of_ascii c) in change (nat_of_ascii c) with v
  end.

Lemma fold_digits_acc (d : Decimal.uint) (acc : positive) :
  fold_left (fun a c => 10 * a + digit_val c) (chars (NilEmpty.string_of_uint d)) (Zpos acc) =
  Zpos (Pos.of_uint_acc d acc).
Proof.
  revert acc. induction d; intros acc;
    cbn [NilEmpty.string_of_uint chars list_ascii_of_string fold_left Pos.of_uint_acc];
    try reflexivity; fold (chars (NilEmpty.string_of_uint d)); rewrite <- IHd; f_equal;
    eval_digit; lia.
Qed.

Lemma digits_val_uint (d : Decimal.uint) :
  digits_val (chars (NilEmpty.string_of_uint d)) = Z.of_N (Pos.of_uint d).
Proof.
  unfold digits_val. induction d;
    cbn [NilEmpty.string_of_uint chars list_ascii_of_string fold_left Pos.of_uint];
    try reflexivity; fold (chars (NilEmpty.string_of_uint d));
    match goal with
    | |- fold_left _ _ ?a = _ => let v := eval vm_compute in a in change a with v
    end;
    [exact IHd | apply fold_digits_acc ..].
Qed.

(** A digit is none of the characters the parsers treat specially. *)
Lemma digit_plain (c : ascii) :
  is_digit c = true ->
  is_space c = false /\ Ascii.eqb "," c = false /\ Ascii.eqb "K" c = false /\
  Ascii.eqb "M" c = false /\ Ascii.eqb c "_" = false /\
  take_sign [c] = (false, [c]) /\
  (forall (A : Type) (a b : A),
      match Some c with Some "_"%char => a | _ => b end = b).
Proof.
  destruct c as [[] [] [] [] [] [] [] []]; intros Hd; try discriminate Hd;
    repeat split; reflexivity.
Qed.

Lemma take_sign_digit (c : ascii) (l : list ascii) :
  is_digit c = true -> take_sign (c :: l) = (false, c :: l).
Proof.
  destruct c as [[] [] [] [] [] [] [] []]; intros Hd; try discriminate Hd; reflexivity.
Qed.

Lemma lstrip_id (l : list ascii) :
  forallb (fun c => negb (is_space c)) l = true -> lstrip l = l.
Proof.
  destruct l as [|c l]; simpl; [reflexivity|].
  intros Hl. apply andb_prop in Hl as [Hc _]. apply negb_true_iff in Hc.
  rewrite Hc. reflexivity.
Qed.

Lemma strip_id (l : list ascii) :
  forallb (fun c => negb (is_space c)) l = true -> strip l = l.
Proof.
  intros Hl. unfold strip. rewrite (lstrip_id _ Hl), lstrip_id, rev_involutive; [reflexivity|].
  rewrite forallb_forall in *. intros c Hc. apply Hl. apply in_rev. exact Hc.
Qed.

Lemma drop_underscores_digits (prev : option ascii) (ds : list ascii) :
  match prev with Some p => is_digit p = true | None => True end ->
  forallb is_digit ds = true ->
  drop_underscores prev ds = Some ds.
Proof.
  revert prev. induction ds as [|c ds IH]; intros prev Hprev Hds.
  - simpl. destruct prev as [p|]; [|reflexivity].
    destruct (digit_plain p Hprev) as (_ & _ & _ & _ & _ & _ & Hm). apply Hm.
  - simpl in Hds. apply andb_prop in Hds as [Hc Hds].
    destruct (digit_plain c Hc) as (_ & _ & _ & _ & Hu & _ & _).
    simpl. rewrite Hu. rewrite (IH (Some c) Hc Hds). simpl.
    destruct prev as [p|]; [|reflexivity].
    destruct (digit_plain p Hprev) as (_ & _ & _ & _ & _ & _ & Hm). apply Hm.
Qed.

Lemma digits_no_space (ds : list ascii) :
  forallb is_digit ds = true -> forallb (fun c => negb (is_space c)) ds = true.
Proof.
  intros Hds. rewrite forallb_forall in *. intros c Hc.
  destruct (digit_plain c (Hds c Hc)) as (-> & _). reflexivity.
Qed.

(** [int] reads a run of digits, with or without a minus sign, as its
    value when the run is within the limit, and raises otherwise. *)
Lemma py_int_digits (neg : bool) (d : ascii) (ds : list ascii) :
  forallb is_digit (d :: ds) = true ->
  py_int (text ((if neg then ["-"%char] else []) ++ d :: ds)) =
  if Nat.leb (length (d :: ds)) int_max_str_digits
  then Ok (if neg then - digits_val (d :: ds) else digits_val (d :: ds))
  else Raise ValueError.
Proof.
  intros Hds. unfold py_int. rewrite chars_text.
  pose proof (digits_no_space _ Hds) as Hns.
  assert (Hd : is_digit d = true) by (simpl in Hds; apply andb_prop in Hds as [-> _]; reflexivity).
  destruct neg.
  - rewrite strip_id by (simpl in *; exact Hns).
    cbn [app take_sign].
    change (take_sign ("-"%char :: d :: ds)) with (true, d :: ds).
    rewrite (drop_underscores_digits None _ I Hds), Hds. reflexivity.
  - rewrite strip_id by exact Hns. cbn [app].
    rewrite (take_sign_digit _ _ Hd).
    rewrite (drop_underscores_digits None _ I Hds), Hds. reflexivity.
Qed.

(** The tests [parse_stat] makes before parsing find nothing in a run of
    digits behind an optional minus sign. *)
Lemma parse_text_digits (neg : bool) (d : ascii) (ds : list ascii) :
  forallb is_digit (d :: ds) = true ->
  parse_text (text ((if neg then ["-"%char] else []) ++ d :: ds)) =
  if Nat.leb (length (d :: ds)) int_max_str_digits
  then Ok (if neg then - digits_val (d :: ds) else digits_val (d :: ds))
  else Raise ValueError.
Proof.
  intros Hds. unfold parse_text. cbv zeta.
  set (l := ((if neg then ["-"%char] else []) ++ d :: ds)%list).
  assert (Hplain : forall m : ascii,
             (m = "," \/ m = "K" \/ m = "M")%char ->
             forallb (fun x => negb (Ascii.eqb m x)) l = true).
  { intros m Hm. subst l. rewrite forallb_app. apply andb_true_intro. split.
    - destruct neg; [|reflexivity]. destruct Hm as [-> | [-> | ->]]; reflexivity.
    - rewrite forallb_forall in *. intros c Hc.
      destruct (digit_plain c (Hds c Hc)) as (_ & H1 & H2 & H3 & _).
      destruct Hm as [-> | [-> | ->]]; rewrite ?H1, ?H2, ?H3; reflexivity. }
  assert (Hrem : remove_char "," (text l) = text l).
  { unfold remove_char. rewrite chars_text, filter_keeps_all; [reflexivity|].
    apply Hplain. auto. }
  rewrite Hrem. unfold has_char. rewrite chars_text.
  rewrite !existsb_none by (apply Hplain; auto).
  assert (Hne : String.eqb (text l) "" = false).
  { subst l. destruct neg; reflexivity. }
  rewrite Hne. subst l. apply py_int_digits. exact Hds.
Qed.

Lemma uint_chars_digits (d : Decimal.uint) :
  forallb is_digit (chars (NilEmpty.string_of_uint d)) = true.
Proof.
  induction d; cbn [NilEmpty.string_of_uint chars list_ascii_of_string forallb];
    try reflexivity; fold (chars (NilEmpty.string_of_uint d)); rewrite IHd; reflexivity.
Qed.

(** The decimal text of a natural number: a non-empty run of digits whose
    value is the number. *)
Lemma nilzero_chars (d : Decimal.uint) :
  exists c cs,
    NilZero.string_of_uint d = text (c :: cs) /\
    forallb is_digit (c :: cs) = true /\
    digits_val (c :: cs) = Z.of_N (Pos.of_uint d).
Proof.
  assert (Hgen : forall d', chars (NilEmpty.string_of_uint d') <> [] ->
            exists c cs, NilEmpty.string_of_uint d' = text (c :: cs) /\
              forallb is_digit (c :: cs) = true /\
              digits_val (c :: cs) = Z.of_N (Pos.of_uint d')).
  { intros d' Hne. pose proof (uint_chars_digits d') as Hd.
    pose proof (digits_val_uint d') as Hv.
    pose proof (text_chars (NilEmpty.string_of_uint d')) as Ht.
    destruct (chars (NilEmpty.string_of_uint d')) as [|c cs]; [destruct (Hne eq_refl)|].
    exists c, cs. auto. }
  destruct d; try (apply Hgen; discriminate).
  exists "0"%char, []. repeat split; reflexivity.
Qed.

Lemma length_text (l : list ascii) : String.length (text l) = length l.
Proof. induction l as [|c l IH]; simpl; [reflexivity | rewrite IH; reflexivity]. Qed.

(** The text of an integer: a minus sign when it is negative, then the
    digits of its absolute value. *)
Lemma str_of_Z_chars (n : Z) :
  exists c cs,
    str_of_Z n = text ((if n <? 0 then ["-"%char] else []) ++ c :: cs) /\
    forallb is_digit (c :: cs) = true /\
    digits_val (c :: cs) = Z.abs n /\
    length (c :: cs) = int_digits n.
Proof.
  unfold int_digits, str_of_Z.
  destruct n as [|p|p].
  - exists "0"%char, []. repeat split; reflexivity.
  - destruct (nilzero_chars (Pos.to_uint p)) as (c & cs & Hs & Hd & Hv).
    exists c, cs. change (Z.abs (Z.pos p)) with (Z.pos p).
    change (NilZero.string_of_int (Z.to_int (Z.pos p)))
      with (NilZero.string_of_uint (Pos.to_uint p)).
    rewrite Hs, Hv, Unsigned.of_to, length_text. repeat split; auto.
  - destruct (nilzero_chars (Pos.to_uint p)) as (c & cs & Hs & Hd & Hv).
    exists c, cs. change (Z.abs (Z.neg p)) with (Z.pos p).
    change (NilZero.string_of_int (Z.to_int (Z.neg p)))
      with (String "-" (NilZero.string_of_uint (Pos.to_uint p))).
    change (NilZero.string_of_int (Z.to_int (Z.pos p)))
      with (NilZero.string_of_uint (Pos.to_uint p)).
    rewrite Hs, Hv, Unsigned.of_to, length_text. repeat split; auto.
Qed.

(** [parse_stat] on an integer: within the limit [str] writes the digits
    and [int] reads them back; beyond it [str] raises. *)
Lemma parse_text_of_int (n : Z) :
  parse_text (str_of_Z n) =
  if Nat.leb (int_digits n) int_max_str_digits then Ok n else Raise ValueError.
Proof.
  destruct (str_of_Z_chars n) as (c & cs & -> & Hd & Hv & <-).
  rewrite (parse_text_digits _ _ _ Hd), Hv.
  destruct (Nat.leb (length (c :: cs)) int_max_str_digits); [|reflexivity].
  f_equal. destruct (Z.ltb_spec n 0); lia.
Qed.

(** *** The text of the argument *)

Lemma parse_stat_str (v : value) : parse_stat v = str v ≫= parse_text.
Proof. reflexivity. Qed.

(** Where [str] raises for an integer beyond the limit, the rest of the
    parser would raise the same exception on the text: [parse_stat] is
    what it does with the text of its argument. *)
Lemma parse_stat_text (v : value) : parse_stat v = parse_text (py_str v).
Proof.
  rewrite parse_stat_str. unfold str.
  destruct (str_converts v) eqn:Hc; [reflexivity|]. unfold_bind. symmetry.
  destruct v as [| |n|s|l|d]; try discriminate Hc.
  - cbn [py_str repr]. rewrite parse_text_of_int.
    cbn [str_converts] in Hc. rewrite Hc. reflexivity.
  - apply (parse_text_rejects _ "["%char); [left; reflexivity | reflexivity].
  - apply (parse_text_rejects _ "{"%char); [left; reflexivity | reflexivity].
Qed.

(** On a text where [K] and [M] occur at most as the last character, the
    code computes what the worded contract describes. *)
Lemma parse_stat_meets_spec (v : value) :
  magnitude_only_last (remove_char "," (py_str v)) = true ->
  parse_stat v = parse_stat_spec v.
Proof.
  rewrite parse_stat_text. unfold parse_text, parse_stat_spec.
  generalize (remove_char "," (py_str v)). intros s.
  rewrite <- (text_chars s). unfold magnitude_only_last. rewrite chars_text.
  induction (chars s) as [|c l _] using rev_ind; [reflexivity|].
  rewrite removelast_last. intros Hp.
  assert (HK : forallb (fun x => negb (Ascii.eqb "K" x)) l = true).
  { rewrite forallb_forall in *. intros x Hx. specialize (Hp x Hx).
    apply negb_true_iff, orb_false_elim in Hp as [-> _]. reflexivity. }
  assert (HM : forallb (fun x => negb (Ascii.eqb "M" x)) l = true).
  { rewrite forallb_forall in *. intros x Hx. specialize (Hp x Hx).
    apply negb_true_iff, orb_false_elim in Hp as [_ ->]. reflexivity. }
  rewrite !has_char_last, !ends_with_last by assumption.
  destruct (Ascii.eqb "K" c) eqn:EK.
  - apply Ascii.eqb_eq in EK. subst c. rewrite remove_char_last by assumption. reflexivity.
  - destruct (Ascii.eqb "M" c) eqn:EM; [|reflexivity].
    apply Ascii.eqb_eq in EM. subst c. rewrite remove_char_last by assumption. reflexivity.
Qed.

(** A text without [K] or [M] that holds a character foreign to integer
    numerals makes [parse_stat] raise [ValueError]. *)
Lemma parse_stat_unparseable (s : string) (c : ascii) :
  In c (chars s) -> numeric_char c = false ->
  has_char "K" s = false -> has_char "M" s = false ->
  parse_stat (VStr s) = Raise ValueError.
Proof.
  intros Hin Hc HK HM. unfold numeric_char in Hc. cbv zeta in Hc.
  repeat (apply orb_false_elim in Hc as [Hc ?]).
  rewrite parse_stat_text. unfold parse_text. simpl py_str.
  rewrite (has_char_remove _ _ _ HK), (has_char_remove _ _ _ HM).
  pose proof (remove_char_In "," c s Hin ltac:(assumption)) as Hin'.
  destruct (String.eqb (remove_char "," s) "") eqn:He.
  - apply String.eqb_eq in He. rewrite He in Hin'. destruct Hin'.
  - apply (py_int_rejects _ c); assumption.
Qed.

(** A text that holds a character foreign to numerals makes [parse_stat]
    raise [ValueError], whether it has a magnitude letter or not. *)
Lemma parse_stat_foreign (s : string) (c : ascii) :
  In c (chars s) -> float_char c = false -> parse_stat (VStr s) = Raise ValueError.
Proof. intros Hin Hc. rewrite parse_stat_text. exact (parse_text_rejects _ _ Hin Hc). Qed.

(** The text that is empty once the separators are gone is the one input
    the parser maps to 0 without parsing. *)
Lemma parse_stat_empty (v : value) :
  remove_char "," (py_str v) = "" -> parse_stat v = Ok 0.
Proof. intros He. rewrite parse_stat_text. unfold parse_text. rewrite He. reflexivity. Qed.

(** Every number the parser returns is the default for the empty text or
    what [float] and [int] made of the text: there is no other way out. *)
Lemma parse_stat_ok_inv (v : value) (n : Z) :
  parse_stat v = Ok n ->
  let value := remove_char "," (py_str v) in
  (has_char "K" value = true /\
   exists x, py_float (remove_char "K" value) = Ok x /\
             int_of_float (float_mul_int x 1000) = Ok n) \/
  (has_char "K" value = false /\ has_char "M" value = true /\
   exists x, py_float (remove_char "M" value) = Ok x /\
             int_of_float (float_mul_int x 1000000) = Ok n) \/
  (has_char "K" value = false /\ has_char "M" value = false /\
   (value = "" /\ n = 0 \/ value <> "" /\ py_int value = Ok n)).
Proof.
  rewrite parse_stat_text. unfold parse_text. cbv zeta.
  destruct (has_char "K" (remove_char "," (py_str v))).
  { intros Hr. apply bind_ok_inv in Hr as (x & Hx & Hr). left. eauto. }
  destruct (has_char "M" (remove_char "," (py_str v))).
  { intros Hr. apply bind_ok_inv in Hr as (x & Hx & Hr). right. left. eauto. }
  destruct (String.eqb_spec (remove_char "," (py_str v)) "") as [He | Hne].
  - intros Hr. injection Hr as <-. right. right. auto.
  - intros Hr. right. right. auto.
Qed.

(** ** The Thread Aggregator: failures *)

Lemma add_tweet_stats_fails (tweet st raw : value) (k : stat_key) (e : exn) :
  get tweet "stats" (VDict []) = Ok st ->
  get st (stat_name k) (VInt 0) = Ok raw ->
  parse_stat raw = Raise e ->
  forall total, is_ok (add_tweet_stats total tweet) = false.
Proof.
  intros Hst Hraw Hp total. unfold add_tweet_stats. rewrite Hst.
  destruct st as [| | | | |d]; try discriminate.
  simpl in Hraw. injection Hraw as Hraw.
  unfold_bind. simpl.
  destruct k; simpl in Hraw; rewrite ?Hraw, ?Hp;
    repeat match goal with
           | |- context [parse_stat ?x] =>
               lazymatch x with
               | raw => fail
               | _ => destruct (parse_stat x)
               end
           end; rewrite ?Hp; reflexivity.
Qed.

Lemma aggregate_fails (tweets : list value) (tweet st raw : value) (k : stat_key) (e : exn) :
  In tweet tweets ->
  get tweet "stats" (VDict []) = Ok st ->
  get st (stat_name k) (VInt 0) = Ok raw ->
  parse_stat raw = Raise e ->
  is_ok (aggregate (VList tweets)) = false.
Proof.
  intros Hin Hst Hraw Hp. unfold aggregate. simpl. unfold_bind.
  apply (for_each_fails _ _ tweet Hin).
  eapply add_tweet_stats_fails; eauto.
Qed.

(** A stat of one tweet that fails to parse makes [process_threads] raise:
    no graph is returned. *)
Lemma process_threads_fails (threads_data summaries categories : pydict value)
    (thread_id : key) (tweets : list value) (tweet st raw : value) (k : stat_key) (e : exn) :
  In (thread_id, VList tweets) threads_data ->
  In tweet tweets ->
  get tweet "stats" (VDict []) = Ok st ->
  get st (stat_name k) (VInt 0) = Ok raw ->
  parse_stat raw = Raise e ->
  is_ok (process_threads threads_data summaries categories) = false.
Proof.
  intros Hthread Hin Hst Hraw Hp. unfold process_threads. unfold_bind.
  destruct (resolve_relations threads_data) as [related|]; [|reflexivity].
  apply (for_each_fails _ _ _ Hthread). intros graph_data.
  unfold make_node.
  pose proof (aggregate_fails _ _ _ _ _ _ Hin Hst Hraw Hp) as Hagg.
  destruct (aggregate (VList tweets)); [discriminate | reflexivity].
Qed.

(** *** Sample values of the builtins and of the parser *)

(** The nearest binary64 number to one tenth, and a tie rounded to even. *)
Example py_float_one_tenth :
  py_float "0.1" = Ok (S754_finite false 7205759403792794 (-56)).
Proof. vm_compute. reflexivity. Qed.

Example py_float_tie_to_even :
  py_float "9007199254740993" = Ok (S754_finite false 4503599627370496 1).
Proof. vm_compute. reflexivity. Qed.

Example py_float_forms :
  map (fun s => is_ok (py_float s)) ["1.e5"; ".5"; "1_0.0_1"; "-iNf"; "nan"; " 7 "]
    = [true; true; true; true; true; true] /\
  map (fun s => is_ok (py_float s)) ["."; "1e"; "1_.5"; "0x10"; "1 e5"; ""]
    = [false; false; false; false; false; false].
Proof. split; vm_compute; reflexivity. Qed.

Example py_int_forms :
  map py_int [" 42 "; "+1"; "-007"; "1_000"] = [Ok 42; Ok 1; Ok (-7); Ok 1000] /\
  map (fun s => is_ok (py_int s)) ["1.5"; "1__0"; "_1"; "- 1"; ""; "12a"]
    = [false; false; false; false; false; false].
Proof. split; vm_compute; reflexivity. Qed.

(** The product is a binary64 product: 1.001 * 1000 lies just below 1001. *)
Example parse_stat_truncates_float_product :
  parse_stat (VStr "1.001K") = Ok 1000 /\ parse_stat (VStr "1.1M") = Ok 1100000.
Proof. split; vm_compute; reflexivity. Qed.

Example parse_stat_of_number :
  parse_stat (VInt 42) = Ok 42 /\ parse_stat (VInt 0) = Ok 0.
Proof. split; vm_compute; reflexivity. Qed.

(** Other ways to fail: an infinite product, a number that is no number. *)
Example parse_stat_other_failures :
  parse_stat (VStr "1e999K") = Raise OverflowError /\
  parse_stat (VStr "nanK") = Raise ValueError /\
  parse_stat (VStr "1.5") = Raise ValueError /\
  parse_stat VNone = Raise ValueError.
Proof. repeat split; vm_compute; reflexivity. Qed.

(** ** The Stat Parser: claims *)

(** C1, as stated, fails: the non-numeric text [abc] (no [K], no [M]) is
    not mapped to 0; [parse_stat] raises [ValueError], and so does
    [process_threads] on a thread that holds such a stat. *)
Lemma parse_stat_abc_raises :
  parse_stat (VStr "abc") = Raise ValueError /\
  process_threads noisy_threads [] [] = Raise ValueError.
Proof. split; vm_compute; reflexivity. Qed.

(** C1 (amended). The Stat Parser has no handler for malformed text.  It
    returns 0 by default only for a text that is empty once the separators
    are removed: every number it returns is that default or what [float]
    (with [K] or [M]) or [int] (without) made of the text.  A text that
    holds a character foreign to integer numerals and neither [K] nor [M]
    raises [ValueError], and so does a text that holds a character foreign
    to numerals of any kind, with or without [K] or [M].  An exception
    raised by the parser for any stat of any tweet is not caught:
    [process_threads] raises and returns no graph. *)
Theorem parse_stat_leniency_is_empty_text_only :
  (forall v : value, remove_char "," (py_str v) = "" -> parse_stat v = Ok 0) /\
  (forall (s : string) (c : ascii),
      In c (chars s) -> numeric_char c = false ->
      has_char "K" s = false -> has_char "M" s = false ->
      parse_stat (VStr s) = Raise ValueError) /\
  (forall (threads_data summaries categories : pydict value) (thread_id : key)
          (tweets : list value) (tweet st raw : value) (k : stat_key) (e : exn),
      In (thread_id, VList tweets) threads_data ->
      In tweet tweets ->
      get tweet "stats" (VDict []) = Ok st ->
      get st (stat_name k) (VInt 0) = Ok raw ->
      parse_stat raw = Raise e ->
      is_ok (process_threads threads_data summaries categories) = false) /\
  (forall (s : string) (c : ascii),
      In c (chars s) -> float_char c = false ->
      parse_stat (VStr s) = Raise ValueError) /\
  (forall (v : value) (n : Z),
      parse_stat v = Ok n ->
      let value := remove_char "," (py_str v) in
      (has_char "K" value = true /\
       exists x, py_float (remove_char "K" value) = Ok x /\
                 int_of_float (float_mul_int x 1000) = Ok n) \/
      (has_char "K" value = false /\ has_char "M" value = true /\
       exists x, py_float (remove_char "M" value) = Ok x /\
                 int_of_float (float_mul_int x 1000000) = Ok n) \/
      (has_char "K" value = false /\ has_char "M" value = false /\
       (value = "" /\ n = 0 \/ value <> "" /\ py_int value = Ok n))) /\
  map parse_stat [VStr "abc"; VStr "abcK"; VStr "K"; VStr "1.2.3M"; VStr "--5"; VStr "1e999K"]
  = [Raise ValueError; Raise ValueError; Raise ValueError; Raise ValueError;
     Raise ValueError; Raise OverflowError].
Proof.
  split; [exact parse_stat_empty|].
  split; [exact parse_stat_unparseable|].
  split; [exact process_threads_fails|].
  split; [exact parse_stat_foreign|].
  split; [exact parse_stat_ok_inv|].
  vm_compute. reflexivity.
Qed.

Lemma parse_stat_leniency_witness :
  parse_stat (VStr ",") = Ok 0 /\
  parse_stat (VStr "12a") = Raise ValueError /\
  is_ok (process_threads noisy_threads [] []) = false /\
  parse_stat (VStr "12xK") = Raise ValueError /\
  py_int (remove_char "," (py_str (VStr "1,234"))) = Ok 1234.
Proof.
  destruct parse_stat_leniency_is_empty_text_only
    as (Hempty & Hbad & Hfatal & Hforeign & Hinv & _).
  split; [apply Hempty; reflexivity|].
  split.
  { apply (Hbad "12a" "a"%char); [simpl; auto | reflexivity | reflexivity | reflexivity]. }
  split.
  { apply (Hfatal noisy_threads [] [] (KStr "1")
                  [tweet_of "1" [("replies", VStr "7"); ("likes", VStr "abc")] None]
                  (tweet_of "1" [("replies", VStr "7"); ("likes", VStr "abc")] None)
                  (VDict [("replies", VStr "7"); ("likes", VStr "abc")])
                  (VStr "abc") Likes ValueError).
    - left; reflexivity.
    - left; reflexivity.
    - reflexivity.
    - reflexivity.
    - vm_compute; reflexivity. }
  split.
  { apply (Hforeign "12xK" "x"%char); [simpl; auto | reflexivity]. }
  assert (Hr : parse_stat (VStr "1,234") = Ok 1234) by (vm_compute; reflexivity).
  destruct (Hinv (VStr "1,234") 1234 Hr) as [[HK _] | [(_ & HM & _) | (_ & _ & [[He _] | [_ Hi]])]].
  - vm_compute in HK. discriminate HK.
  - vm_compute in HM. discriminate HM.
  - vm_compute in He. discriminate He.
  - exact Hi.
Defined.

(** C4, as stated, fails: [K5] does not end with [K] or [M], so the worded
    contract parses it as an integer and fails, while the code finds the
    [K], removes it and returns 5000. *)
Lemma parse_stat_K5 :
  parse_stat (VStr "K5") = Ok 5000 /\ parse_stat_spec (VStr "K5") = Raise ValueError.
Proof. split; vm_compute; reflexivity. Qed.

(** C4 (amended). The Stat Parser strips the separators; when the text
    contains [K] anywhere it removes every [K], parses the rest as a float,
    multiplies by 1000 and truncates; otherwise, when it contains [M]
    anywhere, it does the same with 1000000; the empty text yields 0; any
    other text is parsed as an integer.  Whenever [K] and [M] occur at most
    as the last character this is the contract worded with "ends with".
    In particular the five sample values are parsed as stated. *)
Theorem parse_stat_contract :
  (forall v : value,
      magnitude_only_last (remove_char "," (py_str v)) = true ->
      parse_stat v = parse_stat_spec v) /\
  (forall v : value,
      let value := remove_char "," (py_str v) in
      parse_stat v =
        if has_char "K" value then
          py_float (remove_char "K" value) ≫= fun x => int_of_float (float_mul_int x 1000)
        else if has_char "M" value then
          py_float (remove_char "M" value) ≫= fun x => int_of_float (float_mul_int x 1000000)
        else if String.eqb value "" then Ok 0
        else py_int value) /\
  parse_stat (VStr "1,234") = Ok 1234 /\
  parse_stat (VStr "1.5K") = Ok 1500 /\
  parse_stat (VStr "2M") = Ok 2000000 /\
  parse_stat (VStr "") = Ok 0 /\
  parse_stat (VStr "42") = Ok 42.
Proof.
  split; [exact parse_stat_meets_spec|].
  split; [intros v value; exact (parse_stat_text v)|].
  repeat split; vm_compute; reflexivity.
Qed.

Lemma parse_stat_contract_witness :
  magnitude_only_last (remove_char "," (py_str (VStr "1.5K"))) = true /\
  parse_stat (VStr "1.5K") = parse_stat_spec (VStr "1.5K").
Proof.
  split; [reflexivity|].
  apply (proj1 parse_stat_contract (VStr "1.5K")). reflexivity.
Defined.

(** ** Keys and dictionaries *)

Lemma key_eqb_norm (a b : key) : key_eqb a b = true <-> key_norm a = key_norm b.
Proof.
  destruct a as [|ba|x|s], b as [|bb|y|t]; cbn -[Z.eqb String.eqb]; split; intros Hab;
    try reflexivity; try discriminate;
    try (apply Z.eqb_eq in Hab; congruence); try (apply Z.eqb_eq; congruence);
    try (apply String.eqb_eq in Hab; congruence); try (apply String.eqb_eq; congruence).
Qed.

Lemma key_eqb_refl (a : key) : key_eqb a a = true.
Proof. apply key_eqb_norm. reflexivity. Qed.

Lemma key_eqb_sym (a b : key) : key_eqb a b = key_eqb b a.
Proof.
  destruct (key_eqb a b) eqn:Hab, (key_eqb b a) eqn:Hba; try reflexivity.
  - apply key_eqb_norm in Hab. symmetry in Hab. apply key_eqb_norm in Hab. congruence.
  - apply key_eqb_norm in Hba. symmetry in Hba. apply key_eqb_norm in Hba. congruence.
Qed.

(** Equal keys are interchangeable in a comparison. *)
Lemma key_eqb_trans_eq (a b c : key) : key_eqb a b = true -> key_eqb a c = key_eqb b c.
Proof.
  intros Hab. apply key_eqb_norm in Hab.
  destruct (key_eqb a c) eqn:Hac, (key_eqb b c) eqn:Hbc; try reflexivity.
  - apply key_eqb_norm in Hac. rewrite Hab in Hac. apply key_eqb_norm in Hac. congruence.
  - apply key_eqb_norm in Hbc. rewrite <- Hab in Hbc. apply key_eqb_norm in Hbc. congruence.
Qed.

(** For a string identifier [==] is plain equality. *)
Lemma value_eq_key_str (s : string) (k : key) :
  value_eq_key (VStr s) k = true -> k = KStr s.
Proof.
  unfold value_eq_key. simpl. destruct k; simpl; try discriminate.
  intros Hk. apply String.eqb_eq in Hk. congruence.
Qed.

(** Reading a dictionary after an assignment. *)
Lemma dict_get_set {V : Type} (d : pydict V) (k k' : key) (v : V) :
  dict_get (dict_set d k v) k' = if key_eqb k k' then Some v else dict_get d k'.
Proof.
  induction d as [|[k0 v0] d IH]; simpl; [reflexivity|].
  destruct (key_eqb k0 k) eqn:H0; simpl.
  - rewrite (key_eqb_trans_eq _ _ k' H0). destruct (key_eqb k k'); reflexivity.
  - rewrite IH. destruct (key_eqb k0 k') eqn:H0'; [|reflexivity].
    destruct (key_eqb k k') eqn:Hk; [|reflexivity].
    rewrite (key_eqb_sym k k') in Hk. rewrite (key_eqb_trans_eq _ _ k H0') in H0. congruence.
Qed.

(** An entry of a dictionary after an assignment is an old entry, or holds
    the assigned value under a key equal to the assigned one. *)
Lemma dict_set_In {V : Type} (d : pydict V) (k k1 : key) (v v1 : V) :
  In (k1, v1) (dict_set d k v) -> In (k1, v1) d \/ (key_eqb k1 k = true /\ v1 = v).
Proof.
  induction d as [|[k0 v0] d IH]; simpl.
  - intros [Heq | []]. injection Heq as <- <-. right. split; [apply key_eqb_refl | reflexivity].
  - destruct (key_eqb k0 k) eqn:H0; simpl.
    + intros [Heq | Hin]; [|auto]. injection Heq as <- <-. auto.
    + intros [Heq | Hin]; [auto|]. destruct (IH Hin); auto.
Qed.

(** An invariant of the accumulator that every successful step of the body
    keeps holds when the loop ends. *)
Lemma for_each_invariant {A S : Type} (Inv : S -> Prop) (body : S -> A -> result S)
    (l : list A) :
  (forall s x s', In x l -> Inv s -> body s x = Ok s' -> Inv s') ->
  forall s s', Inv s -> for_each body l s = Ok s' -> Inv s'.
Proof.
  induction l as [|x l IH]; intros Hstep s s' Hs Hrun; simpl in Hrun.
  - injection Hrun as <-. exact Hs.
  - apply bind_ok_inv in Hrun as (s1 & H1 & Hrun).
    apply (IH (fun s x s' Hin => Hstep s x s' (or_intror Hin)) s1 s'); [|exact Hrun].
    apply (Hstep s x s1); [left; reflexivity | exact Hs | exact H1].
Qed.

(** A body that succeeds on every element makes the loop succeed. *)
Lemma for_each_ok {A S : Type} (body : S -> A -> result S) (l : list A) :
  (forall s x, In x l -> is_ok (body s x) = true) ->
  forall s, is_ok (for_each body l s) = true.
Proof.
  induction l as [|x l IH]; intros Hbody s; simpl; [reflexivity|].
  pose proof (Hbody s x (or_introl eq_refl)) as Hx.
  unfold_bind. destruct (body s x) as [s1|]; [|discriminate].
  apply IH. intros s2 y Hy. apply Hbody. right. exact Hy.
Qed.

(** ** Dictionary comprehensions *)

Section Comprehension.
Context {A V : Type} (entry : A -> result (option (key * V))).

(** Every entry of the result was produced by an element of the data,
    under an equal key. *)
Lemma dict_comprehension_sound (data : list A) (d : pydict V) :
  dict_comprehension entry data = Ok d ->
  forall k v, In (k, v) d ->
  exists x k0, In x data /\ entry x = Ok (Some (k0, v)) /\ key_eqb k k0 = true.
Proof.
  unfold dict_comprehension.
  apply (for_each_invariant
           (fun d => forall k v, In (k, v) d ->
              exists x k0, In x data /\ entry x = Ok (Some (k0, v)) /\ key_eqb k k0 = true)).
  - intros s x s' Hx Hs Hbody k v Hin.
    apply bind_ok_inv in Hbody as (e & He & Hs').
    injection Hs' as <-. destruct e as [[k0 v0]|]; [|auto].
    apply dict_set_In in Hin as [Hin | [Hk ->]]; [auto|].
    exists x, k0. auto.
  - intros k v [].
Qed.

(** The key of every element that is not filtered out is present. *)
Lemma dict_comprehension_present (data : list A) (d : pydict V) (x : A) (k : key) (v : V) :
  dict_comprehension entry data = Ok d ->
  In x data -> entry x = Ok (Some (k, v)) ->
  exists v', dict_get d k = Some v'.
Proof.
  unfold dict_comprehension. intros Hrun Hin Hx.
  apply in_split in Hin as (l1 & l2 & ->).
  rewrite for_each_app in Hrun. apply bind_ok_inv in Hrun as (d1 & _ & Hrun).
  simpl in Hrun. rewrite Hx in Hrun. unfold_bind.
  revert Hrun.
  apply (for_each_invariant (fun d => exists v', dict_get d k = Some v')).
  - intros s y s' _ [v' Hv'] Hbody.
    destruct (entry y) as [[[k0 v0]|]|]; try discriminate; injection Hbody as <-.
    + rewrite dict_get_set. destruct (key_eqb k0 k); eauto.
    + eauto.
  - rewrite dict_get_set, key_eqb_refl. eauto.
Qed.

(** An element the condition filters out leaves no trace. *)
Lemma dict_comprehension_skip (l1 l2 : list A) (x : A) :
  entry x = Ok None ->
  dict_comprehension entry (l1 ++ x :: l2) = dict_comprehension entry (l1 ++ l2).
Proof.
  intros Hx. unfold dict_comprehension. rewrite !for_each_app.
  unfold_bind.
  match goal with |- context [for_each ?b l1 ?s] => destruct (for_each b l1 s) end;
    [|reflexivity].
  simpl. rewrite Hx. reflexivity.
Qed.

Lemma dict_comprehension_ok (data : list A) :
  (forall x, In x data -> is_ok (entry x) = true) ->
  is_ok (dict_comprehension entry data) = true.
Proof.
  intros Hall. unfold dict_comprehension. apply for_each_ok.
  intros s x Hx. specialize (Hall x Hx). unfold_bind.
  destruct (entry x); [reflexivity | discriminate].
Qed.

Lemma dict_comprehension_raise (data : list A) (e : exn) :
  dict_comprehension entry data = Raise e ->
  exists x, In x data /\ entry x = Raise e.
Proof.
  unfold dict_comprehension. intros Hrun.
  apply for_each_raise in Hrun as (s & x & Hx & Hbody).
  exists x. split; [exact Hx|]. unfold_bind.
  destruct (entry x); [discriminate | congruence].
Qed.

(** A comprehension that returns has evaluated the entry of every
    element. *)
Lemma dict_comprehension_entries (data : list A) (d : pydict V) (x : A) :
  dict_comprehension entry data = Ok d -> In x data -> exists r, entry x = Ok r.
Proof.
  unfold dict_comprehension. intros Hrun Hin.
  apply in_split in Hin as (l1 & l2 & ->).
  rewrite for_each_app in Hrun. apply bind_ok_inv in Hrun as (d1 & _ & Hrun).
  simpl in Hrun. apply bind_ok_inv in Hrun as (d2 & Hx & _).
  apply bind_ok_inv in Hx as (r & Hr & _). eauto.
Qed.

(** The value under a key is the one of the last element that produces
    an equal key. *)
Lemma dict_comprehension_last (l1 l2 : list A) (x : A) (d : pydict V) (k : key) (v : V) :
  dict_comprehension entry (l1 ++ x :: l2) = Ok d ->
  entry x = Ok (Some (k, v)) ->
  (forall y k' v', In y l2 -> entry y = Ok (Some (k', v')) -> key_eqb k' k = false) ->
  dict_get d k = Some v.
Proof.
  unfold dict_comprehension. intros Hrun Hx Hlater.
  rewrite for_each_app in Hrun. apply bind_ok_inv in Hrun as (d1 & _ & Hrun).
  simpl in Hrun. rewrite Hx in Hrun. unfold_bind. revert Hrun.
  apply (for_each_invariant (fun d => dict_get d k = Some v)).
  - intros s y s' Hy Hs Hbody.
    destruct (entry y) as [[[k' v']|]|] eqn:Hey; try discriminate; injection Hbody as <-.
    + rewrite dict_get_set, (Hlater y k' v' Hy Hey). exact Hs.
    + exact Hs.
  - rewrite dict_get_set, key_eqb_refl. reflexivity.
Qed.
End Comprehension.

(** ** The Source Loader *)

Lemma getitem_raises (v : value) (name : string) (e : exn) :
  getitem v name = Raise e -> loader_exn e = true.
Proof.
  destruct v; simpl; try (intros Hr; injection Hr as <-; reflexivity).
  destruct (obj_get d name); [discriminate|]. intros Hr; injection Hr as <-; reflexivity.
Qed.

Lemma getitem_0_raises (v : value) (e : exn) :
  getitem_0 v = Raise e -> loader_exn e = true.
Proof.
  destruct v as [| | |[|c s]|[|x l]|]; simpl; try discriminate;
    intros Hr; injection Hr as <-; reflexivity.
Qed.

Lemma to_key_raises (v : value) (e : exn) : to_key v = Raise e -> loader_exn e = true.
Proof.
  destruct v; simpl; try discriminate; intros Hr; injection Hr as <-; reflexivity.
Qed.

Lemma contains_raises (name : string) (v : value) (e : exn) :
  contains name v = Raise e -> loader_exn e = true.
Proof.
  destruct v; simpl; try discriminate; intros Hr; injection Hr as <-; reflexivity.
Qed.

Tactic Notation "loader_step" hyp(H) ident(x) :=
  apply bind_raise_inv in H as [H | (x & _ & H)];
  [ first [ apply getitem_raises in H | apply getitem_0_raises in H
          | apply to_key_raises in H | apply contains_raises in H ]; exact H | ].

Lemma category_entry_raises (item : value) (e : exn) :
  category_entry item = Raise e -> loader_exn e = true.
Proof.
  unfold category_entry. intros Hr.
  loader_step Hr i. loader_step Hr c. loader_step Hr k. discriminate.
Qed.

Lemma summary_entry_raises (item : value) (e : exn) :
  summary_entry item = Raise e -> loader_exn e = true.
Proof.
  unfold summary_entry. intros Hr.
  loader_step Hr i. loader_step Hr c. loader_step Hr k. discriminate.
Qed.

Lemma thread_entry_raises (sublist : value) (e : exn) :
  thread_entry sublist = Raise e -> loader_exn e = true.
Proof.
  unfold thread_entry. destruct (truthy sublist); [|discriminate].
  intros Hr. loader_step Hr fst0. loader_step Hr i. loader_step Hr k. discriminate.
Qed.

(** On an array the loader raises [IndexError], [KeyError] or [TypeError],
    never the [ValueError] of an unrecognised format. *)
Lemma read_json_array_raises (l : list value) (e : exn) :
  read_json (VList l) = Raise e -> loader_exn e = true.
Proof.
  unfold read_json. intros Hr. loader_step Hr fst0. loader_step Hr is_cat.
  destruct is_cat.
  - apply dict_comprehension_raise in Hr as (x & _ & Hx).
    eapply category_entry_raises; eauto.
  - loader_step Hr is_sum. destruct is_sum.
    + apply dict_comprehension_raise in Hr as (x & _ & Hx).
      eapply summary_entry_raises; eauto.
    + apply dict_comprehension_raise in Hr as (x & _ & Hx).
      eapply thread_entry_raises; eauto.
Qed.

(** *** What the entries of the three mappings are *)

Lemma category_entry_inv (item : value) (k : key) (v : value) :
  category_entry item = Ok (Some (k, v)) ->
  exists id c, getitem item "id" = Ok id /\ to_key id = Ok k /\
               getitem item "categories" = Ok c /\ v = split_categories c.
Proof.
  unfold category_entry. intros Hr.
  apply bind_ok_inv in Hr as (id & Hid & Hr).
  apply bind_ok_inv in Hr as (c & Hc & Hr).
  apply bind_ok_inv in Hr as (k' & Hk & Hr).
  injection Hr as <- <-. eauto 6.
Qed.

Lemma summary_entry_inv (item : value) (k : key) (v : value) :
  summary_entry item = Ok (Some (k, v)) ->
  exists id, getitem item "id" = Ok id /\ to_key id = Ok k /\
             getitem item "summary" = Ok v.
Proof.
  unfold summary_entry. intros Hr.
  apply bind_ok_inv in Hr as (id & Hid & Hr).
  apply bind_ok_inv in Hr as (c & Hc & Hr).
  apply bind_ok_inv in Hr as (k' & Hk & Hr).
  injection Hr as <- <-. eauto.
Qed.

Lemma thread_entry_inv (sublist : value) (k : key) (v : value) :
  thread_entry sublist = Ok (Some (k, v)) ->
  v = sublist /\
  exists t ts id, sublist = VList (t :: ts) /\ getitem t "id" = Ok id /\ to_key id = Ok k.
Proof.
  unfold thread_entry. destruct (truthy sublist); [|discriminate]. intros Hr.
  apply bind_ok_inv in Hr as (t & Ht & Hr).
  apply bind_ok_inv in Hr as (id & Hid & Hr).
  apply bind_ok_inv in Hr as (k' & Hk & Hr).
  injection Hr as <- <-. split; [reflexivity|].
  destruct sublist as [| | |[|c s]|[|x l]|]; simpl in Ht; try discriminate; injection Ht as <-.
  - simpl in Hid. discriminate.
  - eauto 6.
Qed.

Lemma value_eq_key_of (id : value) (k0 k : key) :
  to_key id = Ok k0 -> key_eqb k k0 = true -> value_eq_key id k = true.
Proof.
  intros Hid Hk. unfold value_eq_key. rewrite Hid, key_eqb_sym. exact Hk.
Qed.

(** Only an object has fields to subscript. *)
Lemma getitem_ok_inv (v : value) (name : string) (x : value) :
  getitem v name = Ok x -> exists fields, v = VDict fields /\ obj_get fields name = Some x.
Proof.
  destruct v as [| | | | |fields]; simpl; try discriminate.
  destruct (obj_get fields name) as [y|] eqn:Hy; [|discriminate].
  intros Hx. injection Hx as <-. eauto.
Qed.

(** The entry of an element of a category source: the element is an
    object with the two fields, and it is never filtered out. *)
Lemma category_entry_object (item : value) (r : option (key * value)) :
  category_entry item = Ok r <->
  exists fields id c k,
    item = VDict fields /\ obj_get fields "id" = Some id /\
    obj_get fields "categories" = Some c /\ to_key id = Ok k /\
    r = Some (k, split_categories c).
Proof.
  split.
  - unfold category_entry. intros Hr.
    apply bind_ok_inv in Hr as (id & Hid & Hr).
    apply bind_ok_inv in Hr as (c & Hc & Hr).
    apply bind_ok_inv in Hr as (k & Hk & Hr). injection Hr as <-.
    apply getitem_ok_inv in Hid as (fields & -> & Hid).
    apply getitem_ok_inv in Hc as (fields' & Heq & Hc). injection Heq as <-.
    exists fields, id, c, k. auto.
  - intros (fields & id & c & k & -> & Hid & Hc & Hk & ->).
    unfold category_entry. simpl. rewrite Hid, Hc. unfold_bind. rewrite Hk. reflexivity.
Qed.

Lemma summary_entry_object (item : value) (r : option (key * value)) :
  summary_entry item = Ok r <->
  exists fields id summary k,
    item = VDict fields /\ obj_get fields "id" = Some id /\
    obj_get fields "summary" = Some summary /\ to_key id = Ok k /\
    r = Some (k, summary).
Proof.
  split.
  - unfold summary_entry. intros Hr.
    apply bind_ok_inv in Hr as (id & Hid & Hr).
    apply bind_ok_inv in Hr as (c & Hc & Hr).
    apply bind_ok_inv in Hr as (k & Hk & Hr). injection Hr as <-.
    apply getitem_ok_inv in Hid as (fields & -> & Hid).
    apply getitem_ok_inv in Hc as (fields' & Heq & Hc). injection Heq as <-.
    exists fields, id, c, k. auto.
  - intros (fields & id & c & k & -> & Hid & Hc & Hk & ->).
    unfold summary_entry. simpl. rewrite Hid, Hc. unfold_bind. rewrite Hk. reflexivity.
Qed.

Lemma thread_entry_object (fields : list (string * value)) (ts : list value)
    (id : value) (k : key) :
  obj_get fields "id" = Some id -> to_key id = Ok k ->
  thread_entry (VList (VDict fields :: ts)) = Ok (Some (k, VList (VDict fields :: ts))).
Proof.
  intros Hid Hk. unfold thread_entry. simpl. rewrite Hid. unfold_bind. rewrite Hk.
  reflexivity.
Qed.

(** A list holds the string [name] when the membership test finds it. *)
Lemma existsb_is_str (name : string) (l : list value) :
  existsb (is_str name) l = true -> In (VStr name) l.
Proof.
  intros Hl. apply existsb_exists in Hl as (x & Hx & Hs).
  destruct x as [| | |s| |]; try discriminate Hs.
  simpl in Hs. apply String.eqb_eq in Hs. subst s. exact Hx.
Qed.

(** *** Well-formed sources load *)

Lemma category_item_ok (item : value) :
  category_item item = true -> is_ok (category_entry item) = true.
Proof.
  unfold category_item, has_hashable_id, category_entry. unfold_bind.
  destruct (getitem item "id") as [id|]; [|discriminate].
  destruct (getitem item "categories"); [|rewrite andb_false_r; discriminate].
  destruct (to_key id); [reflexivity | discriminate].
Qed.

Lemma summary_item_ok (item : value) :
  summary_item item = true -> is_ok (summary_entry item) = true.
Proof.
  unfold summary_item, has_hashable_id, summary_entry. unfold_bind.
  destruct (getitem item "id") as [id|]; [|discriminate].
  destruct (getitem item "summary"); [|rewrite andb_false_r; discriminate].
  destruct (to_key id); [reflexivity | discriminate].
Qed.

Lemma thread_item_ok (sublist : value) :
  thread_item sublist = true -> is_ok (thread_entry sublist) = true.
Proof.
  unfold thread_item, thread_entry.
  destruct sublist as [| | | |[|t ts]|]; try discriminate; [reflexivity|].
  intros Hw. apply andb_prop in Hw as [_ Hid]. simpl. unfold_bind.
  unfold has_hashable_id in Hid.
  destruct (getitem t "id") as [id|]; [|discriminate].
  destruct (to_key id); [reflexivity | discriminate].
Qed.

(** Probing an object for a field is looking the field up. *)
Lemma contains_object (name : string) (item : value) (id : value) :
  getitem item "id" = Ok id ->
  contains name item = Ok (is_ok (getitem item name)).
Proof.
  destruct item; simpl; try discriminate. intros _.
  destruct (obj_get d name); reflexivity.
Qed.

(** A list of objects has no string among its elements. *)
Lemma contains_objects (name : string) (tweets : list value) :
  forallb is_dict tweets = true -> contains name (VList tweets) = Ok false.
Proof.
  intros Hd. simpl. f_equal. apply existsb_none.
  rewrite forallb_forall in *. intros x Hx. specialize (Hd x Hx).
  destruct x; try discriminate. reflexivity.
Qed.

Lemma forallb_In {A : Type} (f : A -> bool) (l : list A) (x : A) :
  forallb f l = true -> In x l -> f x = true.
Proof. intros Hf. rewrite forallb_forall in Hf. apply Hf. Qed.

Lemma read_json_categories_ok (first : value) (rest : list value) :
  forallb category_item (first :: rest) = true ->
  is_ok (read_json (VList (first :: rest))) = true.
Proof.
  intros Hw. pose proof (forallb_In _ _ first Hw (or_introl eq_refl)) as Hf.
  unfold read_json. simpl getitem_0. unfold_bind.
  unfold category_item, has_hashable_id in Hf.
  destruct (getitem first "id") as [id|] eqn:Hid; [|discriminate].
  rewrite (contains_object _ _ _ Hid).
  apply andb_prop in Hf as [_ ->].
  apply dict_comprehension_ok. intros x Hx. apply category_item_ok.
  exact (forallb_In _ _ x Hw Hx).
Qed.

Lemma read_json_summaries_ok (first : value) (rest : list value) :
  forallb summary_item (first :: rest) = true ->
  is_ok (read_json (VList (first :: rest))) = true.
Proof.
  intros Hw. pose proof (forallb_In _ _ first Hw (or_introl eq_refl)) as Hf.
  unfold read_json. simpl getitem_0. unfold_bind.
  unfold summary_item, has_hashable_id in Hf.
  destruct (getitem first "id") as [id|] eqn:Hid; [|discriminate].
  rewrite !(contains_object _ _ _ Hid).
  apply andb_prop in Hf as [Hf Hc]. apply andb_prop in Hf as [_ ->].
  apply negb_true_iff in Hc. rewrite Hc.
  apply dict_comprehension_ok. intros x Hx. apply summary_item_ok.
  exact (forallb_In _ _ x Hw Hx).
Qed.

Lemma read_json_threads_ok (first : value) (rest : list value) :
  forallb thread_item (first :: rest) = true ->
  is_ok (read_json (VList (first :: rest))) = true.
Proof.
  intros Hw. pose proof (forallb_In _ _ first Hw (or_introl eq_refl)) as Hf.
  unfold read_json. simpl getitem_0. unfold_bind.
  unfold thread_item in Hf. destruct first as [| | | |tweets|]; try discriminate.
  apply andb_prop in Hf as [Hd _].
  rewrite !(contains_objects _ _ Hd).
  apply dict_comprehension_ok. intros x Hx. apply thread_item_ok.
  exact (forallb_In _ _ x Hw Hx).
Qed.

(** ** The Source Loader: claims *)

(** C5. For a top-level array [first :: rest] the loader probes [first] for
    [categories], then for [summary], and otherwise loads threads: an
    object with a [categories] field makes a category source whether or
    not it has a [summary] field, an object with a [summary] field only a
    summary source, any other object and a list of tweets a thread
    source; [None], a boolean or a number cannot be probed.

    The category mapping sends the identifier of every element to the
    normalised categories of the last element with that identifier, the
    summary mapping to its summary, and the thread mapping sends the
    identifier of the first tweet of every non-empty inner list to the
    last inner list with that identifier: every value of a thread mapping
    is a non-empty list whose first element's identifier equals the key
    (as Python's [==] does, which for a string identifier is plain
    equality), and empty inner lists are skipped. *)
Theorem read_json_classification (first : value) (rest : list value) :
  let data := first :: rest in
  (contains "categories" first = Ok true ->
   read_json (VList data) = dict_comprehension category_entry data) /\
  (contains "categories" first = Ok false -> contains "summary" first = Ok true ->
   read_json (VList data) = dict_comprehension summary_entry data) /\
  (contains "categories" first = Ok false -> contains "summary" first = Ok false ->
   read_json (VList data) = dict_comprehension thread_entry data) /\
  (forall d, dict_comprehension category_entry data = Ok d ->
     forall k v, In (k, v) d ->
     exists item id c, In item data /\ getitem item "id" = Ok id /\
       value_eq_key id k = true /\ getitem item "categories" = Ok c /\
       v = split_categories c) /\
  (forall d, dict_comprehension summary_entry data = Ok d ->
     forall k v, In (k, v) d ->
     exists item id, In item data /\ getitem item "id" = Ok id /\
       value_eq_key id k = true /\ getitem item "summary" = Ok v) /\
  (forall d, dict_comprehension thread_entry data = Ok d ->
     (forall k v, In (k, v) d ->
        exists t ts id, v = VList (t :: ts) /\ In v data /\
          getitem t "id" = Ok id /\ value_eq_key id k = true /\
          (forall s, id = VStr s -> k = KStr s)) /\
     (forall t ts, In (VList (t :: ts)) data ->
        exists id k v, getitem t "id" = Ok id /\ to_key id = Ok k /\
          dict_get d k = Some v)) /\
  (forall l1 l2 : list value,
     dict_comprehension thread_entry (l1 ++ VList [] :: l2) =
     dict_comprehension thread_entry (l1 ++ l2)) /\
  (forall fields : list (string * value), first = VDict fields ->
     read_json (VList data) =
       match obj_get fields "categories", obj_get fields "summary" with
       | Some _, _ => dict_comprehension category_entry data
       | None, Some _ => dict_comprehension summary_entry data
       | None, None => dict_comprehension thread_entry data
       end) /\
  (forall tweets : list value, first = VList tweets ->
     ~ In (VStr "categories") tweets -> ~ In (VStr "summary") tweets ->
     read_json (VList data) = dict_comprehension thread_entry data) /\
  (first = VNone \/ (exists b, first = VBool b) \/ (exists n, first = VInt n) ->
   read_json (VList data) = Raise TypeError) /\
  (forall d, dict_comprehension category_entry data = Ok d ->
     (forall item, In item data ->
        exists fields id c k v,
          item = VDict fields /\ obj_get fields "id" = Some id /\
          obj_get fields "categories" = Some c /\ to_key id = Ok k /\
          dict_get d k = Some v) /\
     (forall l1 l2 fields id c k,
        data = (l1 ++ VDict fields :: l2)%list ->
        obj_get fields "id" = Some id -> obj_get fields "categories" = Some c ->
        to_key id = Ok k ->
        (forall fields' id', In (VDict fields') l2 -> obj_get fields' "id" = Some id' ->
                             value_eq_key id' k = false) ->
        dict_get d k = Some (split_categories c))) /\
  (forall d, dict_comprehension summary_entry data = Ok d ->
     (forall item, In item data ->
        exists fields id summary k v,
          item = VDict fields /\ obj_get fields "id" = Some id /\
          obj_get fields "summary" = Some summary /\ to_key id = Ok k /\
          dict_get d k = Some v) /\
     (forall l1 l2 fields id summary k,
        data = (l1 ++ VDict fields :: l2)%list ->
        obj_get fields "id" = Some id -> obj_get fields "summary" = Some summary ->
        to_key id = Ok k ->
        (forall fields' id', In (VDict fields') l2 -> obj_get fields' "id" = Some id' ->
                             value_eq_key id' k = false) ->
        dict_get d k = Some summary)) /\
  (forall d, dict_comprehension thread_entry data = Ok d ->
     forall l1 l2 fields ts id k,
       data = (l1 ++ VList (VDict fields :: ts) :: l2)%list ->
       obj_get fields "id" = Some id -> to_key id = Ok k ->
       (forall fields' ts' id',
           In (VList (VDict fields' :: ts')) l2 -> obj_get fields' "id" = Some id' ->
           value_eq_key id' k = false) ->
       dict_get d k = Some (VList (VDict fields :: ts))).
Proof.
  intros data.
  assert (Hlater : forall (id : value) (k' k : key),
             to_key id = Ok k' -> value_eq_key id k = false -> key_eqb k' k = false).
  { intros id k' k Hid Hk. unfold value_eq_key in Hk. rewrite Hid in Hk. exact Hk. }
  repeat match goal with |- _ /\ _ => split end.
  - intros Hc. unfold read_json. simpl getitem_0. unfold_bind. rewrite Hc. reflexivity.
  - intros Hc Hs. unfold read_json. simpl getitem_0. unfold_bind. rewrite Hc, Hs. reflexivity.
  - intros Hc Hs. unfold read_json. simpl getitem_0. unfold_bind. rewrite Hc, Hs. reflexivity.
  - intros d Hd k v Hin.
    destruct (dict_comprehension_sound _ _ _ Hd k v Hin) as (item & k0 & Hitem & He & Hk).
    apply category_entry_inv in He as (id & c & Hid & Hk0 & Hc & ->).
    exists item, id, c. eauto 6 using value_eq_key_of.
  - intros d Hd k v Hin.
    destruct (dict_comprehension_sound _ _ _ Hd k v Hin) as (item & k0 & Hitem & He & Hk).
    apply summary_entry_inv in He as (id & Hid & Hk0 & Hs).
    exists item, id. eauto 6 using value_eq_key_of.
  - intros d Hd. split.
    + intros k v Hin.
      destruct (dict_comprehension_sound _ _ _ Hd k v Hin) as (sub & k0 & Hsub & He & Hk).
      apply thread_entry_inv in He as (-> & t & ts & id & -> & Hid & Hk0).
      pose proof (value_eq_key_of _ _ _ Hk0 Hk) as Heq.
      exists t, ts, id. repeat split; try assumption.
      intros s ->. apply value_eq_key_str. exact Heq.
    + intros t ts Hin.
      destruct (dict_comprehension_entries _ _ _ _ Hd Hin) as [[[k v]|] Hentry].
      * pose proof (dict_comprehension_present _ _ _ _ _ _ Hd Hin Hentry) as [v' Hv'].
        apply thread_entry_inv in Hentry as (_ & t' & ts' & id & Heq & Hid & Hk).
        injection Heq as <- <-. eauto 6.
      * unfold thread_entry in Hentry. simpl in Hentry. unfold_bind.
        destruct (getitem t "id") as [id|]; [|discriminate].
        destruct (to_key id); discriminate.
  - intros l1 l2. apply dict_comprehension_skip. reflexivity.
  - intros fields ->. unfold read_json. simpl. unfold_bind.
    destruct (obj_get fields "categories"); [reflexivity|].
    destruct (obj_get fields "summary"); reflexivity.
  - intros tweets -> Hcat Hsum. unfold read_json. simpl. unfold_bind.
    destruct (existsb (is_str "categories") tweets) eqn:Hc.
    { destruct (Hcat (existsb_is_str _ _ Hc)). }
    destruct (existsb (is_str "summary") tweets) eqn:Hs.
    { destruct (Hsum (existsb_is_str _ _ Hs)). }
    reflexivity.
  - intros [-> | [[b ->] | [n ->]]]; reflexivity.
  - intros d Hd. split.
    + intros item Hin.
      destruct (dict_comprehension_entries _ _ _ _ Hd Hin) as [r Hentry].
      pose proof Hentry as Hobj.
      apply category_entry_object in Hobj as (fields & id & c & k & -> & Hid & Hc & Hk & ->).
      destruct (dict_comprehension_present _ _ _ _ _ _ Hd Hin Hentry) as [v Hv].
      exists fields, id, c, k, v. auto.
    + intros l1 l2 fields id c k Hdata Hid Hc Hk Hl2.
      rewrite Hdata in Hd.
      apply (dict_comprehension_last _ _ _ _ _ _ _ Hd).
      * apply category_entry_object. exists fields, id, c, k. auto.
      * intros y k' v' Hy Hentry.
        apply category_entry_object in Hentry as (fields' & id' & c' & k0 & -> & Hid' & _ & Hk' & Heq).
        injection Heq as <- _. eauto.
  - intros d Hd. split.
    + intros item Hin.
      destruct (dict_comprehension_entries _ _ _ _ Hd Hin) as [r Hentry].
      pose proof Hentry as Hobj.
      apply summary_entry_object in Hobj as (fields & id & c & k & -> & Hid & Hc & Hk & ->).
      destruct (dict_comprehension_present _ _ _ _ _ _ Hd Hin Hentry) as [v Hv].
      exists fields, id, c, k, v. auto.
    + intros l1 l2 fields id c k Hdata Hid Hc Hk Hl2.
      rewrite Hdata in Hd.
      apply (dict_comprehension_last _ _ _ _ _ _ _ Hd).
      * apply summary_entry_object. exists fields, id, c, k. auto.
      * intros y k' v' Hy Hentry.
        apply summary_entry_object in Hentry as (fields' & id' & c' & k0 & -> & Hid' & _ & Hk' & Heq).
        injection Heq as <- _. eauto.
  - intros d Hd l1 l2 fields ts id k Hdata Hid Hk Hl2.
    rewrite Hdata in Hd.
    apply (dict_comprehension_last _ _ _ _ _ _ _ Hd).
    + apply (thread_entry_object _ _ _ _ Hid Hk).
    + intros y k' v' Hy Hentry.
      apply thread_entry_inv in Hentry as (_ & t' & ts' & id' & -> & Hid' & Hk').
      apply getitem_ok_inv in Hid' as (fields' & -> & Hid'). eauto.
Qed.

(** The three sample files are classified by their first element, and
    the identifier of every element is a key of the mapping. *)
Lemma read_json_classification_witness :
  contains "categories" (VList []) = Ok false /\
  contains "summary" (VList []) = Ok false /\
  read_json (VList (VList [] :: sample_threads)) =
    dict_comprehension thread_entry (VList [] :: sample_threads) /\
  read_json (VList sample_categories) =
    Ok [(KStr "1", VList [VStr "a"; VStr " b"]);
        (KStr "2", VList [VStr "a"; VStr "b"])] /\
  dict_get [(KStr "1", VList [VStr "a"; VStr " b"]);
            (KStr "2", VList [VStr "a"; VStr "b"])] (KStr "1") =
    Some (split_categories (VStr "a, b")) /\
  read_json (VList sample_duplicates) =
    Ok [(KStr "1", VStr "new"); (KStr "2", VStr "other")] /\
  dict_get [(KStr "1", VStr "new"); (KStr "2", VStr "other")] (KStr "1") =
    Some (VStr "new").
Proof.
  split; [reflexivity|]. split; [reflexivity|].
  split.
  { apply (proj1 (proj2 (proj2 (read_json_classification (VList []) sample_threads))));
      reflexivity. }
  destruct (read_json_classification
              (VDict [("id", VStr "1"); ("categories", VStr "a, b")])
              [VDict [("id", VStr "2"); ("categories", VList [VStr "a"; VStr "b"])]])
    as (_ & _ & _ & _ & _ & _ & _ & Hcat & _ & _ & Hcats & _).
  destruct (read_json_classification
              (VDict [("id", VStr "1"); ("summary", VStr "old")])
              [VDict [("id", VStr "1"); ("summary", VStr "new")];
               VDict [("id", VStr "2"); ("summary", VStr "other")]])
    as (_ & _ & _ & _ & _ & _ & _ & Hsum & _ & _ & _ & Hsums & _).
  split; [exact (Hcat _ eq_refl)|].
  split.
  { destruct (Hcats [(KStr "1", VList [VStr "a"; VStr " b"]);
                     (KStr "2", VList [VStr "a"; VStr "b"])] eq_refl) as [_ Hlast].
    apply (Hlast [] [VDict [("id", VStr "2"); ("categories", VList [VStr "a"; VStr "b"])]]
                 [("id", VStr "1"); ("categories", VStr "a, b")]
                 (VStr "1") (VStr "a, b") (KStr "1")); try reflexivity.
    intros fields' id' [Heq | []] Hid. injection Heq as <-.
    vm_compute in Hid. injection Hid as <-. reflexivity. }
  split; [exact (Hsum _ eq_refl)|].
  destruct (Hsums [(KStr "1", VStr "new"); (KStr "2", VStr "other")] eq_refl) as [_ Hlast].
  apply (Hlast [VDict [("id", VStr "1"); ("summary", VStr "old")]]
               [VDict [("id", VStr "2"); ("summary", VStr "other")]]
               [("id", VStr "1"); ("summary", VStr "new")]
               (VStr "1") (VStr "new") (KStr "1")); try reflexivity.
  intros fields' id' [Heq | []] Hid. injection Heq as <-.
  vm_compute in Hid. injection Hid as <-. reflexivity.
Defined.

(** C6, as stated, fails: the array [sample_without_id] matches the first
    rule (its first element has a [categories] field) and the loader
    raises an error on it, a [KeyError]. *)
Lemma read_json_array_key_error :
  contains "categories" (VDict [("categories", VStr "a")]) = Ok true /\
  read_json (VList sample_without_id) = Raise KeyError.
Proof. split; reflexivity. Qed.

(** C6 (amended). A top-level document that is not an array makes the
    loader raise [ValueError] (the format error) and return no mapping.
    The third rule is a catch-all: on an array the loader never raises
    that error, but it raises [IndexError], [KeyError] or [TypeError] when
    the array is empty or an element has not the shape the rule reads.  On
    a non-empty array that is well formed for one of the three kinds no
    error is raised. *)
Theorem read_json_errors :
  (forall data : value, (forall l, data <> VList l) -> read_json data = Raise ValueError) /\
  (forall (l : list value) (e : exn), read_json (VList l) = Raise e -> loader_exn e = true) /\
  (forall (first : value) (rest : list value),
     forallb category_item (first :: rest) = true ->
     is_ok (read_json (VList (first :: rest))) = true) /\
  (forall (first : value) (rest : list value),
     forallb summary_item (first :: rest) = true ->
     is_ok (read_json (VList (first :: rest))) = true) /\
  (forall (first : value) (rest : list value),
     forallb thread_item (first :: rest) = true ->
     is_ok (read_json (VList (first :: rest))) = true).
Proof.
  split.
  { intros data Hdata. destruct data; try reflexivity. destruct (Hdata l eq_refl). }
  split; [exact read_json_array_raises|].
  split; [exact read_json_categories_ok|].
  split; [exact read_json_summaries_ok | exact read_json_threads_ok].
Qed.

Lemma read_json_errors_witness :
  read_json (VDict [("id", VStr "1")]) = Raise ValueError /\
  loader_exn KeyError = true /\
  is_ok (read_json (VList sample_categories)) = true /\
  is_ok (read_json (VList sample_summaries)) = true /\
  is_ok (read_json (VList sample_threads)) = true.
Proof.
  destruct read_json_errors as (Hfmt & Hexn & Hcat & Hsum & Hthr).
  split; [apply Hfmt; intros l; discriminate|].
  split; [apply (Hexn sample_without_id); reflexivity|].
  split; [apply Hcat; reflexivity|].
  split; [apply Hsum; reflexivity | apply Hthr; reflexivity].
Defined.

(** C10. On the empty top-level array the loader indexes the first element
    before any classification test: it raises [IndexError]; it neither
    returns a mapping nor raises the [ValueError] of an unrecognised
    format.  An array the loader returns a mapping for is non-empty. *)
Theorem read_json_empty_array :
  read_json (VList []) = Raise IndexError /\
  is_ok (read_json (VList [])) = false /\
  (forall l : list value, is_ok (read_json (VList l)) = true -> exists first rest, l = first :: rest).
Proof.
  split; [reflexivity|]. split; [reflexivity|].
  intros [|first rest]; [discriminate | eauto].
Qed.

Lemma read_json_empty_array_witness :
  is_ok (read_json (VList sample_threads)) = true /\
  exists first rest, sample_threads = first :: rest.
Proof.
  split; [reflexivity|].
  apply (proj2 (proj2 read_json_empty_array) sample_threads). reflexivity.
Defined.

(** ** The Thread Aggregator *)

Lemma tweet_stat_ok_inv (k : stat_key) (tweet : value) :
  is_ok (tweet_stat k tweet) = true ->
  exists st raw,
    get tweet "stats" (VDict []) = Ok st /\
    get st (stat_name k) (VInt 0) = Ok raw /\
    parse_stat raw = Ok (stat_value k tweet).
Proof.
  unfold stat_value, tweet_stat. unfold_bind.
  destruct (get tweet "stats" (VDict [])) as [st|]; [|discriminate].
  destruct (get st (stat_name k) (VInt 0)) as [raw|] eqn:Hraw; [|discriminate].
  destruct (parse_stat raw) eqn:Hp; [|discriminate]. intros _. eauto 6.
Qed.

(** One step of the aggregation loop, when the four stats of the tweet
    parse, adds each of them to its total. *)
Lemma add_tweet_stats_spec (total : stats) (tweet : value) :
  tweet_parses tweet = true ->
  add_tweet_stats total tweet =
    Ok (Stats (replies total + stat_value Replies tweet)
              (likes total + stat_value Likes tweet)
              (bookmarks total + stat_value Bookmarks tweet)
              (views total + stat_value Views tweet)).
Proof.
  unfold tweet_parses, stat_keys. cbn [forallb]. intros Hp.
  apply andb_prop in Hp as [H1 Hp]. apply andb_prop in Hp as [H2 Hp].
  apply andb_prop in Hp as [H3 Hp]. apply andb_prop in Hp as [H4 _].
  apply tweet_stat_ok_inv in H1 as (st & r1 & Hst & Hr1 & Hp1).
  apply tweet_stat_ok_inv in H2 as (st2 & r2 & Hst2 & Hr2 & Hp2).
  apply tweet_stat_ok_inv in H3 as (st3 & r3 & Hst3 & Hr3 & Hp3).
  apply tweet_stat_ok_inv in H4 as (st4 & r4 & Hst4 & Hr4 & Hp4).
  rewrite Hst in Hst2, Hst3, Hst4.
  injection Hst2 as <-. injection Hst3 as <-. injection Hst4 as <-.
  unfold add_tweet_stats, stat_keys. rewrite Hst. cbn [for_each]. unfold_bind.
  rewrite Hr1, Hp1, Hr2, Hp2, Hr3, Hp3, Hr4, Hp4. reflexivity.
Qed.

Lemma add_tweet_stats_parses (total total' : stats) (tweet : value) :
  add_tweet_stats total tweet = Ok total' -> tweet_parses tweet = true.
Proof.
  unfold tweet_parses, add_tweet_stats, tweet_stat, stat_keys.
  cbn [for_each forallb]. unfold_bind.
  destruct (get tweet "stats" (VDict [])) as [st|]; [|discriminate].
  destruct (get st (stat_name Replies) (VInt 0)) as [r1|]; [|discriminate].
  destruct (parse_stat r1); [|discriminate].
  destruct (get st (stat_name Likes) (VInt 0)) as [r2|]; [|discriminate].
  destruct (parse_stat r2); [|discriminate].
  destruct (get st (stat_name Bookmarks) (VInt 0)) as [r3|]; [|discriminate].
  destruct (parse_stat r3); [|discriminate].
  destruct (get st (stat_name Views) (VInt 0)) as [r4|]; [|discriminate].
  destruct (parse_stat r4); [|discriminate].
  reflexivity.
Qed.

(** The loop over tweets whose stats all parse returns the running sums. *)
Lemma aggregate_loop_sums (tweets : list value) (total : stats) :
  forallb tweet_parses tweets = true ->
  for_each add_tweet_stats tweets total = Ok (stats_sum_from total tweets).
Proof.
  revert total. induction tweets as [|tweet tweets IH]; intros total Hp; simpl.
  - destruct total; reflexivity.
  - apply andb_prop in Hp as [Ht Hp].
    rewrite (add_tweet_stats_spec _ _ Ht). unfold_bind. rewrite (IH _ Hp). reflexivity.
Qed.

Lemma aggregate_loop_parses (tweets : list value) (total t : stats) :
  for_each add_tweet_stats tweets total = Ok t -> forallb tweet_parses tweets = true.
Proof.
  revert total. induction tweets as [|tweet tweets IH]; intros total Hr; [reflexivity|].
  simpl in Hr. apply bind_ok_inv in Hr as (t1 & H1 & Hr).
  simpl. rewrite (add_tweet_stats_parses _ _ _ H1). exact (IH _ Hr).
Qed.

(** Sums do not depend on the order of the summands. *)
Lemma stat_sum_from_perm (start : Z) (k : stat_key) (l l' : list value) :
  Permutation l l' -> stat_sum_from start k l = stat_sum_from start k l'.
Proof.
  unfold stat_sum_from. intros Hp. revert start.
  induction Hp as [|x l l' _ IH|x y l|l l' l'' _ IH1 _ IH2]; intros start; simpl.
  - reflexivity.
  - apply IH.
  - f_equal. lia.
  - rewrite IH1. apply IH2.
Qed.

Lemma forallb_perm {A : Type} (f : A -> bool) (l l' : list A) :
  Permutation l l' -> forallb f l = true -> forallb f l' = true.
Proof.
  intros Hp Hf. rewrite forallb_forall in *. intros x Hx.
  apply Hf. apply (Permutation_in x (Permutation_sym Hp) Hx).
Qed.

(** ** The Relationship Resolver *)

Lemma referencing_app (k : key) (es1 es2 : list (value * value)) :
  referencing k (es1 ++ es2) = (referencing k es1 ++ referencing k es2)%list.
Proof. unfold referencing. rewrite List.filter_app, map_app. reflexivity. Qed.

(** Reading the relation map after [setdefault(k', []).append(x)]. *)
Lemma dict_get_setdefault_append (d : pydict (list value)) (k' k : key) (x : value) :
  dict_get_default (setdefault_append d k' x) k [] =
  (dict_get_default d k [] ++ if key_eqb k' k then [x] else [])%list.
Proof.
  unfold dict_get_default.
  induction d as [|[k0 xs] d IH]; simpl.
  - destruct (key_eqb k' k); reflexivity.
  - destruct (key_eqb k0 k') eqn:H0; simpl.
    + rewrite <- (key_eqb_trans_eq _ _ k H0).
      destruct (key_eqb k0 k); [reflexivity | rewrite app_nil_r; reflexivity].
    + destruct (key_eqb k0 k) eqn:H0k; [|exact IH].
      destruct (key_eqb k' k) eqn:Hk; [|rewrite app_nil_r; reflexivity].
      rewrite (key_eqb_sym k' k) in Hk. rewrite (key_eqb_trans_eq _ _ k' H0k) in H0.
      congruence.
Qed.

(** One step of the first loop appends the edge of the tweet, if any. *)
Lemma record_embed_lookup (thread tweet : value) (R R' : pydict (list value)) (k : key) :
  record_embed thread R tweet = Ok R' ->
  dict_get_default R' k [] =
  (dict_get_default R k [] ++ referencing k (edge_of thread tweet))%list.
Proof.
  unfold record_embed, edge_of, embed_target, thread_root. unfold_bind. intros Hr.
  destruct (get tweet "metadata" (VDict [])) as [metadata|]; [|discriminate].
  destruct (get metadata "embed" (VDict [])) as [embed|]; [|discriminate].
  destruct (get embed "type" VNone) as [ty|]; [|discriminate].
  destruct (is_str "embed" ty).
  - destruct (getitem_0 thread) as [first|]; [|discriminate].
    destruct (getitem first "id") as [parent_id|]; [|discriminate].
    destruct (getitem embed "id") as [target|]; [|discriminate].
    destruct (to_key target) as [k'|] eqn:Hk'; [|discriminate].
    injection Hr as <-. rewrite dict_get_setdefault_append.
    unfold referencing, value_eq_key. simpl. rewrite Hk'.
    destruct (key_eqb k' k); reflexivity.
  - injection Hr as <-. simpl. rewrite app_nil_r. reflexivity.
Qed.

Lemma record_tweets_lookup (thread : value) (tweets : list value)
    (R R' : pydict (list value)) (k : key) :
  for_each (record_embed thread) tweets R = Ok R' ->
  dict_get_default R' k [] =
  (dict_get_default R k [] ++ referencing k (flat_map (edge_of thread) tweets))%list.
Proof.
  revert R. induction tweets as [|tweet tweets IH]; intros R Hr; simpl in Hr.
  - injection Hr as <-. simpl. rewrite app_nil_r. reflexivity.
  - apply bind_ok_inv in Hr as (R1 & H1 & Hr).
    rewrite (IH _ Hr), (record_embed_lookup _ _ _ _ k H1).
    simpl. rewrite referencing_app, app_assoc. reflexivity.
Qed.

Lemma record_thread_lookup (thread : value) (R R' : pydict (list value)) (k : key) :
  record_thread R thread = Ok R' ->
  dict_get_default R' k [] =
  (dict_get_default R k [] ++ referencing k (edges_of_thread thread))%list.
Proof.
  unfold record_thread, edges_of_thread. intros Hr.
  apply bind_ok_inv in Hr as (tweets & -> & Hr).
  apply record_tweets_lookup. exact Hr.
Qed.

Lemma record_threads_lookup (threads : list value) (R R' : pydict (list value)) (k : key) :
  for_each record_thread threads R = Ok R' ->
  dict_get_default R' k [] =
  (dict_get_default R k [] ++ referencing k (flat_map edges_of_thread threads))%list.
Proof.
  revert R. induction threads as [|thread threads IH]; intros R Hr; simpl in Hr.
  - injection Hr as <-. simpl. rewrite app_nil_r. reflexivity.
  - apply bind_ok_inv in Hr as (R1 & H1 & Hr).
    rewrite (IH _ Hr), (record_thread_lookup _ _ _ k H1).
    simpl. rewrite referencing_app, app_assoc. reflexivity.
Qed.

(** The relation map lists, for every identifier, the threads of the edges
    that point to it. *)
Lemma resolve_relations_lookup (threads_data : pydict value)
    (related_threads : pydict (list value)) (k : key) :
  resolve_relations threads_data = Ok related_threads ->
  dict_get_default related_threads k [] = referencing k (edges threads_data).
Proof.
  unfold resolve_relations, edges. intros Hr.
  rewrite (record_threads_lookup _ _ _ k Hr). reflexivity.
Qed.

(** *** Well-formed threads are resolved *)

Lemma record_embed_ok (thread tweet : value) (R : pydict (list value)) :
  tweet_embed_ok thread tweet = true -> is_ok (record_embed thread R tweet) = true.
Proof.
  unfold tweet_embed_ok, record_embed, embed_target, thread_root. unfold_bind.
  destruct (get tweet "metadata" (VDict [])) as [metadata|]; [|discriminate].
  destruct (get metadata "embed" (VDict [])) as [embed|]; [|discriminate].
  destruct (get embed "type" VNone) as [ty|]; [|discriminate].
  destruct (is_str "embed" ty); [|reflexivity].
  destruct (getitem embed "id") as [target|]; [|discriminate].
  destruct (to_key target); [|discriminate].
  destruct (getitem_0 thread) as [first|]; [|discriminate].
  destruct (getitem first "id"); [reflexivity | discriminate].
Qed.

Lemma resolve_relations_ok (threads_data : pydict value) :
  forallb thread_ok (dict_values threads_data) = true ->
  is_ok (resolve_relations threads_data) = true.
Proof.
  intros Hok. unfold resolve_relations. apply for_each_ok.
  intros R thread Hthread. pose proof (forallb_In _ _ _ Hok Hthread) as Ht.
  unfold thread_ok in Ht. destruct thread as [| | | |tweets|]; try discriminate.
  apply andb_prop in Ht as [Hembeds _].
  unfold record_thread. simpl. unfold_bind. apply for_each_ok.
  intros R' tweet Htweet. apply record_embed_ok.
  exact (forallb_In _ _ _ Hembeds Htweet).
Qed.

Lemma referencing_In (k : key) (es : list (value * value)) (target parent_id : value) :
  In (target, parent_id) es -> to_key target = Ok k -> In parent_id (referencing k es).
Proof.
  intros Hin Hk. unfold referencing. apply in_map_iff.
  exists (target, parent_id). split; [reflexivity|].
  apply filter_In. split; [exact Hin|].
  simpl. unfold value_eq_key. rewrite Hk. apply key_eqb_refl.
Qed.

(** C7. The relation map of well-formed threads is built, and every tweet
    whose embed descriptor has the type [embed] records an edge from the
    embedded identifier to the identifier of the enclosing thread, the
    first tweet's, whichever tweet of the thread embeds; the relation map
    lists for each identifier the threads of all the edges that point to
    it, in order and without deduplication. *)
Theorem relations_use_thread_identifier (threads_data : pydict value) :
  (forallb thread_ok (dict_values threads_data) = true ->
   is_ok (resolve_relations threads_data) = true) /\
  (forall related_threads : pydict (list value),
   resolve_relations threads_data = Ok related_threads ->
   (forall k : key,
       dict_get_default related_threads k [] = referencing k (edges threads_data)) /\
   (forall (tweets : list value) (tweet target parent_id : value) (k : key),
       In (VList tweets) (dict_values threads_data) ->
       In tweet tweets ->
       embed_target tweet = Ok (Some target) ->
       to_key target = Ok k ->
       thread_root (VList tweets) = Ok parent_id ->
       In parent_id (dict_get_default related_threads k []))).
Proof.
  split; [apply resolve_relations_ok|].
  intros related_threads Hr. split.
  - intros k. apply resolve_relations_lookup. exact Hr.
  - intros tweets tweet target parent_id k Hthread Htweet Htarget Hk Hroot.
    rewrite (resolve_relations_lookup _ _ k Hr).
    apply (referencing_In _ _ target); [|exact Hk].
    unfold edges. apply in_flat_map. exists (VList tweets). split; [exact Hthread|].
    unfold edges_of_thread. simpl. apply in_flat_map. exists tweet. split; [exact Htweet|].
    unfold edge_of. rewrite Htarget, Hroot. left. reflexivity.
Qed.

(** Tweets 2 and 3 of thread 1 both embed thread 9: thread 9 is referenced
    by thread 1 twice, and by no tweet identifier. *)
Lemma relations_use_thread_identifier_witness :
  resolve_relations sample_threads_data = Ok sample_relations /\
  dict_get_default sample_relations (KStr "9") [] = [VStr "1"; VStr "1"] /\
  referencing (KStr "9") (edges sample_threads_data) = [VStr "1"; VStr "1"].
Proof.
  split; [reflexivity|].
  pose proof (proj1 (proj2 (relations_use_thread_identifier sample_threads_data)
                       sample_relations eq_refl) (KStr "9")) as Hk.
  split; [rewrite Hk|]; reflexivity.
Defined.

(** ** The Graph Assembler *)

(** A loop that appends one result per element collects the results in
    order. *)
Lemma for_each_collect {A B : Type} (f : A -> result B) (l : list A) (acc out : list B) :
  for_each (fun (g : list B) (x : A) => f x ≫= fun n => Ok (g ++ [n])%list) l acc = Ok out ->
  exists ns, out = (acc ++ ns)%list /\ Forall2 (fun x n => f x = Ok n) l ns.
Proof.
  revert acc. induction l as [|x l IH]; intros acc Hr; simpl in Hr.
  - injection Hr as <-. exists []. rewrite app_nil_r. split; [reflexivity | constructor].
  - apply bind_ok_inv in Hr as (g1 & H1 & Hr).
    apply bind_ok_inv in H1 as (n & Hn & H1). injection H1 as <-.
    destruct (IH _ Hr) as (ns & -> & Hns).
    exists (n :: ns). rewrite <- app_assoc. split; [reflexivity|].
    constructor; assumption.
Qed.

Lemma process_threads_nodes (threads_data summaries categories : pydict value)
    (nodes : list graph_node) :
  process_threads threads_data summaries categories = Ok nodes ->
  exists related_threads,
    resolve_relations threads_data = Ok related_threads /\
    Forall2 (fun entry node => make_node summaries categories related_threads entry = Ok node)
            threads_data nodes.
Proof.
  unfold process_threads. intros Hr.
  apply bind_ok_inv in Hr as (related_threads & Hrel & Hr).
  exists related_threads. split; [exact Hrel|].
  apply for_each_collect in Hr as (ns & -> & Hns). exact Hns.
Qed.

Lemma make_node_inv (summaries categories : pydict value)
    (related_threads : pydict (list value)) (thread_id : key) (thread : value)
    (node : graph_node) :
  make_node summaries categories related_threads (thread_id, thread) = Ok node ->
  exists stats_total,
    aggregate thread = Ok stats_total /\
    node = {| node_id := thread_id;
              node_url := "https://twitter.com/Recuenco/status/" ++ py_str (of_key thread_id);
              node_replies := replies stats_total;
              node_likes := likes stats_total;
              node_bookmarks := bookmarks stats_total;
              node_views := views stats_total;
              node_summary := dict_get_default summaries thread_id (VStr "");
              node_categories :=
                split_categories (dict_get_default categories thread_id (VList []));
              node_related_threads := related_ids related_threads thread_id |}.
Proof.
  unfold make_node. intros Hr.
  apply bind_ok_inv in Hr as (stats_total & Hagg & Hr).
  injection Hr as <-. eauto.
Qed.

Lemma filter_all_false {A : Type} (f : A -> bool) (l : list A) :
  (forall x, In x l -> f x = false) -> List.filter f l = [].
Proof.
  induction l as [|x l IH]; intros Hf; simpl; [reflexivity|].
  rewrite (Hf x (or_introl eq_refl)). apply IH. intros y Hy. apply Hf. right. exact Hy.
Qed.

(** *** Well-formed threads are processed *)

Lemma process_threads_ok (threads_data summaries categories : pydict value) :
  forallb thread_ok (dict_values threads_data) = true ->
  is_ok (process_threads threads_data summaries categories) = true.
Proof.
  intros Hok. unfold process_threads. unfold_bind.
  pose proof (resolve_relations_ok _ Hok) as Hrel.
  destruct (resolve_relations threads_data) as [related_threads|]; [|discriminate].
  apply for_each_ok. intros graph_data [thread_id thread] Hentry.
  assert (Hthread : In thread (dict_values threads_data)).
  { unfold dict_values. apply in_map_iff. exists (thread_id, thread). auto. }
  pose proof (forallb_In _ _ _ Hok Hthread) as Ht.
  unfold thread_ok in Ht. destruct thread as [| | | |tweets|]; try discriminate.
  apply andb_prop in Ht as [_ Hparse].
  unfold make_node, aggregate. simpl. unfold_bind.
  rewrite (aggregate_loop_sums _ _ Hparse). reflexivity.
Qed.

(** C8. Well-formed threads are assembled into nodes, and the
    [related_threads] list of the node of a thread holds exactly the
    referencing threads recorded against the thread's identifier, the ones
    equal to that identifier left out: no element of the list equals the
    node's identifier, and when every edge that points to the thread comes
    from the thread itself the list is empty. *)
Theorem related_threads_exclude_self (threads_data summaries categories : pydict value) :
  (forallb thread_ok (dict_values threads_data) = true ->
   is_ok (process_threads threads_data summaries categories) = true) /\
  (forall nodes : list graph_node,
   process_threads threads_data summaries categories = Ok nodes ->
   exists related_threads,
     resolve_relations threads_data = Ok related_threads /\
     Forall2
       (fun entry node =>
          node_id node = fst entry /\
          node_related_threads node =
            List.filter (fun rid => negb (value_eq_key rid (fst entry)))
                        (dict_get_default related_threads (fst entry) []) /\
          dict_get_default related_threads (fst entry) [] =
            referencing (fst entry) (edges threads_data) /\
          Forall (fun rid => value_eq_key rid (node_id node) = false)
                 (node_related_threads node) /\
          ((forall e, In e (edges threads_data) ->
                      value_eq_key (fst e) (fst entry) = true ->
                      value_eq_key (snd e) (fst entry) = true) ->
           node_related_threads node = []))
       threads_data nodes).
Proof.
  split; [apply process_threads_ok|].
  intros nodes Hr. apply process_threads_nodes in Hr as (related_threads & Hrel & Hnodes).
  exists related_threads. split; [exact Hrel|].
  eapply Forall2_impl; [exact Hnodes|].
  intros [thread_id thread] node Hnode. simpl.
  apply make_node_inv in Hnode as (stats_total & _ & ->). simpl.
  unfold related_ids.
  split; [reflexivity|]. split; [reflexivity|].
  split; [apply resolve_relations_lookup; exact Hrel|].
  split.
  - apply List.Forall_forall. intros rid Hrid. apply filter_In in Hrid as [_ Hrid].
    apply negb_true_iff in Hrid. exact Hrid.
  - intros Hself. apply filter_all_false. intros rid Hrid.
    rewrite (resolve_relations_lookup _ _ thread_id Hrel) in Hrid.
    unfold referencing in Hrid. apply in_map_iff in Hrid as (e & <- & He).
    apply filter_In in He as [He Hk]. rewrite (Hself e He Hk). reflexivity.
Qed.

(** Thread 1 of the sample embeds itself once and nothing else embeds it:
    its node has no related thread; thread 9 is related to thread 1. *)
Lemma related_threads_exclude_self_witness :
  forallb thread_ok (dict_values sample_threads_data) = true /\
  process_threads sample_threads_data [] [] ≫=
    (fun nodes => Ok (map node_related_threads nodes)) =
  Ok [[]; [VStr "1"; VStr "1"]] /\
  exists nodes related_threads,
    process_threads sample_threads_data [] [] = Ok nodes /\
    resolve_relations sample_threads_data = Ok related_threads /\
    Forall2
      (fun entry node =>
         node_id node = fst entry /\
         Forall (fun rid => value_eq_key rid (node_id node) = false)
                (node_related_threads node))
      sample_threads_data nodes.
Proof.
  destruct (related_threads_exclude_self sample_threads_data [] []) as [Hok Hnodes].
  assert (Hwf : forallb thread_ok (dict_values sample_threads_data) = true).
  { vm_compute. reflexivity. }
  split; [exact Hwf|]. split; [vm_compute; reflexivity|].
  specialize (Hok Hwf).
  destruct (process_threads sample_threads_data [] []) as [nodes|] eqn:Hrun;
    [|discriminate].
  destruct (Hnodes nodes eq_refl) as (related_threads & Hrel & Hall).
  exists nodes, related_threads. split; [reflexivity|]. split; [exact Hrel|].
  eapply Forall2_impl; [exact Hall|].
  intros entry node (Hid & _ & _ & Hself & _). split; assumption.
Defined.

(** ** The Thread Aggregator: claim *)

(** C9. The totals of a thread are, for replies, likes, bookmarks and
    views, the sum from zero of the parsed stat of each of its tweets (the
    aggregation returns them exactly when every stat of every tweet
    parses); they are the stats of the thread's node; and permuting the
    tweets of the thread does not change them. *)
Theorem aggregate_sums_parsed_stats (tweets : list value) :
  (forallb tweet_parses tweets = true ->
   aggregate (VList tweets) =
     Ok (Stats (stat_sum Replies tweets) (stat_sum Likes tweets)
               (stat_sum Bookmarks tweets) (stat_sum Views tweets))) /\
  (forall t : stats, aggregate (VList tweets) = Ok t ->
   forallb tweet_parses tweets = true) /\
  (forall (summaries categories : pydict value) (related_threads : pydict (list value))
          (thread_id : key) (node : graph_node),
      make_node summaries categories related_threads (thread_id, VList tweets) = Ok node ->
      node_replies node = stat_sum Replies tweets /\
      node_likes node = stat_sum Likes tweets /\
      node_bookmarks node = stat_sum Bookmarks tweets /\
      node_views node = stat_sum Views tweets) /\
  (forall (tweets' : list value) (t : stats),
      Permutation tweets tweets' ->
      aggregate (VList tweets) = Ok t -> aggregate (VList tweets') = Ok t).
Proof.
  assert (Hsum : forall l, forallb tweet_parses l = true ->
            aggregate (VList l) =
              Ok (Stats (stat_sum Replies l) (stat_sum Likes l)
                        (stat_sum Bookmarks l) (stat_sum Views l))).
  { intros l Hp. unfold aggregate. simpl. unfold_bind.
    rewrite (aggregate_loop_sums _ _ Hp). reflexivity. }
  assert (Hparse : forall l t, aggregate (VList l) = Ok t -> forallb tweet_parses l = true).
  { intros l t Hr. unfold aggregate in Hr. simpl in Hr. unfold_bind.
    exact (aggregate_loop_parses _ _ _ Hr). }
  split; [apply Hsum|]. split; [apply Hparse|]. split.
  - intros summaries categories related_threads thread_id node Hnode.
    apply make_node_inv in Hnode as (t & Hagg & ->). simpl.
    rewrite (Hsum _ (Hparse _ _ Hagg)) in Hagg. injection Hagg as <-.
    repeat split; reflexivity.
  - intros tweets' t Hperm Hagg.
    pose proof (Hparse _ _ Hagg) as Hp.
    rewrite (Hsum _ Hp) in Hagg. injection Hagg as <-.
    rewrite (Hsum _ (forallb_perm _ _ _ Hperm Hp)).
    unfold stat_sum. rewrite !(stat_sum_from_perm 0 _ _ _ Hperm). reflexivity.
Qed.

(** Reply counts 1, 2 and 3 add up to 6, in this order and in another. *)
Lemma aggregate_sums_parsed_stats_witness :
  aggregate (VList [reply_1; reply_2; reply_3]) = Ok (Stats 6 0 0 0) /\
  aggregate (VList [reply_3; reply_1; reply_2]) = Ok (Stats 6 0 0 0).
Proof.
  destruct (aggregate_sums_parsed_stats [reply_1; reply_2; reply_3])
    as (Hsum & _ & _ & Hperm).
  assert (H123 : aggregate (VList [reply_1; reply_2; reply_3]) = Ok (Stats 6 0 0 0)).
  { rewrite Hsum; reflexivity. }
  split; [exact H123|].
  apply (Hperm [reply_3; reply_1; reply_2] (Stats 6 0 0 0)); [|exact H123].
  apply Permutation_sym.
  apply (perm_trans (perm_skip reply_3 (Permutation_refl [reply_1; reply_2]))).
  apply (perm_trans (perm_swap reply_1 reply_3 [reply_2])).
  apply perm_skip. apply perm_swap.
Defined.

(** ** The Integrity Verifier *)

Section IntegrityProperties.
Context `{Countable K}.
Implicit Types (s t : gset K) (sets : list (gset K)) (files : list (string * gset K)).

Lemma elem_of_foldl_union s sets x :
  x ∈ foldl (∪) s sets <-> x ∈ s \/ exists t, In t sets /\ x ∈ t.
Proof.
  revert s. induction sets as [|t0 sets IH]; intros s; simpl.
  - split; [auto | intros [Hx | (t & [] & _)]; exact Hx].
  - rewrite IH, elem_of_union. split.
    + intros [[Hx | Hx] | (t & Ht & Hx)]; eauto.
    + intros [Hx | (t & [<- | Ht] & Hx)]; eauto.
Qed.

Lemma elem_of_foldl_intersection s sets x :
  x ∈ foldl (∩) s sets <-> x ∈ s /\ forall t, In t sets -> x ∈ t.
Proof.
  revert s. induction sets as [|t0 sets IH]; intros s; simpl.
  - split; [intros Hx; split; [exact Hx | intros t []] | intros [Hx _]; exact Hx].
  - rewrite IH, elem_of_intersection. split.
    + intros [[Hs H0] Hall]. split; [exact Hs|]. intros t [<- | Ht]; auto.
    + intros [Hs Hall]. split; [split; [exact Hs | apply Hall; left; reflexivity]|].
      intros t Ht. apply Hall. right. exact Ht.
Qed.

(** The intersection and the union of a non-empty list of sets have the
    same size exactly when all the sets are equal. *)
Lemma same_size_iff_all_equal s sets :
  size (foldl (∩) s sets) = size (foldl (∪) s sets) <->
  (forall t u, In t (s :: sets) -> In u (s :: sets) -> t = u).
Proof.
  split.
  - intros Hsize.
    assert (Hsub : foldl (∩) s sets ⊆ foldl (∪) s sets).
    { intros x Hx. apply elem_of_foldl_intersection in Hx as [Hx _].
      apply elem_of_foldl_union. left. exact Hx. }
    assert (Heq : foldl (∩) s sets = foldl (∪) s sets).
    { apply set_subseteq_size_eq; [exact Hsub | lia]. }
    assert (Hall : forall t, In t (s :: sets) -> t = foldl (∪) s sets).
    { intros t Ht. apply set_eq. intros x. split.
      - intros Hx. apply elem_of_foldl_union.
        destruct Ht as [<- | Ht]; [left; exact Hx | right; eauto].
      - intros Hx. rewrite <- Heq in Hx.
        apply elem_of_foldl_intersection in Hx as [Hs Hrest].
        destruct Ht as [<- | Ht]; [exact Hs | apply Hrest, Ht]. }
    intros t u Ht Hu. rewrite (Hall t Ht), (Hall u Hu). reflexivity.
  - intros Hall. f_equal. apply set_eq. intros x.
    rewrite elem_of_foldl_intersection, elem_of_foldl_union. split.
    + intros [Hx _]. left. exact Hx.
    + assert (Hs : forall t, In t sets -> t = s).
      { intros t Ht. apply Hall; [right; exact Ht | left; reflexivity]. }
      intros [Hx | (t & Ht & Hx)].
      * split; [exact Hx|]. intros t Ht. rewrite (Hs t Ht). exact Hx.
      * rewrite (Hs t Ht) in Hx. split; [exact Hx|].
        intros u Hu. rewrite (Hs u Hu). exact Hx.
Qed.

(** The lines of the report are those of the files that miss something,
    in the order of the files. *)
Lemma missing_lines_filter (all_ids_union : gset K) files :
  missing_lines all_ids_union files =
  map (fun f => MissingIn (fst f) (all_ids_union ∖ snd f))
      (List.filter (fun f => negb (bool_decide (all_ids_union ∖ snd f = ∅))) files).
Proof.
  unfold missing_lines. induction files as [|[filename ids] files IH]; simpl; [reflexivity|].
  rewrite IH. destruct (bool_decide (all_ids_union ∖ ids = ∅)); reflexivity.
Qed.

(** What [check_files] reports for at least one file. *)
Lemma check_files_report (f0 : string * gset K) files :
  let all_ids_union := foldl (∪) (snd f0) (map snd files) in
  let intersection_ids := foldl (∩) (snd f0) (map snd files) in
  check_files (f0 :: files) =
    if Nat.eqb (size intersection_ids) (size all_ids_union)
    then Ok [AllPresent]
    else Ok (MissingHeader :: missing_lines all_ids_union (f0 :: files)).
Proof. reflexivity. Qed.
End IntegrityProperties.

(** C3. For the identifier sets of at least one artifact the verifier
    reports full consistency exactly when the intersection of all sets has
    the size of their union, which is when all the sets are equal.
    Otherwise it reports, after a heading, one line for every artifact
    whose set differs from the union, in order, with the difference (the
    identifiers of some artifact that this one lacks) as the missing
    identifiers, and no line for an artifact that lacks nothing.  Four
    sets equal to {1,2,3} are consistent; when exactly one of them is
    {1,3}, the report names that artifact alone, with {2} missing. *)
Theorem integrity_verifier_report :
  (forall (K : Type) (EqK : EqDecision K) (CountK : Countable K)
          (f0 : string * gset K) (files : list (string * gset K)),
      let all_files := f0 :: files in
      let all_ids_union := foldl (∪) (snd f0) (map snd files) in
      let intersection_ids := foldl (∩) (snd f0) (map snd files) in
      (check_files all_files = Ok [AllPresent] <->
       size intersection_ids = size all_ids_union) /\
      (size intersection_ids = size all_ids_union <->
       forall f g, In f all_files -> In g all_files -> snd f = snd g) /\
      (size intersection_ids <> size all_ids_union ->
       check_files all_files =
         Ok (MissingHeader ::
             map (fun f => MissingIn (fst f) (all_ids_union ∖ snd f))
                 (List.filter (fun f => negb (bool_decide (all_ids_union ∖ snd f = ∅)))
                              all_files))) /\
      (forall f x, In f all_files ->
         (x ∈ all_ids_union ∖ snd f <->
          (x ∉ snd f) /\ exists g, In g all_files /\ x ∈ snd g))) /\
  main ids_123 ids_123 ids_123 ids_123 = Ok [AllPresent] /\
  main ids_13 ids_123 ids_123 ids_123 = Ok [MissingHeader; MissingIn "turras.csv" ids_2] /\
  main ids_123 ids_13 ids_123 ids_123 = Ok [MissingHeader; MissingIn "tweets_exam.json" ids_2] /\
  main ids_123 ids_123 ids_13 ids_123 = Ok [MissingHeader; MissingIn "tweets_map.json" ids_2] /\
  main ids_123 ids_123 ids_123 ids_13 = Ok [MissingHeader; MissingIn "tweets_summary.json" ids_2].
Proof.
  split; [|repeat split; vm_compute; reflexivity].
  intros K EqK CountK f0 files all_files all_ids_union intersection_ids.
  pose proof (check_files_report f0 files) as Hreport. cbv zeta in Hreport.
  fold all_files all_ids_union intersection_ids in Hreport.
  split; [|split; [|split]].
  - rewrite Hreport.
    destruct (Nat.eqb (size intersection_ids) (size all_ids_union)) eqn:Hsize.
    + apply Nat.eqb_eq in Hsize. split; [intros _; exact Hsize | reflexivity].
    + apply Nat.eqb_neq in Hsize. split; [discriminate | intros Heq; destruct (Hsize Heq)].
  - unfold intersection_ids, all_ids_union, all_files.
    rewrite same_size_iff_all_equal. split.
    + intros Hall f g Hf Hg. apply Hall.
      * change (In (snd f) (map snd (f0 :: files))). apply in_map. exact Hf.
      * change (In (snd g) (map snd (f0 :: files))). apply in_map. exact Hg.
    + intros Hall t u Ht Hu.
      change (In t (map snd (f0 :: files))) in Ht.
      change (In u (map snd (f0 :: files))) in Hu.
      apply in_map_iff in Ht as (f & <- & Hf). apply in_map_iff in Hu as (g & <- & Hg).
      apply Hall; assumption.
  - intros Hsize. rewrite Hreport. apply Nat.eqb_neq in Hsize. rewrite Hsize.
    rewrite missing_lines_filter. reflexivity.
  - intros f x Hf. rewrite elem_of_difference. unfold all_ids_union.
    rewrite elem_of_foldl_union. split.
    + intros [Hx Hnot]. split; [exact Hnot|].
      destruct Hx as [Hx | (t & Ht & Hx)].
      * exists f0. split; [left; reflexivity | exact Hx].
      * apply in_map_iff in Ht as (g & <- & Hg). exists g. split; [right; exact Hg | exact Hx].
    + intros [Hnot (g & [<- | Hg] & Hx)]; split; try exact Hnot.
      * left. exact Hx.
      * right. exists (snd g). split; [apply in_map; exact Hg | exact Hx].
Qed.

Lemma integrity_verifier_report_witness :
  size (ids_13 ∩ ids_123 ∩ ids_123 ∩ ids_123) <> size (ids_13 ∪ ids_123 ∪ ids_123 ∪ ids_123) /\
  main ids_13 ids_123 ids_123 ids_123 =
    Ok [MissingHeader; MissingIn "turras.csv" ids_2].
Proof.
  assert (Hsize : size (ids_13 ∩ ids_123 ∩ ids_123 ∩ ids_123)
                  <> size (ids_13 ∪ ids_123 ∪ ids_123 ∪ ids_123)).
  { vm_compute. discriminate. }
  split; [exact Hsize|].
  destruct (proj1 integrity_verifier_report string _ _ ("turras.csv", ids_13)
              [("tweets_exam.json", ids_123); ("tweets_map.json", ids_123);
               ("tweets_summary.json", ids_123)]) as (_ & _ & Hlines & _).
  unfold main. rewrite (Hlines Hsize). vm_compute. reflexivity.
Defined.

(** ** Category normalisation *)

Lemma split_on_nonempty (sep : ascii) (s : string) : split_on sep s <> [].
Proof.
  destruct s as [|c s]; simpl; [discriminate|].
  destruct (Ascii.eqb c sep); [discriminate|].
  destruct (split_on sep s); discriminate.
Qed.

(** Splitting loses nothing: the pieces joined by the separator are the
    text again. *)
Lemma join_split_on (sep : ascii) (s : string) :
  join (String sep EmptyString) (split_on sep s) = s.
Proof.
  induction s as [|c s IH]; simpl; [reflexivity|].
  destruct (Ascii.eqb c sep) eqn:Hc.
  - apply Ascii.eqb_eq in Hc. subst c.
    pose proof (split_on_nonempty sep s) as Hne.
    destruct (split_on sep s) as [|piece pieces]; [destruct (Hne eq_refl)|].
    simpl in *. rewrite IH. reflexivity.
  - pose proof (split_on_nonempty sep s) as Hne.
    destruct (split_on sep s) as [|piece pieces]; [destruct (Hne eq_refl)|].
    destruct pieces as [|piece' pieces]; simpl in *; rewrite <- IH; reflexivity.
Qed.

(** No piece holds the separator. *)
Lemma split_on_pieces (sep : ascii) (s : string) :
  List.Forall (fun piece => has_char sep piece = false) (split_on sep s).
Proof.
  induction s as [|c s IH]; simpl.
  - constructor; [reflexivity | constructor].
  - destruct (Ascii.eqb c sep) eqn:Hc.
    + constructor; [reflexivity | exact IH].
    + destruct (split_on sep s) as [|piece pieces]; [repeat constructor|].
      * unfold has_char. simpl. rewrite Ascii.eqb_sym, Hc. reflexivity.
      * inversion IH as [|? ? Hpiece Hpieces]; subst.
        constructor; [|exact Hpieces].
        unfold has_char in *. simpl. rewrite Ascii.eqb_sym, Hc. exact Hpiece.
Qed.

(** C2, as stated, fails: the labels are not trimmed.  The string [a, b]
    normalises to the labels [a] and [ b], the second with its leading
    space, in the loader and in the assembler alike. *)
Lemma split_categories_keeps_spaces :
  split_categories (VStr "a, b") = VList [VStr "a"; VStr " b"] /\
  read_json (VList sample_categories) =
    Ok [(KStr "1", VList [VStr "a"; VStr " b"]); (KStr "2", VList [VStr "a"; VStr "b"])] /\
  process_threads sample_threads_data [] [(KStr "1", VStr "a, b")] ≫=
    (fun nodes => Ok (map node_categories nodes)) =
  Ok [VList [VStr "a"; VStr " b"]; VList []].
Proof. repeat split; vm_compute; reflexivity. Qed.

(** C2 (amended). Normalisation splits a comma-joined string at its commas
    and keeps every piece as it is, surrounding white space included: the
    pieces hold no comma and, joined by commas, give the string back.  A
    value that is no string, an already-split list in particular, is
    passed through unchanged.  The loader stores the normalised categories
    of an element, and the assembler puts the normalised entry of the
    category mapping (the empty list when there is none) in the node. *)
Theorem category_normalization :
  (forall s : string,
      split_categories (VStr s) = VList (map VStr (split_on "," s)) /\
      join "," (split_on "," s) = s /\
      List.Forall (fun piece => has_char "," piece = false) (split_on "," s)) /\
  (forall l : list value, split_categories (VList l) = VList l) /\
  (forall (data : list value) (d : pydict value),
      read_categories data = Ok d ->
      forall k v, In (k, v) d ->
      exists item c, In item data /\ getitem item "categories" = Ok c /\
                     v = split_categories c) /\
  (forall (summaries categories : pydict value) (related_threads : pydict (list value))
          (thread_id : key) (thread : value) (node : graph_node),
      make_node summaries categories related_threads (thread_id, thread) = Ok node ->
      node_categories node =
        split_categories (dict_get_default categories thread_id (VList []))) /\
  split_categories (VStr "a, b") = VList [VStr "a"; VStr " b"] /\
  split_categories (VList [VStr "a"; VStr "b"]) = VList [VStr "a"; VStr "b"].
Proof.
  split.
  { intros s. split; [reflexivity|].
    split; [apply join_split_on | apply split_on_pieces]. }
  split; [reflexivity|]. split.
  { intros data d Hd k v Hin. unfold read_categories in Hd.
    destruct (dict_comprehension_sound _ _ _ Hd k v Hin) as (item & k0 & Hitem & He & _).
    apply category_entry_inv in He as (id & c & _ & _ & Hc & ->). eauto. }
  split.
  { intros summaries categories related_threads thread_id thread node Hnode.
    apply make_node_inv in Hnode as (t & _ & ->). reflexivity. }
  split; reflexivity.
Qed.

Lemma category_normalization_witness :
  read_categories sample_categories =
    Ok [(KStr "1", VList [VStr "a"; VStr " b"]); (KStr "2", VList [VStr "a"; VStr "b"])] /\
  exists item c, In item sample_categories /\ getitem item "categories" = Ok c /\
                 VList [VStr "a"; VStr " b"] = split_categories c.
Proof.
  split; [reflexivity|].
  destruct category_normalization as (_ & _ & Hload & _).
  apply (Hload sample_categories _ eq_refl (KStr "1")). left. reflexivity.
Defined.

(** * Further properties *)

(** ** The Stat Parser on numbers *)

(** X1. A stat given as an integer is returned as it is when the integer
    has at most 4300 decimal digits, the limit of the conversion to text;
    on a longer integer [parse_stat] raises [ValueError]. *)
Theorem parse_stat_of_int (n : Z) :
  parse_stat (VInt n) =
  if Nat.leb (int_digits n) int_max_str_digits then Ok n else Raise ValueError.
Proof.
  rewrite parse_stat_str. unfold str. cbn [str_converts].
  destruct (Nat.leb (int_digits n) int_max_str_digits) eqn:Hlimit; [|reflexivity].
  unfold_bind. cbn [py_str repr]. rewrite parse_text_of_int, Hlimit. reflexivity.
Qed.

(** ** The Stat Parser and separators *)

Lemma chars_app (a b : string) : chars (a ++ b) = (chars a ++ chars b)%list.
Proof. induction a as [|c a IH]; simpl; [reflexivity | rewrite <- IH; reflexivity]. Qed.

Lemma remove_char_idem (c : ascii) (s : string) :
  remove_char c (remove_char c s) = remove_char c s.
Proof.
  unfold remove_char. rewrite chars_text. f_equal.
  induction (chars s) as [|x l IH]; simpl; [reflexivity|].
  destruct (negb (Ascii.eqb c x)) eqn:Hx; simpl; rewrite ?Hx, IH; reflexivity.
Qed.

(** Only the text without separators matters. *)
Lemma parse_stat_separators (s : string) :
  parse_stat (VStr s) = parse_stat (VStr (remove_char "," s)).
Proof.
  rewrite !parse_stat_text. cbn [py_str]. unfold parse_text.
  rewrite remove_char_idem. reflexivity.
Qed.

(** X2. A decimal numeral, with or without a minus sign and with thousands
    separators wherever they stand, parses to the value of its digits when
    it has at most 4300 digits, leading zeros counted; a longer one raises
    [ValueError]. *)
Theorem parse_stat_numeral (s : string) (neg : bool) (d : ascii) (ds : list ascii) :
  remove_char "," s = text ((if neg then ["-"%char] else []) ++ d :: ds) ->
  forallb is_digit (d :: ds) = true ->
  parse_stat (VStr s) =
    if Nat.leb (length (d :: ds)) int_max_str_digits
    then Ok (if neg then - digits_val (d :: ds) else digits_val (d :: ds))
    else Raise ValueError.
Proof.
  intros Hs Hds. rewrite parse_stat_separators, Hs, parse_stat_text.
  cbn [py_str]. apply parse_text_digits. exact Hds.
Qed.

Lemma parse_stat_numeral_witness :
  parse_stat (VStr "-1,2,34,") = Ok (-1234) /\
  parse_stat (VStr (text (repeat "7"%char 4301))) = Raise ValueError.
Proof.
  split.
  - exact (parse_stat_numeral "-1,2,34," true "1" ["2"; "3"; "4"]%char eq_refl eq_refl).
  - apply (parse_stat_numeral (text (repeat "7"%char 4301)) false "7" (repeat "7"%char 4300));
      vm_compute; reflexivity.
Defined.

(** X3. A separator changes nothing wherever it is inserted: the text with
    a comma between [a] and [b] parses like the text without it, be the
    result a number or an exception. *)
Theorem parse_stat_ignores_separator (a b : string) :
  parse_stat (VStr (a ++ "," ++ b)) = parse_stat (VStr (a ++ b)).
Proof.
  rewrite (parse_stat_separators (a ++ "," ++ b)), (parse_stat_separators (a ++ b)).
  do 2 f_equal. unfold remove_char. rewrite !chars_app, !List.filter_app. reflexivity.
Qed.

(** ** The exceptions of the Stat Parser *)

Lemma py_int_raises (s : string) (e : exn) : py_int s = Raise e -> e = ValueError.
Proof.
  unfold py_int. destruct (take_sign (strip (chars s))) as [neg body].
  destruct (drop_underscores None body) as [[|d ds]|]; try congruence.
  destruct (forallb is_digit (d :: ds)); [|congruence].
  destruct (Nat.leb (length (d :: ds)) int_max_str_digits); congruence.
Qed.

Lemma py_float_raises (s : string) (e : exn) : py_float s = Raise e -> e = ValueError.
Proof.
  unfold py_float. destruct (drop_underscores None (strip (chars s))) as [l|]; [|congruence].
  destruct (take_sign l) as [neg body].
  destruct (parse_inf_or_nan neg body); [discriminate|].
  destruct (parse_decimal body) as [[m e']|]; congruence.
Qed.

Lemma int_of_float_raises (x : spec_float) (e : exn) :
  int_of_float x = Raise e -> e = ValueError \/ e = OverflowError.
Proof. destruct x; simpl; intros Hr; try discriminate; injection Hr as <-; auto. Qed.

(** X4. Whatever the raw value, [parse_stat] raises nothing but
    [ValueError] (text that is no number) and [OverflowError] (an infinite
    product). *)
Theorem parse_stat_raises_only (v : value) (e : exn) :
  parse_stat v = Raise e -> e = ValueError \/ e = OverflowError.
Proof.
  rewrite parse_stat_text. unfold parse_text. cbv zeta.
  destruct (has_char "K" (remove_char "," (py_str v))).
  { intros Hr. apply bind_raise_inv in Hr as [Hr | (x & _ & Hr)].
    - left. eapply py_float_raises, Hr.
    - eapply int_of_float_raises, Hr. }
  destruct (has_char "M" (remove_char "," (py_str v))).
  { intros Hr. apply bind_raise_inv in Hr as [Hr | (x & _ & Hr)].
    - left. eapply py_float_raises, Hr.
    - eapply int_of_float_raises, Hr. }
  destruct (String.eqb (remove_char "," (py_str v)) ""); [discriminate|].
  intros Hr. left. eapply py_int_raises, Hr.
Qed.

Lemma parse_stat_raises_only_witness :
  parse_stat (VStr "1e999K") = Raise OverflowError /\
  (OverflowError = ValueError \/ OverflowError = OverflowError).
Proof.
  assert (Hr : parse_stat (VStr "1e999K") = Raise OverflowError) by (vm_compute; reflexivity).
  split; [exact Hr|]. exact (parse_stat_raises_only _ _ Hr).
Defined.

(** ** Dictionaries built by comprehension *)

Lemma dict_set_distinct {V : Type} (d : pydict V) (k : key) (v : V) :
  keys_distinct d = true -> keys_distinct (dict_set d k v) = true.
Proof.
  induction d as [|[k0 v0] d IH]; simpl; [reflexivity|].
  destruct (dict_get d k0) eqn:H0; [discriminate|]. intros Hd.
  destruct (key_eqb k0 k) eqn:Hk; simpl.
  - rewrite H0. exact Hd.
  - rewrite dict_get_set, (key_eqb_sym k k0), Hk, H0. apply IH, Hd.
Qed.

Lemma dict_comprehension_distinct {A V : Type} (entry : A -> result (option (key * V)))
    (data : list A) (d : pydict V) :
  dict_comprehension entry data = Ok d -> keys_distinct d = true.
Proof.
  unfold dict_comprehension.
  apply (for_each_invariant (fun d => keys_distinct d = true)); [|reflexivity].
  intros s x s' _ Hs Hbody. apply bind_ok_inv in Hbody as (e & _ & Hs').
  injection Hs' as <-. destruct e as [[k v]|]; [apply dict_set_distinct|]; exact Hs.
Qed.

Lemma read_json_distinct (data : value) (d : pydict value) :
  read_json data = Ok d -> keys_distinct d = true.
Proof.
  unfold read_json. destruct data as [| | | |l|]; try discriminate. intros Hr.
  apply bind_ok_inv in Hr as (first & _ & Hr).
  apply bind_ok_inv in Hr as (is_cat & _ & Hr).
  destruct is_cat; [eapply dict_comprehension_distinct, Hr|].
  apply bind_ok_inv in Hr as (is_sum & _ & Hr).
  destruct is_sum; eapply dict_comprehension_distinct, Hr.
Qed.

(** X5. The mapping [read_json] returns has no two equal keys: an
    identifier that occurs several times in the file is one entry. *)
Theorem read_json_keys_distinct (data : value) (d : pydict value) :
  read_json data = Ok d -> keys_distinct d = true.
Proof. apply read_json_distinct. Qed.

Lemma read_json_keys_distinct_witness :
  read_json (VList sample_duplicates) =
    Ok [(KStr "1", VStr "new"); (KStr "2", VStr "other")] /\
  keys_distinct [(KStr "1", VStr "new"); (KStr "2", VStr "other")] = true.
Proof.
  assert (Hr : read_json (VList sample_duplicates) =
                 Ok [(KStr "1", VStr "new"); (KStr "2", VStr "other")]) by reflexivity.
  split; [exact Hr|]. exact (read_json_keys_distinct _ _ Hr).
Defined.

(** X6. In a comprehension the last element with a given key wins: the
    value stored under a key is the one of the last element of the data
    that produces an equal key (the key keeps the position of its first
    occurrence). *)
Theorem comprehension_last_entry_wins {A V : Type}
    (entry : A -> result (option (key * V))) (l1 l2 : list A) (x : A)
    (d : pydict V) (k : key) (v : V) :
  dict_comprehension entry (l1 ++ x :: l2) = Ok d ->
  entry x = Ok (Some (k, v)) ->
  (forall y k' v', In y l2 -> entry y = Ok (Some (k', v')) -> key_eqb k' k = false) ->
  dict_get d k = Some v.
Proof.
  unfold dict_comprehension. intros Hrun Hx Hlater.
  rewrite for_each_app in Hrun. apply bind_ok_inv in Hrun as (d1 & _ & Hrun).
  simpl in Hrun. rewrite Hx in Hrun. unfold_bind. revert Hrun.
  apply (for_each_invariant (fun d => dict_get d k = Some v)).
  - intros s y s' Hy Hs Hbody.
    destruct (entry y) as [[[k' v']|]|] eqn:Hey; try discriminate; injection Hbody as <-.
    + rewrite dict_get_set, (Hlater y k' v' Hy Hey). exact Hs.
    + exact Hs.
  - rewrite dict_get_set, key_eqb_refl. reflexivity.
Qed.

Lemma comprehension_last_entry_wins_witness :
  dict_comprehension summary_entry sample_duplicates =
    Ok [(KStr "1", VStr "new"); (KStr "2", VStr "other")] /\
  dict_get [(KStr "1", VStr "new"); (KStr "2", VStr "other")] (KStr "1") = Some (VStr "new").
Proof.
  split; [reflexivity|].
  apply (comprehension_last_entry_wins summary_entry
           [VDict [("id", VStr "1"); ("summary", VStr "old")]]
           [VDict [("id", VStr "2"); ("summary", VStr "other")]]
           (VDict [("id", VStr "1"); ("summary", VStr "new")])).
  - reflexivity.
  - reflexivity.
  - intros y k' v' [<- | []] Hy. vm_compute in Hy. injection Hy as <- _. reflexivity.
Defined.

(** ** The node list *)

Lemma make_nodes_ids (summaries categories : pydict value)
    (related_threads : pydict (list value)) (threads_data : pydict value)
    (nodes : list graph_node) :
  Forall2 (fun entry node => make_node summaries categories related_threads entry = Ok node)
          threads_data nodes ->
  map node_id nodes = map fst threads_data.
Proof.
  induction 1 as [|[thread_id thread] node td ns Hnode _ IH]; simpl; [reflexivity|].
  apply make_node_inv in Hnode as (t & _ & ->). simpl. rewrite IH. reflexivity.
Qed.

(** X7. [process_threads] returns one node per entry of [threads_data], in
    the order of the entries, each with the identifier of its entry, the
    URL made of the fixed base and the identifier, the summary stored
    under the identifier (the empty string when there is none) and the
    categories stored under it (the empty list when there are none). *)
Theorem process_threads_one_node_per_thread
    (threads_data summaries categories : pydict value) (nodes : list graph_node) :
  process_threads threads_data summaries categories = Ok nodes ->
  map node_id nodes = map fst threads_data /\
  List.Forall
    (fun node =>
       node_url node =
         "https://twitter.com/Recuenco/status/" ++ py_str (of_key (node_id node)) /\
       (forall s, dict_get summaries (node_id node) = Some s -> node_summary node = s) /\
       (dict_get summaries (node_id node) = None -> node_summary node = VStr "") /\
       (dict_get categories (node_id node) = None -> node_categories node = VList []))
    nodes.
Proof.
  intros Hr. apply process_threads_nodes in Hr as (related_threads & _ & Hnodes).
  split; [eapply make_nodes_ids, Hnodes|].
  induction Hnodes as [|[thread_id thread] node td ns Hnode _ IH]; constructor; [|exact IH].
  apply make_node_inv in Hnode as (t & _ & ->). simpl. unfold dict_get_default.
  split; [reflexivity|]. split; [intros s ->; reflexivity|].
  split; intros ->; reflexivity.
Qed.

Lemma process_threads_one_node_per_thread_witness :
  process_threads sample_threads_data [(KStr "9", VStr "ninth")] [] ≫=
    (fun nodes => Ok (map (fun n => (node_id n, node_url n, node_summary n, node_categories n))
                          nodes)) =
  Ok [(KStr "1", "https://twitter.com/Recuenco/status/1", VStr "", VList []);
      (KStr "9", "https://twitter.com/Recuenco/status/9", VStr "ninth", VList [])] /\
  exists nodes,
    process_threads sample_threads_data [(KStr "9", VStr "ninth")] [] = Ok nodes /\
    map node_id nodes = map fst sample_threads_data.
Proof.
  split; [vm_compute; reflexivity|].
  destruct (process_threads sample_threads_data [(KStr "9", VStr "ninth")] [])
    as [nodes|] eqn:Hr; [|vm_compute in Hr; discriminate].
  exists nodes. split; [reflexivity|].
  exact (proj1 (process_threads_one_node_per_thread _ _ _ _ Hr)).
Defined.

(** ** The graph is closed *)

Lemma dict_get_In {V : Type} (d : pydict V) (k : key) (v : V) :
  dict_get d k = Some v -> exists k', In (k', v) d /\ key_eqb k' k = true.
Proof.
  induction d as [|[k0 v0] d IH]; simpl; [discriminate|].
  destruct (key_eqb k0 k) eqn:H0.
  - intros Hv. injection Hv as <-. exists k0. auto.
  - intros Hv. destruct (IH Hv) as (k' & Hin & Hk'). exists k'. auto.
Qed.

Lemma Forall2_In_r {A B : Type} (P : A -> B -> Prop) (l : list A) (l' : list B) (y : B) :
  Forall2 P l l' -> In y l' -> exists x, In x l /\ P x y.
Proof.
  induction 1 as [|x y' l l' Hxy _ IH]; intros Hy; [destruct Hy|].
  destruct Hy as [<- | Hy]; [exists x; auto with datatypes|].
  destruct (IH Hy) as (x' & Hx' & Hp). exists x'. auto with datatypes.
Qed.

(** The source of every edge is the identifier of a thread. *)
Lemma edges_sources (threads_data : pydict value) (e : value * value) :
  In e (edges threads_data) ->
  exists thread, In thread (dict_values threads_data) /\ thread_root thread = Ok (snd e).
Proof.
  unfold edges. intros He. apply in_flat_map in He as (thread & Hthread & He).
  exists thread. split; [exact Hthread|].
  unfold edges_of_thread in He. destruct (iter thread) as [tweets|]; [|destruct He].
  apply in_flat_map in He as (tweet & _ & He). unfold edge_of in He.
  destruct (embed_target tweet) as [[target|]|]; try destruct He.
  destruct (thread_root thread) as [parent_id|]; [|destruct He].
  destruct He as [<- | []]. reflexivity.
Qed.

(** X8. The graph built from a thread file is closed: every identifier in
    the [related_threads] list of a node equals the identifier of a node
    of the graph (and, by the self-exclusion, not the node's own). *)
Theorem related_threads_name_nodes (data : list value)
    (threads_data summaries categories : pydict value) (nodes : list graph_node) :
  read_threads data = Ok threads_data ->
  process_threads threads_data summaries categories = Ok nodes ->
  forall node rid,
    In node nodes -> In rid (node_related_threads node) ->
    value_eq_key rid (node_id node) = false /\
    exists node', In node' nodes /\ value_eq_key rid (node_id node') = true.
Proof.
  intros Hload Hr node rid Hnode Hrid.
  pose proof Hr as Hr'.
  apply process_threads_nodes in Hr' as (related_threads & Hrel & Hnodes).
  pose proof (make_nodes_ids _ _ _ _ _ Hnodes) as Hids.
  assert (Hlist : node_related_threads node =
                  List.filter (fun r => negb (value_eq_key r (node_id node)))
                              (referencing (node_id node) (edges threads_data))).
  { destruct (Forall2_In_r _ _ _ _ Hnodes Hnode) as ([thread_id thread] & _ & Hn).
    apply make_node_inv in Hn as (t & _ & ->). simpl. unfold related_ids.
    rewrite (resolve_relations_lookup _ _ thread_id Hrel). reflexivity. }
  rewrite Hlist in Hrid. apply filter_In in Hrid as [Hrid Hself].
  apply negb_true_iff in Hself. split; [exact Hself|].
  unfold referencing in Hrid. apply in_map_iff in Hrid as (e & <- & He).
  apply filter_In in He as [He _].
  apply edges_sources in He as (thread & Hthread & Hroot).
  unfold dict_values in Hthread. apply in_map_iff in Hthread as ([k v] & Hv & Hkv).
  simpl in Hv. subst v.
  unfold read_threads in Hload.
  destruct (dict_comprehension_sound _ _ _ Hload k thread Hkv) as (sub & k0 & _ & Hentry & Hk).
  apply thread_entry_inv in Hentry as (-> & t & ts & id & -> & Hid & Hk0).
  unfold thread_root in Hroot. simpl in Hroot. unfold_bind. rewrite Hid in Hroot.
  injection Hroot as <-.
  assert (Hin : In k (map node_id nodes)).
  { rewrite Hids. apply in_map_iff. exists (k, VList (t :: ts)). auto. }
  apply in_map_iff in Hin as (node' & Hk' & Hnode').
  exists node'. split; [exact Hnode'|]. rewrite Hk'.
  eapply value_eq_key_of; eauto.
Qed.

Lemma related_threads_name_nodes_witness :
  read_threads sample_threads = Ok sample_threads_data /\
  forall nodes, process_threads sample_threads_data [] [] = Ok nodes ->
  forall node rid,
    In node nodes -> In rid (node_related_threads node) ->
    value_eq_key rid (node_id node) = false /\
    exists node', In node' nodes /\ value_eq_key rid (node_id node') = true.
Proof.
  split; [reflexivity|]. intros nodes.
  apply (related_threads_name_nodes sample_threads). reflexivity.
Defined.

(** ** Categories from the loader *)

Lemma split_categories_idem (c : value) :
  split_categories (split_categories c) = split_categories c.
Proof. destruct c; reflexivity. Qed.

(** X9. Normalisation is idempotent, so the categories the loader stored
    are not split again by the assembler: the node of a thread carries the
    entry of the loaded category mapping as it is (the empty list when the
    thread has none). *)
Theorem loaded_categories_pass_through (data : list value)
    (summaries categories : pydict value) (related_threads : pydict (list value))
    (thread_id : key) (thread : value) (node : graph_node) :
  read_categories data = Ok categories ->
  make_node summaries categories related_threads (thread_id, thread) = Ok node ->
  node_categories node = dict_get_default categories thread_id (VList []).
Proof.
  intros Hload Hnode. apply make_node_inv in Hnode as (t & _ & ->). simpl.
  unfold dict_get_default. destruct (dict_get categories thread_id) as [v|] eqn:Hv;
    [|reflexivity].
  apply dict_get_In in Hv as (k' & Hin & _).
  unfold read_categories in Hload.
  destruct (dict_comprehension_sound _ _ _ Hload k' v Hin) as (item & k0 & _ & He & _).
  apply category_entry_inv in He as (id & c & _ & _ & _ & ->).
  apply split_categories_idem.
Qed.

Lemma loaded_categories_pass_through_witness :
  exists node,
    read_categories sample_categories =
      Ok [(KStr "1", VList [VStr "a"; VStr " b"]); (KStr "2", VList [VStr "a"; VStr "b"])] /\
    make_node [] [(KStr "1", VList [VStr "a"; VStr " b"]); (KStr "2", VList [VStr "a"; VStr "b"])]
              [] (KStr "1", VList [reply_1]) = Ok node /\
    node_categories node = VList [VStr "a"; VStr " b"].
Proof.
  assert (Hload : read_categories sample_categories =
            Ok [(KStr "1", VList [VStr "a"; VStr " b"]); (KStr "2", VList [VStr "a"; VStr "b"])])
    by reflexivity.
  destruct (make_node [] [(KStr "1", VList [VStr "a"; VStr " b"]);
                          (KStr "2", VList [VStr "a"; VStr "b"])]
                      [] (KStr "1", VList [reply_1])) as [node|] eqn:Hnode;
    [|vm_compute in Hnode; discriminate].
  exists node. split; [exact Hload|]. split; [reflexivity|].
  rewrite (loaded_categories_pass_through _ _ _ _ _ _ _ Hload Hnode). reflexivity.
Defined.

(** ** The whole of [create_graph.main] *)

Lemma read_json_threads_eq (first : value) (rest : list value) :
  forallb thread_item (first :: rest) = true ->
  read_json (VList (first :: rest)) = read_threads (first :: rest).
Proof.
  intros Hw. pose proof (forallb_In _ _ first Hw (or_introl eq_refl)) as Hf.
  unfold read_json. simpl getitem_0. unfold_bind.
  unfold thread_item in Hf. destruct first as [| | | |tweets|]; try discriminate.
  apply andb_prop in Hf as [Hd _].
  rewrite !(contains_objects _ _ Hd). reflexivity.
Qed.

(** X10. On three well-formed, non-empty documents (thread lists of tweet
    objects, without an integer beyond the digit limit, whose stats parse
    and whose embeds can be recorded; summary objects; category objects)
    [create_graph.main] raises nothing and returns a graph. *)
Theorem create_graph_main_ok (t0 s0 c0 : value) (ts ss cs : list value) :
  forallb thread_wf (t0 :: ts) = true ->
  forallb summary_item (s0 :: ss) = true ->
  forallb category_item (c0 :: cs) = true ->
  is_ok (create_graph_main (VList (t0 :: ts)) (VList (s0 :: ss)) (VList (c0 :: cs))) = true.
Proof.
  intros Ht Hs Hc. unfold create_graph_main. unfold_bind.
  assert (Hitems : forallb thread_item (t0 :: ts) = true).
  { rewrite forallb_forall in *. intros x Hx. specialize (Ht x Hx).
    unfold thread_wf in Ht. apply andb_prop in Ht as [Ht _].
    apply andb_prop in Ht as [-> _]. reflexivity. }
  rewrite (read_json_threads_eq _ _ Hitems).
  pose proof (read_json_threads_ok _ _ Hitems) as Hload.
  rewrite (read_json_threads_eq _ _ Hitems) in Hload.
  destruct (read_threads (t0 :: ts)) as [threads_data|] eqn:Hthreads; [|discriminate].
  pose proof (read_json_summaries_ok _ _ Hs) as Hsum.
  destruct (read_json (VList (s0 :: ss))) as [summaries|]; [|discriminate].
  pose proof (read_json_categories_ok _ _ Hc) as Hcat.
  destruct (read_json (VList (c0 :: cs))) as [categories|]; [|discriminate].
  apply process_threads_ok. apply forallb_forall. intros thread Hthread.
  unfold dict_values in Hthread. apply in_map_iff in Hthread as ([k v] & Hv & Hkv).
  simpl in Hv. subst v. unfold read_threads in Hthreads.
  destruct (dict_comprehension_sound _ _ _ Hthreads k thread Hkv) as (sub & k0 & Hsub & He & _).
  apply thread_entry_inv in He as (-> & _).
  pose proof (forallb_In _ _ _ Ht Hsub) as Hwf.
  unfold thread_wf in Hwf. apply andb_prop in Hwf as [Hwf _].
  apply andb_prop in Hwf as [_ Hok]. exact Hok.
Qed.

Lemma create_graph_main_ok_witness :
  is_ok (create_graph_main (VList sample_threads) (VList sample_summaries)
                           (VList sample_categories)) = true.
Proof.
  apply (create_graph_main_ok _ _ _ _ _ _); vm_compute; reflexivity.
Defined.

Lemma dict_get_none_keys {V W : Type} (d : pydict V) (d' : pydict W) (k : key) :
  map fst d = map fst d' ->
  match dict_get d k with None => true | Some _ => false end =
  match dict_get d' k with None => true | Some _ => false end.
Proof.
  revert d'. induction d as [|[k0 v0] d IH]; intros [|[k1 v1] d'] Hk; try discriminate;
    [reflexivity|].
  simpl in Hk. injection Hk as <- Hk. simpl.
  destruct (key_eqb k0 k); [reflexivity | apply IH, Hk].
Qed.

Lemma keys_distinct_keys {V W : Type} (d : pydict V) (d' : pydict W) :
  map fst d = map fst d' -> keys_distinct d = keys_distinct d'.
Proof.
  revert d'. induction d as [|[k0 v0] d IH]; intros [|[k1 v1] d'] Hk; try discriminate;
    [reflexivity|].
  simpl in Hk. injection Hk as <- Hk. simpl.
  pose proof (dict_get_none_keys d d' k0 Hk) as Hnone.
  destruct (dict_get d k0), (dict_get d' k0); try discriminate; [reflexivity|].
  apply IH, Hk.
Qed.

(** X11. Whatever the three documents, a graph that [create_graph.main]
    returns has no two nodes with equal identifiers, and no more nodes
    than the thread file has elements. *)
Theorem create_graph_main_distinct_nodes (tweets tweets_summary tweets_map : value)
    (nodes : list graph_node) :
  create_graph_main tweets tweets_summary tweets_map = Ok nodes ->
  keys_distinct (map (fun node => (node_id node, node)) nodes) = true /\
  forall data, tweets = VList data -> (length nodes <= length data)%nat.
Proof.
  unfold create_graph_main. intros Hr.
  apply bind_ok_inv in Hr as (threads_data & Hthreads & Hr).
  apply bind_ok_inv in Hr as (summaries & _ & Hr).
  apply bind_ok_inv in Hr as (categories & _ & Hr).
  apply process_threads_nodes in Hr as (related_threads & _ & Hnodes).
  pose proof (make_nodes_ids _ _ _ _ _ Hnodes) as Hids.
  split.
  - rewrite <- (read_json_distinct _ _ Hthreads). apply keys_distinct_keys.
    rewrite map_map. simpl. exact Hids.
  - intros data ->.
    assert (Hlen : length nodes = length threads_data).
    { rewrite <- (length_map node_id), Hids, length_map. reflexivity. }
    rewrite Hlen. clear - Hthreads.
    assert (Hgen : forall (entry : value -> result (option (key * value))) d,
               dict_comprehension entry data = Ok d -> (length d <= length data)%nat).
    { intros entry d. unfold dict_comprehension.
      assert (Hacc : forall l acc d', for_each
                 (fun (d0 : pydict value) (x : value) =>
                    entry x ≫= fun e => Ok (match e with
                                            | Some (k, v) => dict_set d0 k v
                                            | None => d0
                                            end)) l acc = Ok d' ->
                 (length d' <= length acc + length l)%nat).
      { induction l as [|x l IH]; intros acc d' Hrun; simpl in Hrun.
        - injection Hrun as <-. simpl. lia.
        - apply bind_ok_inv in Hrun as (acc' & Hstep & Hrun).
          apply bind_ok_inv in Hstep as (e & _ & Hacc'). injection Hacc' as <-.
          apply IH in Hrun. simpl.
          assert (Hset : forall k v, (length (dict_set acc k v) <= S (length acc))%nat).
          { intros k v. clear. induction acc as [|[k0 v0] acc IHa]; simpl; [lia|].
            destruct (key_eqb k0 k); simpl; lia. }
          destruct e as [[k v]|]; [specialize (Hset k v)|]; lia. }
      intros Hrun. apply Hacc in Hrun. simpl in Hrun. exact Hrun. }
    unfold read_json in Hthreads.
    apply bind_ok_inv in Hthreads as (first & _ & Hthreads).
    apply bind_ok_inv in Hthreads as (is_cat & _ & Hthreads).
    destruct is_cat; [eapply Hgen, Hthreads|].
    apply bind_ok_inv in Hthreads as (is_sum & _ & Hthreads).
    destruct is_sum; eapply Hgen, Hthreads.
Qed.

Lemma create_graph_main_distinct_nodes_witness :
  create_graph_main (VList sample_threads) (VList sample_summaries)
                    (VList sample_categories) ≫=
    (fun nodes => Ok (map node_id nodes)) = Ok [KStr "1"; KStr "9"] /\
  exists nodes,
    create_graph_main (VList sample_threads) (VList sample_summaries)
                      (VList sample_categories) = Ok nodes /\
    keys_distinct (map (fun node => (node_id node, node)) nodes) = true.
Proof.
  split; [vm_compute; reflexivity|].
  destruct (create_graph_main (VList sample_threads) (VList sample_summaries)
              (VList sample_categories)) as [nodes|] eqn:Hr;
    [|vm_compute in Hr; discriminate].
  exists nodes. split; [reflexivity|].
  exact (proj1 (create_graph_main_distinct_nodes _ _ _ _ Hr)).
Defined.

(** ** The author backfill *)

Lemma collect_Forall2 {A B : Type} (body : A -> result B) (l : list A) (l' : list B) :
  collect body l = Ok l' <-> Forall2 (fun x y => body x = Ok y) l l'.
Proof.
  unfold collect. split.
  - intros Hr. apply for_each_collect in Hr as (ns & -> & Hns). exact Hns.
  - intros Hall.
    assert (Hgen : forall acc, for_each
              (fun (acc : list B) (x : A) => body x ≫= fun y => Ok (acc ++ [y])%list)
              l acc = Ok (acc ++ l')%list).
    { induction Hall as [|x y l l' Hxy _ IH]; intros acc; simpl.
      - rewrite app_nil_r. reflexivity.
      - rewrite Hxy. unfold_bind. rewrite IH, <- app_assoc. reflexivity. }
    apply (Hgen []).
Qed.

(** What a visiting loop returns: the value itself, or the list of the
    results of the body. *)
Lemma visit_inv (body : value -> result value) (v v' : value) :
  visit body v = Ok v' ->
  elementwise (fun x y => body x = Ok y) v v'.
Proof.
  unfold visit, elementwise. intros Hr.
  apply bind_ok_inv in Hr as (elements & Hiter & Hr).
  apply bind_ok_inv in Hr as (elements' & Hcollect & Hr).
  injection Hr as <-. apply collect_Forall2 in Hcollect.
  destruct v; try (left; reflexivity).
  simpl in Hiter. injection Hiter as <-. right. eauto.
Qed.

Lemma visit_list (body : value -> result value) (l l' : list value) :
  Forall2 (fun x y => body x = Ok y) l l' -> visit body (VList l) = Ok (VList l').
Proof.
  intros Hall. unfold visit. simpl. unfold_bind.
  apply collect_Forall2 in Hall. rewrite Hall. reflexivity.
Qed.

(** A body that accepts its own results makes the loop accept its own
    result. *)
Lemma visit_idem (body : value -> result value) :
  (forall x y, body x = Ok y -> body y = Ok y) ->
  forall v v', visit body v = Ok v' -> visit body v' = Ok v'.
Proof.
  intros Hbody v v' Hr. pose proof (visit_inv _ _ _ Hr) as [-> | (l & l' & -> & -> & Hall)].
  - exact Hr.
  - apply visit_list. clear Hr. induction Hall as [|x y l l' Hxy _ IH]; constructor; eauto.
Qed.

Lemma obj_get_set_same (d : list (string * value)) (name : string) (x : value) :
  obj_get (obj_set d name x) name = Some x.
Proof.
  induction d as [|[k v] d IH]; simpl.
  - rewrite String.eqb_refl. reflexivity.
  - destruct (String.eqb k name) eqn:Hk; simpl; rewrite Hk; [reflexivity | exact IH].
Qed.

Lemma obj_set_absent (d : list (string * value)) (name : string) (x : value) :
  obj_get d name = None -> obj_set d name x = (d ++ [(name, x)])%list.
Proof.
  induction d as [|[k v] d IH]; simpl; [reflexivity|].
  destruct (String.eqb k name); [discriminate|]. intros Hd. rewrite (IH Hd). reflexivity.
Qed.

Lemma obj_get_app_same (d : list (string * value)) (name : string) (x : value) :
  obj_get d name = None -> obj_get (d ++ [(name, x)]) name = Some x.
Proof.
  induction d as [|[k v] d IH]; simpl.
  - rewrite String.eqb_refl. reflexivity.
  - destruct (String.eqb k name); [discriminate | exact IH].
Qed.

Lemma obj_get_app_other (d : list (string * value)) (name other : string) (x : value) :
  String.eqb name other = false ->
  obj_get (d ++ [(name, x)]) other = obj_get d other.
Proof.
  intros Hne. induction d as [|[k v] d IH]; simpl.
  - rewrite Hne. reflexivity.
  - destruct (String.eqb k other); [reflexivity | exact IH].
Qed.

Lemma add_author_tweet_inv (tweet tweet' : value) :
  add_author_tweet tweet = Ok tweet' -> author_added tweet tweet'.
Proof.
  unfold add_author_tweet, author_added. intros Hr.
  apply bind_ok_inv in Hr as (has_author & Hhas & Hr).
  destruct has_author; [injection Hr as <-; left; reflexivity|].
  destruct tweet as [| | | | |d]; try discriminate.
  simpl in Hhas, Hr. injection Hr as <-.
  destruct (obj_get d "author") eqn:Hd; [discriminate|].
  right. exists d. rewrite (obj_set_absent _ _ _ Hd). auto.
Qed.

Lemma add_author_tweet_idem (tweet tweet' : value) :
  add_author_tweet tweet = Ok tweet' -> add_author_tweet tweet' = Ok tweet'.
Proof.
  unfold add_author_tweet. intros Hr.
  apply bind_ok_inv in Hr as (has_author & Hhas & Hr).
  destruct has_author.
  - injection Hr as <-. rewrite Hhas. reflexivity.
  - destruct tweet as [| | | | |d]; try discriminate.
    simpl in Hr. injection Hr as <-. simpl. rewrite obj_get_set_same. reflexivity.
Qed.

(** X12. The backfill is idempotent: run on a document it has produced, it
    returns that document unchanged. *)
Theorem add_author_idempotent (tweets tweets' : value) :
  add_author_to_tweets tweets = Ok tweets' ->
  add_author_to_tweets tweets' = Ok tweets'.
Proof.
  unfold add_author_to_tweets, add_author_thread.
  apply visit_idem. apply visit_idem. apply add_author_tweet_idem.
Qed.

Lemma add_author_idempotent_witness :
  add_author_to_tweets (VList sample_threads) ≫= add_author_to_tweets =
  add_author_to_tweets (VList sample_threads) /\
  is_ok (add_author_to_tweets (VList sample_threads)) = true.
Proof.
  destruct (add_author_to_tweets (VList sample_threads)) as [tweets'|] eqn:Hr;
    [|vm_compute in Hr; discriminate].
  split; [|reflexivity].
  exact (add_author_idempotent _ _ Hr).
Defined.

Lemma visit_inv_list (body : value -> result value) (v v' : value) :
  visit body v = Ok v' ->
  match v with
  | VList l => exists l', v' = VList l' /\ Forall2 (fun x y => body x = Ok y) l l'
  | _ => v' = v
  end.
Proof.
  unfold visit. intros Hr.
  apply bind_ok_inv in Hr as (elements & Hiter & Hr).
  apply bind_ok_inv in Hr as (elements' & Hcollect & Hr).
  injection Hr as <-. apply collect_Forall2 in Hcollect.
  destruct v; try reflexivity.
  simpl in Hiter. injection Hiter as <-. eauto.
Qed.

Lemma Forall2_map_eq {A B : Type} (P : A -> B -> Prop) (f : A -> B) (l : list A) (l' : list B) :
  (forall x y, P x y -> y = f x) -> Forall2 P l l' -> l' = map f l.
Proof.
  intros Hf. induction 1 as [|x y l l' Hxy _ IH]; simpl; [reflexivity|].
  rewrite (Hf x y Hxy), IH. reflexivity.
Qed.

Lemma add_author_tweet_eq (tweet tweet' : value) :
  add_author_tweet tweet = Ok tweet' -> tweet' = with_author tweet.
Proof.
  unfold add_author_tweet, with_author. intros Hr.
  apply bind_ok_inv in Hr as (has_author & Hhas & Hr).
  destruct tweet as [| | |s|l|d]; simpl in Hhas; try discriminate;
    injection Hhas as <-.
  - destruct (has_substring "author" s); [injection Hr as <-; reflexivity | discriminate].
  - destruct (existsb (is_str "author") l); [injection Hr as <-; reflexivity | discriminate].
  - destruct (obj_get d "author") eqn:Hd; simpl in Hr; injection Hr as <-; [reflexivity|].
    rewrite (obj_set_absent _ _ _ Hd). reflexivity.
Qed.

Lemma add_author_tweet_object (d : list (string * value)) :
  add_author_tweet (VDict d) = Ok (with_author (VDict d)).
Proof.
  unfold add_author_tweet, with_author. simpl. unfold_bind.
  destruct (obj_get d "author") eqn:Hd; [reflexivity|].
  simpl. rewrite (obj_set_absent _ _ _ Hd). reflexivity.
Qed.

Lemma collect_ok {A B : Type} (body : A -> result B) (l : list A) :
  (forall x, In x l -> is_ok (body x) = true) -> is_ok (collect body l) = true.
Proof.
  intros Hall. unfold collect. apply for_each_ok. intros acc x Hx.
  specialize (Hall x Hx). unfold_bind. destruct (body x); [reflexivity | discriminate].
Qed.

(** X13. On a thread file whose inner lists hold tweet objects the
    backfill raises nothing.  When it returns, the document is the input
    with the default author appended, as the last field, to every tweet
    object that had no [author] field: a tweet that has an author keeps
    it, every other field of every tweet is unchanged, and so are the
    number and the order of threads and tweets. *)
Theorem add_author_result :
  (forall threads : list value,
      forallb tweets_are_objects threads = true ->
      is_ok (add_author_to_tweets (VList threads)) = true) /\
  (forall tweets tweets' : value,
      add_author_to_tweets tweets = Ok tweets' ->
      tweets' = map_tweets with_author tweets) /\
  (forall d : list (string * value),
      exists d', with_author (VDict d) = VDict d' /\
        obj_get d' "author" = Some (default default_author (obj_get d "author")) /\
        forall name, String.eqb "author" name = false -> obj_get d' name = obj_get d name).
Proof.
  split; [|split].
  - intros threads Hw. unfold add_author_to_tweets, visit. simpl. unfold_bind.
    assert (Hthreads : is_ok (collect add_author_thread threads) = true).
    { apply collect_ok. intros thread Hthread.
      pose proof (forallb_In _ _ _ Hw Hthread) as Hobj.
      unfold tweets_are_objects in Hobj. destruct thread as [| | | |l|]; try discriminate.
      unfold add_author_thread, visit. simpl. unfold_bind.
      assert (Htweets : is_ok (collect add_author_tweet l) = true).
      { apply collect_ok. intros tweet Htweet.
        pose proof (forallb_In _ _ _ Hobj Htweet) as Hd.
        destruct tweet; try discriminate. rewrite add_author_tweet_object. reflexivity. }
      destruct (collect add_author_tweet l); [reflexivity | discriminate]. }
    destruct (collect add_author_thread threads); [reflexivity | discriminate].
  - intros tweets tweets' Hr. unfold add_author_to_tweets in Hr.
    apply visit_inv_list in Hr. unfold map_tweets.
    destruct tweets as [| | | |threads|]; try exact Hr.
    destruct Hr as (threads' & -> & Hall). f_equal.
    eapply Forall2_map_eq; [|exact Hall].
    intros thread thread' Hthread. simpl in Hthread.
    unfold add_author_thread in Hthread. apply visit_inv_list in Hthread.
    destruct thread as [| | | |l|]; try exact Hthread.
    destruct Hthread as (l' & -> & Htweets). f_equal.
    eapply Forall2_map_eq; [|exact Htweets].
    intros tweet tweet' Htweet. apply add_author_tweet_eq. exact Htweet.
  - intros d. unfold with_author.
    destruct (obj_get d "author") as [a|] eqn:Hd.
    + exists d. rewrite Hd. simpl. auto.
    + exists (d ++ [("author", default_author)])%list. split; [reflexivity|]. split.
      * simpl. apply obj_get_app_same. exact Hd.
      * intros name Hname. apply obj_get_app_other. exact Hname.
Qed.

Lemma add_author_result_witness :
  forallb tweets_are_objects [VList [reply_1; VDict [("id", VStr "2"); ("author", VStr "me")]]] = true /\
  add_author_to_tweets (VList [VList [reply_1; VDict [("id", VStr "2"); ("author", VStr "me")]]]) =
    Ok (VList [VList [VDict [("id", VStr "1"); ("stats", VDict [("replies", VInt 1)]);
                             ("author", default_author)];
                      VDict [("id", VStr "2"); ("author", VStr "me")]]]).
Proof.
  destruct add_author_result as (Hok & Heq & _).
  assert (Hw : forallb tweets_are_objects
                 [VList [reply_1; VDict [("id", VStr "2"); ("author", VStr "me")]]] = true)
    by reflexivity.
  split; [exact Hw|]. specialize (Hok _ Hw).
  destruct (add_author_to_tweets
              (VList [VList [reply_1; VDict [("id", VStr "2"); ("author", VStr "me")]]]))
    as [tweets'|] eqn:Hr; [|discriminate].
  rewrite (Heq _ _ Hr). reflexivity.
Defined.

(** ** The backfill and the graph *)

Lemma elementwise_impl (R R' : value -> value -> Prop) (v v' : value) :
  (forall x y, R x y -> R' x y) -> elementwise R v v' -> elementwise R' v v'.
Proof.
  intros HR [-> | (l & l' & -> & -> & Hall)]; [left; reflexivity|].
  right. exists l, l'. split; [reflexivity|]. split; [reflexivity|].
  eapply Forall2_impl; eauto.
Qed.

Lemma add_author_sim (tweets tweets' : value) :
  add_author_to_tweets tweets = Ok tweets' ->
  elementwise (elementwise author_added) tweets tweets'.
Proof.
  intros Hr. unfold add_author_to_tweets in Hr. apply visit_inv in Hr.
  eapply elementwise_impl; [|exact Hr]. intros thread thread' Hthread. simpl in Hthread.
  unfold add_author_thread in Hthread. apply visit_inv in Hthread.
  eapply elementwise_impl; [|exact Hthread]. intros tweet tweet'. apply add_author_tweet_inv.
Qed.

(** *** What the graph reads of a tweet *)

Lemma author_added_get (tweet tweet' : value) (name : string) (dflt : value) :
  author_added tweet tweet' -> String.eqb "author" name = false ->
  get tweet' name dflt = get tweet name dflt.
Proof.
  intros [-> | (d & -> & _ & ->)] Hname; [reflexivity|].
  simpl. rewrite (obj_get_app_other _ _ _ _ Hname). reflexivity.
Qed.

Lemma author_added_getitem (tweet tweet' : value) (name : string) :
  author_added tweet tweet' -> String.eqb "author" name = false ->
  getitem tweet' name = getitem tweet name.
Proof.
  intros [-> | (d & -> & _ & ->)] Hname; [reflexivity|].
  simpl. rewrite (obj_get_app_other _ _ _ _ Hname). reflexivity.
Qed.

Lemma author_added_is_str (tweet tweet' : value) (name : string) :
  author_added tweet tweet' -> is_str name tweet' = is_str name tweet.
Proof. intros [-> | (d & -> & _ & ->)]; reflexivity. Qed.

Lemma add_tweet_stats_sim (total : stats) (tweet tweet' : value) :
  author_added tweet tweet' -> add_tweet_stats total tweet' = add_tweet_stats total tweet.
Proof.
  intros Hsim. unfold add_tweet_stats.
  rewrite (author_added_get _ _ "stats" _ Hsim eq_refl). reflexivity.
Qed.

(** *** What the graph reads of a thread *)

Lemma thread_sim_getitem (thread thread' : value) (name : string) :
  elementwise author_added thread thread' -> getitem thread' name = getitem thread name.
Proof. intros [-> | (l & l' & -> & -> & _)]; reflexivity. Qed.

Lemma thread_sim_contains (thread thread' : value) (name : string) :
  elementwise author_added thread thread' -> contains name thread' = contains name thread.
Proof.
  intros [-> | (l & l' & -> & -> & Hall)]; [reflexivity|]. simpl. f_equal.
  induction Hall as [|x y l l' Hxy _ IH]; simpl; [reflexivity|].
  rewrite (author_added_is_str _ _ _ Hxy), IH. reflexivity.
Qed.

Lemma thread_sim_truthy (thread thread' : value) :
  elementwise author_added thread thread' -> truthy thread' = truthy thread.
Proof.
  intros [-> | (l & l' & -> & -> & Hall)]; [reflexivity|].
  destruct Hall; reflexivity.
Qed.

Lemma thread_sim_root (thread thread' : value) :
  elementwise author_added thread thread' -> thread_root thread' = thread_root thread.
Proof.
  intros [-> | (l & l' & -> & -> & Hall)]; [reflexivity|].
  destruct Hall as [|x y l l' Hxy _]; [reflexivity|].
  unfold thread_root. simpl. unfold_bind.
  apply (author_added_getitem _ _ "id" Hxy). reflexivity.
Qed.

(** The body of the first loop reads the thread through its identifier
    only. *)
Lemma record_embed_root (thread tweet : value) (R : pydict (list value)) :
  record_embed thread R tweet =
  (get tweet "metadata" (VDict []) ≫= fun metadata =>
   get metadata "embed" (VDict []) ≫= fun embed =>
   get embed "type" VNone ≫= fun ty =>
   if is_str "embed" ty then
     thread_root thread ≫= fun parent_id =>
     getitem embed "id" ≫= fun target =>
     to_key target ≫= fun k => Ok (setdefault_append R k parent_id)
   else Ok R).
Proof.
  unfold record_embed, thread_root. unfold_bind.
  destruct (get tweet "metadata" (VDict [])) as [metadata|]; [|reflexivity].
  destruct (get metadata "embed" (VDict [])) as [embed|]; [|reflexivity].
  destruct (get embed "type" VNone) as [ty|]; [|reflexivity].
  destruct (is_str "embed" ty); [|reflexivity].
  destruct (getitem_0 thread); reflexivity.
Qed.

Lemma record_embed_sim (thread thread' tweet tweet' : value) (R : pydict (list value)) :
  elementwise author_added thread thread' -> author_added tweet tweet' ->
  record_embed thread' R tweet' = record_embed thread R tweet.
Proof.
  intros Hthread Htweet. rewrite !record_embed_root.
  rewrite (author_added_get _ _ "metadata" _ Htweet eq_refl), (thread_sim_root _ _ Hthread).
  reflexivity.
Qed.

(** Two loops whose bodies agree on the elements they meet agree. *)
Lemma for_each_Forall2 {A A' S : Type} (body : S -> A -> result S) (body' : S -> A' -> result S)
    (l : list A) (l' : list A') :
  Forall2 (fun x x' => forall s, body' s x' = body s x) l l' ->
  forall s, for_each body' l' s = for_each body l s.
Proof.
  induction 1 as [|x x' l l' Hxx _ IH]; intros s; simpl; [reflexivity|].
  rewrite Hxx. unfold_bind. destruct (body s x); [apply IH | reflexivity].
Qed.

Lemma record_thread_sim (thread thread' : value) (R : pydict (list value)) :
  elementwise author_added thread thread' ->
  record_thread R thread' = record_thread R thread.
Proof.
  intros Hsim. pose proof Hsim as [-> | (l & l' & -> & -> & Hall)]; [reflexivity|].
  unfold record_thread. simpl. unfold_bind. revert R.
  apply for_each_Forall2. eapply Forall2_impl; [exact Hall|].
  intros tweet tweet' Htweet R. apply record_embed_sim; assumption.
Qed.

Lemma aggregate_sim (thread thread' : value) :
  elementwise author_added thread thread' -> aggregate thread' = aggregate thread.
Proof.
  intros [-> | (l & l' & -> & -> & Hall)]; [reflexivity|].
  unfold aggregate. simpl. unfold_bind.
  apply for_each_Forall2. eapply Forall2_impl; [exact Hall|].
  intros tweet tweet' Htweet total. apply add_tweet_stats_sim. exact Htweet.
Qed.

Lemma thread_entry_sim (thread thread' : value) :
  elementwise author_added thread thread' ->
  thread_entry thread' =
  match thread_entry thread with
  | Ok (Some (k, _)) => Ok (Some (k, thread'))
  | r => r
  end.
Proof.
  intros Hsim. unfold thread_entry.
  rewrite (thread_sim_truthy _ _ Hsim).
  destruct (truthy thread); [|reflexivity].
  pose proof (thread_sim_root _ _ Hsim) as Hroot. unfold thread_root in Hroot.
  unfold_bind.
  destruct (getitem_0 thread') as [first'|] eqn:H0', (getitem_0 thread) as [first|] eqn:H0.
  - rewrite Hroot. destruct (getitem first "id") as [id|]; [|reflexivity].
    destruct (to_key id); reflexivity.
  - destruct Hsim as [-> | (l & l' & -> & -> & Hall)]; [congruence|].
    destruct Hall; discriminate.
  - destruct Hsim as [-> | (l & l' & -> & -> & Hall)]; [congruence|].
    destruct Hall; discriminate.
  - destruct Hsim as [-> | (l & l' & -> & -> & Hall)]; [congruence|].
    destruct Hall; simpl in *; congruence.
Qed.

(** *** Loading and processing *)

Lemma author_added_refl (tweet : value) : author_added tweet tweet.
Proof. left. reflexivity. Qed.

Lemma same_threads_refl (td : pydict value) : same_threads td td.
Proof.
  unfold same_threads. induction td as [|e td IH]; constructor; [|exact IH].
  split; [reflexivity | left; reflexivity].
Qed.

Lemma same_loaded_refl (r : result (pydict value)) : same_loaded r r.
Proof. destruct r; simpl; [apply same_threads_refl | reflexivity]. Qed.

Lemma dict_set_sim (td td' : pydict value) (k : key) (v v' : value) :
  same_threads td td' -> elementwise author_added v v' ->
  same_threads (dict_set td k v) (dict_set td' k v').
Proof.
  unfold same_threads. intros Htd Hv.
  induction Htd as [|[k0 v0] [k0' v0'] td td' [Hk Hv0] Htl IH]; simpl.
  - constructor; [split; [reflexivity | exact Hv] | constructor].
  - simpl in Hk, Hv0. subst k0'. destruct (key_eqb k0 k).
    + constructor; [split; [reflexivity | exact Hv] | exact Htl].
    + constructor; [split; [reflexivity | exact Hv0] | exact IH].
Qed.

Lemma read_threads_sim (threads threads' : list value) :
  Forall2 (elementwise author_added) threads threads' ->
  same_loaded (read_threads threads) (read_threads threads').
Proof.
  intros Hall. unfold read_threads, dict_comprehension.
  assert (Hgen : forall acc acc', same_threads acc acc' ->
            same_loaded
              (for_each (fun (d : pydict value) (x : value) =>
                           thread_entry x ≫= fun e =>
                           Ok (match e with Some (k, v) => dict_set d k v | None => d end))
                        threads acc)
              (for_each (fun (d : pydict value) (x : value) =>
                           thread_entry x ≫= fun e =>
                           Ok (match e with Some (k, v) => dict_set d k v | None => d end))
                        threads' acc')).
  { induction Hall as [|x x' l l' Hxx _ IH]; intros acc acc' Hacc; simpl; [exact Hacc|].
    rewrite (thread_entry_sim _ _ Hxx). unfold_bind.
    destruct (thread_entry x) as [[[k v]|]|] eqn:Hentry; simpl.
    - apply IH. apply thread_entry_inv in Hentry as (-> & _).
      apply dict_set_sim; assumption.
    - apply IH. exact Hacc.
    - reflexivity. }
  apply Hgen. constructor.
Qed.

Lemma comprehension_same_entries (entry : value -> result (option (key * value)))
    (l l' : list value) :
  Forall2 (fun x x' => entry x' = entry x) l l' ->
  dict_comprehension entry l' = dict_comprehension entry l.
Proof.
  intros Hall. unfold dict_comprehension. apply for_each_Forall2.
  eapply Forall2_impl; [exact Hall|]. intros x x' Hxx s. simpl. rewrite Hxx. reflexivity.
Qed.

Lemma read_json_sim (tweets tweets' : value) :
  elementwise (elementwise author_added) tweets tweets' ->
  same_loaded (read_json tweets) (read_json tweets').
Proof.
  intros [-> | (threads & threads' & -> & -> & Hall)]; [apply same_loaded_refl|].
  destruct Hall as [|first first' rest rest' Hfirst Hrest]; [reflexivity|].
  assert (Hall : Forall2 (elementwise author_added) (first :: rest) (first' :: rest'))
    by (constructor; assumption).
  unfold read_json. simpl getitem_0. unfold_bind.
  rewrite !(thread_sim_contains _ _ _ Hfirst).
  destruct (contains "categories" first) as [[|]|]; [| |reflexivity].
  - unfold read_categories.
    rewrite (comprehension_same_entries category_entry (first :: rest) (first' :: rest'));
      [apply same_loaded_refl|].
    eapply Forall2_impl; [exact Hall|]. intros x x' Hxx. unfold category_entry.
    rewrite !(thread_sim_getitem _ _ _ Hxx). reflexivity.
  - destruct (contains "summary" first) as [[|]|]; [| |reflexivity].
    + unfold read_summaries.
      rewrite (comprehension_same_entries summary_entry (first :: rest) (first' :: rest'));
        [apply same_loaded_refl|].
      eapply Forall2_impl; [exact Hall|]. intros x x' Hxx. unfold summary_entry.
      rewrite !(thread_sim_getitem _ _ _ Hxx). reflexivity.
    + apply read_threads_sim. exact Hall.
Qed.

Lemma process_threads_sim (td td' summaries categories : pydict value) :
  same_threads td td' ->
  process_threads td' summaries categories = process_threads td summaries categories.
Proof.
  unfold same_threads. intros Htd. unfold process_threads.
  assert (Hrel : resolve_relations td' = resolve_relations td).
  { unfold resolve_relations, dict_values. apply for_each_Forall2.
    clear - Htd. induction Htd as [|e e' td td' [_ Hv] _ IH]; simpl; constructor;
      [|exact IH].
    intros R. apply record_thread_sim. exact Hv. }
  rewrite Hrel. unfold_bind.
  destruct (resolve_relations td) as [related_threads|]; [|reflexivity].
  apply for_each_Forall2. eapply Forall2_impl; [exact Htd|].
  intros [k v] [k' v'] [Hk Hv] graph_data. simpl in Hk, Hv. subst k'.
  unfold make_node. rewrite (aggregate_sim _ _ Hv). reflexivity.
Qed.

(** X15. The author backfill does not change the graph: when
    [add_author_to_tweets] returns, [create_graph.main] gives on the new
    thread file what it gives on the old one, the same graph or the same
    exception, whatever the summary and category files. *)
Theorem add_author_preserves_graph (tweets tweets' tweets_summary tweets_map : value) :
  add_author_to_tweets tweets = Ok tweets' ->
  create_graph_main tweets' tweets_summary tweets_map =
  create_graph_main tweets tweets_summary tweets_map.
Proof.
  intros Hr. apply add_author_sim, read_json_sim in Hr.
  unfold create_graph_main. unfold_bind.
  destruct (read_json tweets) as [td|e], (read_json tweets') as [td'|e']; simpl in Hr.
  - destruct (read_json tweets_summary) as [summaries|]; [|reflexivity].
    destruct (read_json tweets_map) as [categories|]; [|reflexivity].
    apply process_threads_sim. exact Hr.
  - destruct Hr.
  - destruct Hr.
  - rewrite Hr. reflexivity.
Qed.

Lemma add_author_preserves_graph_witness :
  exists tweets',
    add_author_to_tweets (VList sample_threads) = Ok tweets' /\
    tweets' <> VList sample_threads /\
    create_graph_main tweets' (VList sample_summaries) (VList sample_categories) =
    create_graph_main (VList sample_threads) (VList sample_summaries) (VList sample_categories).
Proof.
  destruct (add_author_to_tweets (VList sample_threads)) as [tweets'|] eqn:Hr;
    [|vm_compute in Hr; discriminate].
  exists tweets'. split; [reflexivity|]. split.
  - vm_compute in Hr. injection Hr as <-. discriminate.
  - exact (add_author_preserves_graph _ _ _ _ Hr).
Defined.

(** ** The exceptions of the backfill *)

Lemma collect_raise {A B : Type} (body : A -> result B) (l : list A) (e : exn) :
  collect body l = Raise e -> exists x, In x l /\ body x = Raise e.
Proof.
  unfold collect. intros Hr. apply for_each_raise in Hr as (acc & x & Hx & Hbody).
  exists x. split; [exact Hx|]. unfold_bind.
  destruct (body x); [discriminate | congruence].
Qed.

Lemma visit_raise (body : value -> result value) (v : value) (e : exn) :
  visit body v = Raise e ->
  e = TypeError \/ exists x, body x = Raise e.
Proof.
  unfold visit. intros Hr. apply bind_raise_inv in Hr as [Hr | (elements & _ & Hr)].
  - left. destruct v; simpl in Hr; congruence.
  - apply bind_raise_inv in Hr as [Hr | (elements' & _ & Hr)]; [|discriminate].
    right. apply collect_raise in Hr as (x & _ & Hx). eauto.
Qed.

Lemma add_author_tweet_raise (tweet : value) (e : exn) :
  add_author_tweet tweet = Raise e -> e = TypeError.
Proof.
  unfold add_author_tweet. intros Hr.
  apply bind_raise_inv in Hr as [Hr | (has_author & _ & Hr)].
  - destruct tweet; simpl in Hr; congruence.
  - destruct has_author; [discriminate|]. destruct tweet; simpl in Hr; congruence.
Qed.

(** X14. Whatever the document, the backfill raises nothing but
    [TypeError].  (A flat list of tweet objects is a document on which it
    does: the loop over a tweet object visits its field names.) *)
Theorem add_author_raises_only (tweets : value) (e : exn) :
  add_author_to_tweets tweets = Raise e -> e = TypeError.
Proof.
  unfold add_author_to_tweets. intros Hr.
  apply visit_raise in Hr as [-> | (thread & Hr)]; [reflexivity|].
  unfold add_author_thread in Hr.
  apply visit_raise in Hr as [-> | (tweet & Hr)]; [reflexivity|].
  eapply add_author_tweet_raise, Hr.
Qed.

Lemma add_author_raises_only_witness :
  add_author_to_tweets (VList [reply_1; reply_2]) = Raise TypeError /\
  TypeError = TypeError.
Proof.
  assert (Hr : add_author_to_tweets (VList [reply_1; reply_2]) = Raise TypeError)
    by reflexivity.
  split; [exact Hr|]. exact (add_author_raises_only _ _ Hr).
Defined.

(** ** The report of the Integrity Verifier *)

Section ReportProperties.
Context `{Countable K}.
Implicit Types (s t : gset K) (sets : list (gset K)) (files : list (string * gset K)).

Lemma foldl_union_upper s sets t : In t (s :: sets) -> t ⊆ foldl (∪) s sets.
Proof.
  intros Ht x Hx. apply elem_of_foldl_union.
  destruct Ht as [<- | Ht]; [left; exact Hx | right; eauto].
Qed.

Lemma missing_lines_In (all_ids_union : gset K) files (line : report_line) :
  In line (missing_lines all_ids_union files) ->
  exists filename ids,
    In (filename, ids) files /\ line = MissingIn filename (all_ids_union ∖ ids) /\
    all_ids_union ∖ ids <> ∅.
Proof.
  unfold missing_lines. intros Hl. apply in_flat_map in Hl as ([filename ids] & Hf & Hl).
  destruct (bool_decide (all_ids_union ∖ ids = ∅)) eqn:He; [destruct Hl|].
  destruct Hl as [<- | []]. apply bool_decide_eq_false in He. eauto.
Qed.

Lemma missing_lines_nil (all_ids_union : gset K) files :
  missing_lines all_ids_union files = [] ->
  forall f, In f files -> all_ids_union ∖ snd f = ∅.
Proof.
  unfold missing_lines. induction files as [|[filename ids] files IH]; intros Hnil f Hf;
    [destruct Hf|].
  simpl in Hnil. destruct (bool_decide (all_ids_union ∖ ids = ∅)) eqn:He; [|discriminate].
  apply bool_decide_eq_true in He.
  destruct Hf as [<- | Hf]; [exact He | exact (IH Hnil f Hf)].
Qed.

(** When the sizes differ some file misses something. *)
Lemma missing_lines_nonempty (f0 : string * gset K) files :
  size (foldl (∩) (snd f0) (map snd files)) <> size (foldl (∪) (snd f0) (map snd files)) ->
  missing_lines (foldl (∪) (snd f0) (map snd files)) (f0 :: files) <> [].
Proof.
  intros Hsize Hnil. apply Hsize. apply same_size_iff_all_equal.
  assert (Hall : forall t, In t (snd f0 :: map snd files) ->
                           t = foldl (∪) (snd f0) (map snd files)).
  { intros t Ht. apply set_eq. intros x. split.
    - apply foldl_union_upper. exact Ht.
    - intros Hx. change (In t (map snd (f0 :: files))) in Ht.
      apply in_map_iff in Ht as (f & <- & Hf).
      pose proof (missing_lines_nil _ _ Hnil f Hf) as He.
      destruct (decide (x ∈ snd f)) as [Hin | Hout]; [exact Hin|].
      assert (Hdiff : x ∈ foldl (∪) (snd f0) (map snd files) ∖ snd f)
        by (apply elem_of_difference; auto).
      rewrite He in Hdiff. destruct (not_elem_of_empty x Hdiff). }
  intros t u Ht Hu. rewrite (Hall t Ht), (Hall u Hu). reflexivity.
Qed.

(** X17. What the verifier prints is either the single line of
    consistency or the heading followed by at least one line; every such
    line names a file of the input with a non-empty set of identifiers,
    none of which the file has. *)
Theorem check_files_report_shape files (report : list report_line) :
  check_files files = Ok report ->
  report = [AllPresent] \/
  exists line lines,
    report = MissingHeader :: line :: lines /\
    forall l, In l (line :: lines) ->
      exists filename ids missing,
        l = MissingIn filename missing /\ In (filename, ids) files /\
        missing <> ∅ /\ missing ## ids.
Proof.
  destruct files as [|f0 files]; [discriminate|].
  rewrite check_files_report. cbv zeta.
  remember (missing_lines (foldl (∪) (snd f0) (map snd files)) (f0 :: files)) as ml eqn:Hml.
  destruct (Nat.eqb _ _) eqn:Hsize; intros [= <-]; [left; reflexivity|].
  right. apply Nat.eqb_neq in Hsize.
  pose proof (missing_lines_nonempty f0 files Hsize) as Hne. rewrite <- Hml in Hne.
  destruct ml as [|line lines]; [destruct (Hne eq_refl)|].
  exists line, lines. split; [reflexivity|]. intros l Hl.
  rewrite Hml in Hl.
  apply missing_lines_In in Hl as (filename & ids & Hf & -> & Hmiss).
  exists filename, ids, (foldl (∪) (snd f0) (map snd files) ∖ ids).
  repeat split; try assumption.
  apply elem_of_disjoint. intros x Hx Hx'.
  apply elem_of_difference in Hx as [_ Hout]. exact (Hout Hx').
Qed.

(** X18. Adding to every file the identifiers reported missing from it
    makes the files consistent: on the completed sets the verifier reports
    full consistency. *)
Theorem check_files_after_repair (f0 : string * gset K) files :
  let all_ids_union := foldl (∪) (snd f0) (map snd files) in
  check_files (map (fun f => (fst f, snd f ∪ (all_ids_union ∖ snd f))) (f0 :: files))
  = Ok [AllPresent].
Proof.
  intros all_ids_union.
  assert (Hfix : forall f, In f (f0 :: files) ->
                           snd f ∪ (all_ids_union ∖ snd f) = all_ids_union).
  { intros f Hf. apply set_eq. intros x. rewrite elem_of_union, elem_of_difference. split.
    - intros [Hx | [Hx _]]; [|exact Hx].
      apply (foldl_union_upper (snd f0) (map snd files) (snd f)); [|exact Hx].
      change (In (snd f) (map snd (f0 :: files))). apply in_map. exact Hf.
    - intros Hx. destruct (decide (x ∈ snd f)); auto. }
  cbn [map]. rewrite check_files_report. cbn [fst snd].
  match goal with |- (if Nat.eqb ?a ?b then _ else _) = _ => assert (Hsize : a = b) end.
  { apply same_size_iff_all_equal.
    assert (Hall : forall t,
               In t (snd f0 ∪ (all_ids_union ∖ snd f0) ::
                     map snd (map (fun f => (fst f, snd f ∪ (all_ids_union ∖ snd f))) files)) ->
               t = all_ids_union).
    { intros t [<- | Ht]; [apply Hfix; left; reflexivity|].
      apply in_map_iff in Ht as ([n u] & <- & Hu).
      apply in_map_iff in Hu as (f & Hfu & Hf). injection Hfu as _ <-.
      apply Hfix. right. exact Hf. }
    intros t u Ht Hu. rewrite (Hall t Ht), (Hall u Hu). reflexivity. }
  rewrite Hsize, Nat.eqb_refl. reflexivity.
Qed.

(** X19. The verdict does not depend on the order of the files: the
    verifier reports full consistency for a list of files exactly when it
    does for any permutation of it. *)
Theorem check_files_order files files' :
  Permutation files files' ->
  (check_files files = Ok [AllPresent] <-> check_files files' = Ok [AllPresent]).
Proof.
  assert (Hdir : forall l l' : list (string * gset K),
             Permutation l l' ->
             check_files l = Ok [AllPresent] -> check_files l' = Ok [AllPresent]).
  { intros l l' Hp Hr.
    destruct l as [|f0 l]; [discriminate|].
    destruct l' as [|f0' l']; [apply Permutation_sym, Permutation_nil in Hp; discriminate|].
    rewrite check_files_report in *.
    destruct (Nat.eqb (size (foldl (∩) (snd f0) (map snd l))) _) eqn:Hsize; [|discriminate].
    apply Nat.eqb_eq in Hsize.
    pose proof (proj1 (same_size_iff_all_equal _ _) Hsize) as Hall.
    assert (Hsize' : size (foldl (∩) (snd f0') (map snd l')) =
                     size (foldl (∪) (snd f0') (map snd l'))).
    { apply same_size_iff_all_equal. intros t u Ht Hu.
      change (In t (map snd (f0' :: l'))) in Ht. change (In u (map snd (f0' :: l'))) in Hu.
      apply in_map_iff in Ht as (f & <- & Hf). apply in_map_iff in Hu as (g & <- & Hg).
      apply Hall.
      - change (In (snd f) (map snd (f0 :: l))). apply in_map.
        apply (Permutation_in f (Permutation_sym Hp) Hf).
      - change (In (snd g) (map snd (f0 :: l))). apply in_map.
        apply (Permutation_in g (Permutation_sym Hp) Hg). }
    rewrite Hsize', Nat.eqb_refl. reflexivity. }
  intros Hp. split; [apply Hdir, Hp | apply Hdir, Permutation_sym, Hp].
Qed.
End ReportProperties.

Lemma check_files_report_shape_witness :
  check_files [("turras.csv", ids_13); ("tweets_map.json", ids_123)] =
    Ok [MissingHeader; MissingIn "turras.csv" ids_2] /\
  ([MissingHeader; MissingIn "turras.csv" ids_2] = [AllPresent] \/
   exists line lines,
     [MissingHeader; MissingIn "turras.csv" ids_2] = MissingHeader :: line :: lines /\
     forall l, In l (line :: lines) ->
       exists filename ids missing,
         l = MissingIn filename missing /\
         In (filename, ids) [("turras.csv", ids_13); ("tweets_map.json", ids_123)] /\
         missing <> ∅ /\ missing ## ids).
Proof.
  assert (Hr : check_files [("turras.csv", ids_13); ("tweets_map.json", ids_123)] =
                 Ok [MissingHeader; MissingIn "turras.csv" ids_2])
    by (vm_compute; reflexivity).
  split; [exact Hr|]. exact (check_files_report_shape _ _ Hr).
Defined.

Lemma check_files_order_witness :
  check_files [("tweets_map.json", ids_123); ("turras.csv", ids_123)] = Ok [AllPresent] <->
  check_files [("turras.csv", ids_123); ("tweets_map.json", ids_123)] = Ok [AllPresent].
Proof.
  apply check_files_order. apply perm_swap.
Defined.

(** ** The identifier readers *)

Lemma add_id_entry (ids : gset key) (entry : value) :
  add_id ids entry = entry_id entry ≫= fun k => Ok (ids ∪ {[ k ]}).
Proof.
  unfold add_id, entry_id. unfold_bind.
  destruct (getitem entry "id") as [id|]; [|reflexivity].
  destruct (to_key id); reflexivity.
Qed.

(** The set the loop builds: the identifiers of the entries, added to the
    ones it started with. *)
Lemma read_ids_elem (entries : list value) (acc ids : gset key) :
  for_each add_id entries acc = Ok ids ->
  forall k, k ∈ ids <-> k ∈ acc \/ exists entry, In entry entries /\ entry_id entry = Ok k.
Proof.
  revert acc. induction entries as [|entry entries IH]; intros acc Hr k; simpl in Hr.
  - injection Hr as <-. split; [auto | intros [Hk | (e & [] & _)]; exact Hk].
  - apply bind_ok_inv in Hr as (acc1 & Hstep & Hr).
    rewrite add_id_entry in Hstep. apply bind_ok_inv in Hstep as (k1 & Hk1 & Hacc1).
    injection Hacc1 as <-. rewrite (IH _ Hr k), elem_of_union, elem_of_singleton. split.
    + intros [[Hk | ->] | (e & He & Hke)]; eauto.
      * right. exists entry. split; [left; reflexivity | exact Hk1].
      * right. exists e. split; [right; exact He | exact Hke].
    + intros [Hk | (e & [<- | He] & Hke)]; eauto.
      left. right. congruence.
Qed.

Lemma read_ids_ok (entries : list value) (acc : gset key) :
  (forall entry, In entry entries -> is_ok (entry_id entry) = true) ->
  is_ok (for_each add_id entries acc) = true.
Proof.
  intros Hall. apply for_each_ok. intros ids entry Hentry. rewrite add_id_entry.
  specialize (Hall entry Hentry). unfold_bind. destruct (entry_id entry); [reflexivity | discriminate].
Qed.

Lemma read_ids_all_ok (entries : list value) (acc ids : gset key) :
  for_each add_id entries acc = Ok ids ->
  forall entry, In entry entries -> is_ok (entry_id entry) = true.
Proof.
  revert acc. induction entries as [|e entries IH]; intros acc Hr entry Hentry;
    [destruct Hentry|].
  simpl in Hr. apply bind_ok_inv in Hr as (acc1 & Hstep & Hr).
  destruct Hentry as [<- | Hentry]; [|exact (IH _ Hr entry Hentry)].
  rewrite add_id_entry in Hstep. apply bind_ok_inv in Hstep as (k & -> & _). reflexivity.
Qed.

(** X16. [read_json_ids] on an array returns the set of the identifiers
    of its entries, whatever their order and however often an identifier
    occurs; it raises when an entry has no [id] field. *)
Theorem read_json_ids_set (entries : list value) :
  (forall ids : gset key,
      read_json_ids (VList entries) = Ok ids ->
      forall k, k ∈ ids <-> exists entry, In entry entries /\ entry_id entry = Ok k) /\
  (forall (entries' : list value) (ids : gset key),
      Permutation entries entries' ->
      read_json_ids (VList entries) = Ok ids ->
      read_json_ids (VList entries') = Ok ids) /\
  (forall (entry : value) (e : exn),
      In entry entries -> getitem entry "id" = Raise e ->
      is_ok (read_json_ids (VList entries)) = false).
Proof.
  assert (Hmem : forall l ids, read_json_ids (VList l) = Ok ids ->
            forall k, k ∈ ids <-> exists entry, In entry l /\ entry_id entry = Ok k).
  { intros l ids Hr k. unfold read_json_ids in Hr. simpl in Hr. unfold_bind.
    rewrite (read_ids_elem _ _ _ Hr k). split; [|auto].
    intros [Hk | Hk]; [destruct (not_elem_of_empty k Hk) | exact Hk]. }
  split; [apply Hmem|]. split.
  - intros entries' ids Hp Hr.
    assert (Hok : is_ok (read_json_ids (VList entries')) = true).
    { unfold read_json_ids in *. simpl in *. unfold_bind. apply read_ids_ok.
      intros entry Hentry. apply (read_ids_all_ok _ _ _ Hr).
      apply (Permutation_in entry (Permutation_sym Hp) Hentry). }
    destruct (read_json_ids (VList entries')) as [ids'|] eqn:Hr'; [|discriminate].
    f_equal. apply set_eq. intros k.
    rewrite (Hmem _ _ Hr' k), (Hmem _ _ Hr k). split; intros (entry & Hentry & Hk);
      exists entry; split; try exact Hk.
    + apply (Permutation_in entry (Permutation_sym Hp) Hentry).
    + apply (Permutation_in entry Hp Hentry).
  - intros entry e Hentry Hid. unfold read_json_ids. simpl. unfold_bind.
    apply (for_each_fails _ _ entry Hentry). intros ids.
    unfold add_id. rewrite Hid. reflexivity.
Qed.

Lemma read_json_ids_set_witness :
  read_json_ids (VList [VDict [("id", VStr "1")]; VDict [("id", VStr "2")];
                        VDict [("id", VStr "1")]]) = Ok {[ KStr "1"; KStr "2" ]} /\
  read_json_ids (VList [VDict [("id", VStr "2")]; VDict [("id", VStr "1")];
                        VDict [("id", VStr "1")]]) = Ok {[ KStr "1"; KStr "2" ]} /\
  is_ok (read_json_ids (VList [VDict [("id", VStr "1")]; VDict [("name", VStr "2")]])) = false.
Proof.
  assert (Hr : read_json_ids (VList [VDict [("id", VStr "1")]; VDict [("id", VStr "2")];
                                     VDict [("id", VStr "1")]]) = Ok {[ KStr "1"; KStr "2" ]})
    by (vm_compute; reflexivity).
  split; [exact Hr|]. split.
  - apply (proj1 (proj2 (read_json_ids_set _)) _ _ (perm_swap _ _ _) Hr).
  - apply (proj2 (proj2 (read_json_ids_set
                           [VDict [("id", VStr "1")]; VDict [("name", VStr "2")]]))
                 (VDict [("name", VStr "2")]) KeyError).
    + right. left. reflexivity.
    + reflexivity.
Defined.

(** ** Strings in the CSV file, numbers in a JSON file *)

(** X20. The identifiers read from the CSV file are strings (or [None]
    for a short row), and a string never equals a number: an identifier
    that a JSON file gives as a number is reported missing from the CSV
    file, whatever the CSV file holds. *)
Theorem csv_ids_never_match_numbers (rows : list (list (string * value)))
    (entries : list value) (tweets_map tweets_summary : value)
    (report : list report_line) (entry : value) (n : Z) :
  (forall row v, In row rows -> obj_get row "id" = Some v ->
                 v = VNone \/ exists s, v = VStr s) ->
  In entry entries -> getitem entry "id" = Ok (VInt n) ->
  integrity_check_main rows (VList entries) tweets_map tweets_summary = Ok report ->
  exists missing, In (MissingIn "turras.csv" missing) report /\ KInt n ∈ missing.
Proof.
  intros Hrows Hentry Hid Hr. unfold integrity_check_main in Hr.
  apply bind_ok_inv in Hr as (a & Ha & Hr).
  apply bind_ok_inv in Hr as (b & Hb & Hr).
  apply bind_ok_inv in Hr as (c & Hc & Hr).
  apply bind_ok_inv in Hr as (d & Hd & Hr).
  assert (Hina : KInt n ∉ a).
  { intros Hin. unfold read_csv_ids in Ha.
    apply (read_ids_elem _ _ _ Ha) in Hin as [Hin | (e & He & Hk)];
      [destruct (not_elem_of_empty _ Hin)|].
    apply in_map_iff in He as (row & <- & Hrow).
    unfold entry_id in Hk. simpl in Hk.
    destruct (obj_get row "id") as [v|] eqn:Hv; [|discriminate].
    destruct (Hrows row v Hrow Hv) as [-> | (s & ->)]; simpl in Hk; discriminate. }
  assert (Hinb : KInt n ∈ b).
  { unfold read_json_ids in Hb. simpl in Hb. unfold_bind.
    apply (read_ids_elem _ _ _ Hb). right. exists entry. split; [exact Hentry|].
    unfold entry_id. rewrite Hid. reflexivity. }
  unfold main in Hr. rewrite check_files_report in Hr. cbv zeta in Hr. cbn [map snd] in Hr.
  set (U := foldl (∪) a [b; c; d]) in *.
  assert (HinU : KInt n ∈ U).
  { apply elem_of_foldl_union. right. exists b. split; [left; reflexivity | exact Hinb]. }
  destruct (Nat.eqb (size (foldl (∩) a [b; c; d])) (size U)) eqn:Hsize.
  - apply Nat.eqb_eq in Hsize.
    pose proof (proj1 (same_size_iff_all_equal _ _) Hsize a b) as Hab.
    rewrite Hab in Hina; [destruct (Hina Hinb) | left; reflexivity | right; left; reflexivity].
  - injection Hr as <-. exists (U ∖ a). split.
    + right. unfold missing_lines. cbn [flat_map].
      destruct (bool_decide (U ∖ a = ∅)) eqn:He.
      * apply bool_decide_eq_true in He.
        assert (Hdiff : KInt n ∈ U ∖ a) by (apply elem_of_difference; auto).
        rewrite He in Hdiff. destruct (not_elem_of_empty _ Hdiff).
      * left. reflexivity.
    + apply elem_of_difference. auto.
Qed.

Lemma csv_ids_never_match_numbers_witness :
  integrity_check_main csv_one json_one json_one_str json_one_str =
    Ok [MissingHeader;
        MissingIn "turras.csv" {[ KInt 1 ]};
        MissingIn "tweets_exam.json" {[ KStr "1" ]};
        MissingIn "tweets_map.json" {[ KInt 1 ]};
        MissingIn "tweets_summary.json" {[ KInt 1 ]}] /\
  exists missing,
    In (MissingIn "turras.csv" missing)
       [MissingHeader;
        MissingIn "turras.csv" {[ KInt 1 ]};
        MissingIn "tweets_exam.json" {[ KStr "1" ]};
        MissingIn "tweets_map.json" {[ KInt 1 ]};
        MissingIn "tweets_summary.json" {[ KInt 1 ]}] /\
    KInt 1 ∈ missing.
Proof.
  assert (Hr : integrity_check_main csv_one json_one json_one_str json_one_str =
            Ok [MissingHeader;
                MissingIn "turras.csv" {[ KInt 1 ]};
                MissingIn "tweets_exam.json" {[ KStr "1" ]};
                MissingIn "tweets_map.json" {[ KInt 1 ]};
                MissingIn "tweets_summary.json" {[ KInt 1 ]}])
    by (vm_compute; reflexivity).
  split; [exact Hr|].
  apply (csv_ids_never_match_numbers csv_one [VDict [("id", VInt 1)]] json_one_str
           json_one_str _ (VDict [("id", VInt 1)]) 1); [| left; reflexivity | reflexivity | exact Hr].
  intros row v [<- | []] Hv. vm_compute in Hv. injection Hv as <-. right. eauto.
Defined.

(** ** Totals of a thread in two parts *)

Lemma fold_add_shift (l : list Z) (a b : Z) :
  fold_left Z.add l (a + b) = a + fold_left Z.add l b.
Proof.
  revert b. induction l as [|x l IH]; intros b; simpl; [reflexivity|].
  rewrite <- IH. f_equal. lia.
Qed.

Lemma stat_sum_app (k : stat_key) (l1 l2 : list value) :
  stat_sum k (l1 ++ l2) = stat_sum k l1 + stat_sum k l2.
Proof.
  unfold stat_sum, stat_sum_from. rewrite map_app, fold_left_app.
  rewrite <- fold_add_shift. f_equal. lia.
Qed.

(** X21. The totals are additive: when the two parts of a thread
    aggregate, the thread aggregates to the sums, stat by stat, of the
    totals of the parts; and when a part does not aggregate, neither does
    the thread. *)
Theorem aggregate_in_parts (l1 l2 : list value) :
  (forall t1 t2 : stats,
      aggregate (VList l1) = Ok t1 -> aggregate (VList l2) = Ok t2 ->
      aggregate (VList (l1 ++ l2)) =
        Ok (Stats (replies t1 + replies t2) (likes t1 + likes t2)
                  (bookmarks t1 + bookmarks t2) (views t1 + views t2))) /\
  (is_ok (aggregate (VList l1)) = false \/ is_ok (aggregate (VList l2)) = false ->
   is_ok (aggregate (VList (l1 ++ l2))) = false).
Proof.
  assert (Hsum : forall l, forallb tweet_parses l = true ->
            aggregate (VList l) =
              Ok (Stats (stat_sum Replies l) (stat_sum Likes l)
                        (stat_sum Bookmarks l) (stat_sum Views l))).
  { intros l Hp. unfold aggregate. simpl. unfold_bind.
    rewrite (aggregate_loop_sums _ _ Hp). reflexivity. }
  assert (Hparse : forall l t, aggregate (VList l) = Ok t -> forallb tweet_parses l = true).
  { intros l t Hr. unfold aggregate in Hr. simpl in Hr. unfold_bind.
    exact (aggregate_loop_parses _ _ _ Hr). }
  split.
  - intros t1 t2 H1 H2.
    pose proof (Hparse _ _ H1) as Hp1. pose proof (Hparse _ _ H2) as Hp2.
    rewrite (Hsum _ Hp1) in H1. rewrite (Hsum _ Hp2) in H2.
    injection H1 as <-. injection H2 as <-.
    rewrite Hsum by (rewrite forallb_app, Hp1, Hp2; reflexivity).
    rewrite !stat_sum_app. reflexivity.
  - intros Hfail.
    destruct (aggregate (VList (l1 ++ l2))) as [t|] eqn:Hr; [|reflexivity].
    apply Hparse in Hr. rewrite forallb_app in Hr. apply andb_prop in Hr as [Hp1 Hp2].
    rewrite (Hsum _ Hp1), (Hsum _ Hp2) in Hfail. destruct Hfail; discriminate.
Qed.

Lemma aggregate_in_parts_witness :
  aggregate (VList ([reply_1; reply_2] ++ [reply_3])) = Ok (Stats 6 0 0 0).
Proof.
  apply (proj1 (aggregate_in_parts [reply_1; reply_2] [reply_3])
               (Stats 3 0 0 0) (Stats 3 0 0 0)); vm_compute; reflexivity.
Defined.
